(** * pytailer: the [LogWatcher] class of [pytailer.py]

    A shallow embedding of the Python 2 module [pytailer.py].  Python [str]
    values that hold file names are Rocq strings, file contents are lists of
    bytes, Python integers are [Z], and every method of [LogWatcher] that
    touches the operating system or the object's own fields is a function
    [state -> state * result _] over an explicit state. *)

From Stdlib Require Import List ZArith Lia Bool String Ascii DecimalString HexString.
From Stdlib.Strings Require Import Byte.
Import ListNotations.

Local Open Scope Z_scope.

(** ** Python [str] builtins used by the source *)

Abbreviation bytes := (list byte).

Definition LF : byte := x0a.
Definition CR : byte := x0d.

(** [data.count(c)] for a one-byte [c]. *)
Definition count (c : byte) (data : bytes) : Z :=
  Z.of_nat (List.length (filter (Byte.eqb c) data)).

(** [str.splitlines()] of Python 2 on a byte string: a line ends at
    "\n", "\r" or "\r\n", the terminators are dropped, and no empty last
    line is produced after a final terminator.  [cur] holds the bytes of
    the line being read, most recent first. *)
Fixpoint splitlines_from (cur : bytes) (data : bytes) : list bytes :=
  match data with
  | [] => match cur with [] => [] | _ => [rev cur] end
  | c :: rest =>
      if Byte.eqb c LF then rev cur :: splitlines_from [] rest
      else if Byte.eqb c CR then
        match rest with
        | c' :: rest' =>
            if Byte.eqb c' LF then rev cur :: splitlines_from [] rest'
            else rev cur :: splitlines_from [] rest
        | [] => rev cur :: splitlines_from [] rest
        end
      else splitlines_from (c :: cur) rest
  end.

Definition splitlines (data : bytes) : list bytes := splitlines_from [] data.

(** A slice bound as Python reads it on a sequence of length [n]: a
    negative index counts from the end, and the bound is clamped. *)
Definition py_index (n i : Z) : Z :=
  if i <? 0 then Z.max 0 (n + i) else Z.min i n.

(** [l[i:]] *)
Definition slice_from {A : Type} (i : Z) (l : list A) : list A :=
  skipn (Z.to_nat (py_index (Z.of_nat (List.length l)) i)) l.

(** [l[i:j]] *)
Definition slice {A : Type} (i j : Z) (l : list A) : list A :=
  let n := Z.of_nat (List.length l) in
  firstn (Z.to_nat (py_index n j - py_index n i))
         (skipn (Z.to_nat (py_index n i)) l).

(** [s.find(c)] for a one-character [c]: the first index, or -1. *)
Fixpoint find (c : ascii) (s : list ascii) : Z :=
  match s with
  | [] => -1
  | x :: rest =>
      if Ascii.eqb x c then 0
      else let i := find c rest in if i <? 0 then -1 else i + 1
  end.

(** [c in s] *)
Definition contains (c : ascii) (s : list ascii) : bool :=
  existsb (Ascii.eqb c) s.

(** [repr] of a Python 2 integer: decimal digits, with the suffix [L] once
    the value leaves the machine range of [int]. *)
Definition repr_int (z : Z) : string :=
  let digits := NilZero.string_of_int (Z.to_int z) in
  if (z <? - 2 ^ 63) || (2 ^ 63 - 1 <? z) then (digits ++ "L")%string else digits.

(** ** Exceptions and results *)

Inductive errno := ENOENT | EACCES | EISDIR | ENOTDIR | EIO.

Definition errno_eqb (a b : errno) : bool :=
  match a, b with
  | ENOENT, ENOENT | EACCES, EACCES | EISDIR, EISDIR
  | ENOTDIR, ENOTDIR | EIO, EIO => true
  | _, _ => false
  end.

(** [IOError] and [OSError] are the two subclasses of [EnvironmentError]:
    the builtin [open] raises the first, [os.stat] the second. *)
Inductive exn :=
| ValueError (msg : string)
| IOError (e : errno)
| OSError (e : errno)
| TypeError (msg : string)
| AttributeError (msg : string)
| KeyError (key : string).

(** What a call produces: a value, a raised exception, or [Diverge] when
    the fuel given to a [while] loop of the model ran out. *)
Inductive result (A : Type) :=
| Ok (a : A)
| Raise (e : exn)
| Diverge.

Arguments Ok {A} a.
Arguments Raise {A} e.
Arguments Diverge {A}.

(** ** The file system seen by the watcher *)

Inductive kind := Regular | Directory | Special.

Record inode := {
  i_kind : kind;
  i_readable : bool;
  i_data : bytes
}.

(** An inode is named by its device and inode numbers. *)
Definition file_key := (N * N)%type.

Record filesystem := {
  fs_lookup : string -> errno + file_key;
  fs_inode : file_key -> inode
}.

Record stat_result := {
  st_dev : N;
  st_ino : N;
  st_isreg : bool;
  st_size : Z
}.

(** [os.stat(path)] *)
Definition os_stat (fs : filesystem) (path : string) : result stat_result :=
  match fs_lookup fs path with
  | inl e => Raise (OSError e)
  | inr k =>
      let i := fs_inode fs k in
      Ok {| st_dev := fst k; st_ino := snd k;
            st_isreg := match i_kind i with Regular => true | _ => false end;
            st_size := Z.of_nat (List.length (i_data i)) |}
  end.

(** The builtin [open(path, 'rb')]: the inode the new file object reads. *)
Definition os_open (fs : filesystem) (path : string) : result file_key :=
  match fs_lookup fs path with
  | inl e => Raise (IOError e)
  | inr k =>
      let i := fs_inode fs k in
      if negb (i_readable i) then Raise (IOError EACCES)
      else match i_kind i with
           | Directory => Raise (IOError EISDIR)
           | _ => Ok k
           end
  end.

(** [f.seek(pos); f.read(n)] on a file whose bytes are [content]; a
    negative [n] reads to the end of the file. *)
Definition file_read (content : bytes) (pos n : Z) : bytes :=
  let rest := skipn (Z.to_nat pos) content in
  if n <? 0 then rest else firstn (Z.to_nat n) rest.

(** ** [LogWatcher.tail] *)

Definition BUFSIZ : Z := 1024.

(** The state of the backward scan after it has stopped: the buffer and
    the reads it made, as pairs (offset from the start, byte count). *)
Record scan := {
  sc_data : bytes;
  sc_reads : list (Z * Z)
}.

(** The [while not exit] loop of [tail], lines 130-143. *)
Fixpoint tail_loop (fuel : nat) (content : bytes) (window fsize block : Z)
    (data : bytes) (reads : list (Z * Z)) : option scan :=
  match fuel with
  | O => None
  | S fuel' =>
      let step := block * BUFSIZ in
      let '(pos, n, exit) :=
        if Z.abs step >=? fsize
        then (0, BUFSIZ - (Z.abs step - fsize), true)
        else (fsize + step, BUFSIZ, false) in
      let newdata := file_read content pos n in
      let data := newdata ++ data in
      let reads := reads ++ [(pos, n)] in
      if count LF data >=? window
      then Some {| sc_data := data; sc_reads := reads |}
      else if exit
           then Some {| sc_data := data; sc_reads := reads |}
           else tail_loop fuel' content window fsize (block - 1) data reads
  end.

(** Fuel that covers every block of the file, and one more step. *)
Definition tail_fuel (content : bytes) : nat :=
  S (Z.to_nat (Z.of_nat (List.length content) / BUFSIZ)).

(** The body of the [with cls.open(fname) as f] block. *)
Definition tail_scan (content : bytes) (window : Z) : option scan :=
  tail_loop (tail_fuel content) content window
            (Z.of_nat (List.length content)) (-1) [] [].

(** [LogWatcher.tail(fname, window)] *)
Definition tail (fs : filesystem) (fname : string) (window : Z)
  : result (list bytes) :=
  if window <=? 0
  then Raise (ValueError ("invalid window value " ++ repr_int window))
  else match os_open fs fname with
       | Raise e => Raise e
       | Diverge => Diverge
       | Ok k =>
           match tail_scan (i_data (fs_inode fs k)) window with
           | None => Diverge
           | Some sc => Ok (slice_from (- window) (splitlines (sc_data sc)))
           end
       end.

(** The spec's reading of [tail]: the last [min N K] of the [K] lines of
    the whole file, in file order. *)
Definition spec_tail (content : bytes) (window : Z) : list bytes :=
  let ls := splitlines content in
  let keep := Nat.min (Z.to_nat window) (List.length ls) in
  skipn (List.length ls - keep) ls.

(** ** The part of [re] used by the source *)

(** Regular expressions over the constructs of the one pattern of the
    source.  [Any_star] is [.*]: the longest run, tried first, of
    characters other than the line feed. *)
Inductive regex :=
| Bol
| Eol
| Chr (c : ascii)
| Any_star
| Grp (r : regex)
| Seq (r1 r2 : regex).

Definition newline : ascii := "010"%char.

(** The backtracking of [.*]: consume while possible, and give back one
    character at a time when the rest of the pattern fails. *)
Fixpoint any_star {G : Type} (s : list ascii) (k : list ascii -> option G)
  : option G :=
  match s with
  | [] => k []
  | c :: rest =>
      if Ascii.eqb c newline then k s
      else match any_star rest k with
           | Some g => Some g
           | None => k s
           end
  end.

(** Matching [r] at the head of [s], where [whole] is the subject string
    and [gs] the groups closed so far; [k] matches what follows [r]. *)
Fixpoint re_run (r : regex) (whole s : list ascii) (gs : list (list ascii))
    (k : list ascii -> list (list ascii) -> option (list (list ascii)))
  : option (list (list ascii)) :=
  match r with
  | Bol => if (List.length s =? List.length whole)%nat then k s gs else None
  | Eol =>
      match s with
      | [] => k s gs
      | [c] => if Ascii.eqb c newline then k s gs else None
      | _ => None
      end
  | Chr c =>
      match s with
      | x :: rest => if Ascii.eqb x c then k rest gs else None
      | [] => None
      end
  | Any_star => any_star s (fun s' => k s' gs)
  | Grp r' =>
      re_run r' whole s gs
        (fun s' gs' =>
           k s' (gs' ++ [firstn (List.length s - List.length s') s]))
  | Seq r1 r2 =>
      re_run r1 whole s gs (fun s' gs' => re_run r2 whole s' gs' k)
  end.

(** [re.match(r, s)]: the groups of the match anchored at the start of
    [s], or [None]. *)
Definition re_match (r : regex) (s : list ascii) : option (list (list ascii)) :=
  re_run r s s [] (fun _ gs => Some gs).

(** The pattern of line 151: start of string, group 1 [.*], an opening
    brace, [.*], a closing brace, group 2 [.*], end of string. *)
Definition template_re : regex :=
  Seq Bol (Seq (Grp Any_star) (Seq (Chr "{") (Seq Any_star
      (Seq (Chr "}") (Seq (Grp Any_star) Eol))))).

(** ** File identity *)

(** The conversion [%x]: lower-case hexadecimal digits. *)
Definition hex (n : N) : string :=
  match n with
  | N0 => "0"
  | Npos p => HexString.Raw.of_pos p ""
  end.

(** [LogWatcher.get_file_id(st)], on a system where [os.name] is
    [posix]: the device number and the inode number in hexadecimal, with
    the letter g between them. *)
Definition get_file_id (st : stat_result) : string :=
  (hex (st_dev st) ++ "g" ++ hex (st_ino st))%string.

(** The identity [get_file_id] computes from the [os.stat] of an inode. *)
Definition key_id (k : file_key) : string :=
  (hex (fst k) ++ "g" ++ hex (snd k))%string.

(** Whether the character [c] occurs in [name]. *)
Definition has_char (c : ascii) (name : string) : bool :=
  contains c (list_ascii_of_string name).

(** What the call [self.watch(file.name)] of line 179 raises. *)
Definition watch_arity_error : exn :=
  TypeError "watch() takes exactly 3 arguments (2 given)".

(** ** Dictionaries *)

(** A [dict] with string keys as an association list without repeated
    keys; the order of the list stands for the order in which [items()]
    yields the entries. *)
Section Dict.
Context {V : Type}.

Fixpoint dict_get (k : string) (d : list (string * V)) : option V :=
  match d with
  | [] => None
  | (k', v) :: rest => if String.eqb k k' then Some v else dict_get k rest
  end.

Fixpoint dict_set (k : string) (v : V) (d : list (string * V))
  : list (string * V) :=
  match d with
  | [] => [(k, v)]
  | (k', v') :: rest =>
      if String.eqb k k' then (k', v) :: rest
      else (k', v') :: dict_set k v rest
  end.

Fixpoint dict_del (k : string) (d : list (string * V)) : list (string * V) :=
  match d with
  | [] => []
  | (k', v') :: rest =>
      if String.eqb k k' then rest else (k', v') :: dict_del k rest
  end.

Definition dict_mem (k : string) (d : list (string * V)) : bool :=
  match dict_get k d with Some _ => true | None => false end.
End Dict.

(** ** [file.readlines] *)

(** The lines of [data] with their terminators kept, as a binary-mode
    file yields them: a line ends at "\n" or at the end of the data. *)
Fixpoint lines_from (cur : bytes) (data : bytes) : list bytes :=
  match data with
  | [] => match cur with [] => [] | _ => [rev cur] end
  | c :: rest =>
      if Byte.eqb c LF then rev (c :: cur) :: lines_from [] rest
      else lines_from (c :: cur) rest
  end.

(** The lines [file.readlines(hint)] returns out of the lines that are
    left: all of them when [hint <= 0], and otherwise whole lines until
    their sizes add up to [hint]. *)
Fixpoint take_hint (hint : Z) (ls : list bytes) : list bytes :=
  match ls with
  | [] => []
  | l :: rest =>
      let left := hint - Z.of_nat (List.length l) in
      l :: (if (0 <? hint) && (left <=? 0) then [] else take_hint left rest)
  end.

(** ** The watcher *)

Section Watcher.
(** The metadata attached to a watch entry (the [_type] of the source)
    and the values of the clock are opaque; [strftime fmt t] stands for
    [time.strftime(fmt, time.localtime(t))] and [realpath] for
    [os.path.realpath]. *)
Variable T : Type.
Variable Time : Type.
Variable strftime : string -> Time -> string.
Variable realpath : string -> string.

(** A Python file object: the name it was opened under, the inode it
    reads, its position and whether it has been closed. *)
Record pyfile := {
  f_name : string;
  f_key : file_key;
  f_pos : Z;
  f_closed : bool
}.

(** The positional arguments of a call. *)
Inductive pyarg :=
| Astr (s : string)
| Alines (ls : list bytes)
| Ameta (t : T).

(** What the watcher does to the outside: lines printed by [log], calls
    of the consumer callback, and file objects closed. *)
Inductive event :=
| Ev_log (line : string)
| Ev_callback (args : list pyarg)
| Ev_close (h : nat).

(** The environment ([fs], [clock]), the store of file objects, which
    the fields of the watcher refer to by index, the fields of the
    [LogWatcher] object, and the events so far. *)
Record state := {
  fs : filesystem;
  clock : Time;
  handles : list pyfile;
  filelist : list (string * T);
  files_map : list (string * (nat * T));
  sizehint : Z;
  trace : list event
}.

Definition M (A : Type) : Type := state -> state * result A.

Definition ret {A : Type} (a : A) : M A := fun s => (s, Ok a).

Definition raise {A : Type} (e : exn) : M A := fun s => (s, Raise e).

Definition bind {A B : Type} (m : M A) (k : A -> M B) : M B :=
  fun s =>
    match m s with
    | (s', Ok a) => k a s'
    | (s', Raise e) => (s', Raise e)
    | (s', Diverge) => (s', Diverge)
    end.

Notation "x <- m ;; k" := (bind m (fun x => k))
  (at level 61, m at next level, right associativity).
Notation "m ;;; k" := (bind m (fun _ => k))
  (at level 61, right associativity).

Definition set_handles (hs : list pyfile) (s : state) : state :=
  {| fs := fs s; clock := clock s; handles := hs; filelist := filelist s;
     files_map := files_map s; sizehint := sizehint s; trace := trace s |}.

Definition set_files_map (m : list (string * (nat * T))) (s : state) : state :=
  {| fs := fs s; clock := clock s; handles := handles s;
     filelist := filelist s; files_map := m; sizehint := sizehint s;
     trace := trace s |}.

Definition emit (ev : event) : M unit :=
  fun s =>
    ({| fs := fs s; clock := clock s; handles := handles s;
        filelist := filelist s; files_map := files_map s;
        sizehint := sizehint s; trace := trace s ++ [ev] |}, Ok tt).

(** An index outside the store stands for no file object; it reads as a
    closed one. *)
Definition no_file : pyfile :=
  {| f_name := ""; f_key := (0%N, 0%N); f_pos := 0; f_closed := true |}.

Definition file_of (s : state) (h : nat) : pyfile := nth h (handles s) no_file.

Fixpoint set_nth {A : Type} (n : nat) (x : A) (l : list A) : list A :=
  match l, n with
  | [], _ => []
  | _ :: rest, O => x :: rest
  | y :: rest, S n' => y :: set_nth n' x rest
  end.

Definition closed_file : exn := ValueError "I/O operation on closed file".

(** The file object [f] moved to [pos], and [f] closed. *)
Definition with_pos (f : pyfile) (pos : Z) : pyfile :=
  {| f_name := f_name f; f_key := f_key f; f_pos := pos;
     f_closed := f_closed f |}.

Definition as_closed (f : pyfile) : pyfile :=
  {| f_name := f_name f; f_key := f_key f; f_pos := f_pos f;
     f_closed := true |}.

(** [self.log(line)] *)
Definition log (line : string) : M unit := emit (Ev_log line).

(** A call of [self._callback] with the positional arguments [args]. *)
Definition callback (args : list pyarg) : M unit := emit (Ev_callback args).

(** [cls.open(file)]: a new file object at position 0. *)
Definition open (fname : string) : M nat :=
  fun s =>
    match os_open (fs s) fname with
    | Ok k =>
        (set_handles (handles s ++ [{| f_name := fname; f_key := k;
                                       f_pos := 0; f_closed := false |}]) s,
         Ok (List.length (handles s)))
    | Raise e => (s, Raise e)
    | Diverge => (s, Diverge)
    end.

(** [os.stat(path)] *)
Definition stat (path : string) : M stat_result :=
  fun s => (s, os_stat (fs s) path).

(** [file.seek(pos)] *)
Definition file_seek (h : nat) (pos : Z) : M unit :=
  fun s =>
    let f := file_of s h in
    if f_closed f then (s, Raise closed_file)
    else (set_handles (set_nth h (with_pos f pos) (handles s)) s, Ok tt).

(** [file.close()] *)
Definition file_close (h : nat) : M unit :=
  fun s =>
    let f := file_of s h in
    emit (Ev_close h) (set_handles (set_nth h (as_closed f) (handles s)) s).

(** The bytes of the file of [h] from its position on. *)
Definition unread (s : state) (h : nat) : bytes :=
  let f := file_of s h in
  skipn (Z.to_nat (f_pos f)) (i_data (fs_inode (fs s) (f_key f))).

(** [file.readlines(hint)] *)
Definition file_readlines (h : nat) (hint : Z) : M (list bytes) :=
  fun s =>
    let f := file_of s h in
    if f_closed f then (s, Raise closed_file)
    else
      let lines := take_hint hint (lines_from [] (unread s h)) in
      (set_handles
         (set_nth h (with_pos f (f_pos f
                                 + Z.of_nat (List.length (List.concat lines))))
                  (handles s)) s,
       Ok lines).

(** The template of a watch entry resolved for the present time, lines
    149-152. *)
Definition resolve_name (name : string) : M string :=
  fun s =>
    let cs := list_ascii_of_string name in
    if contains "{" cs then
      let fmt := slice (find "{" cs + 1) (find "}" cs) cs in
      let _time := strftime (string_of_list_ascii fmt) (clock s) in
      match re_match template_re cs with
      | Some gs =>
          (s, Ok (string_of_list_ascii (nth 0 gs []) ++ _time
                  ++ string_of_list_ascii (nth 1 gs []))%string)
      | None =>
          (s, Raise (AttributeError
                       "'NoneType' object has no attribute 'group'"))
      end
    else (s, Ok name).

(** The [while True] loop of [readlines], lines 190-194. *)
Fixpoint readlines_loop (fuel : nat) (h : nat) (_type : T) : M unit :=
  match fuel with
  | O => fun s => (s, Diverge)
  | S fuel' =>
      fun s =>
        match file_readlines h (sizehint s) s with
        | (s1, Ok []) => (s1, Ok tt)
        | (s1, Ok lines) =>
            match callback [Astr (f_name (file_of s1 h)); Alines lines;
                            Ameta _type] s1 with
            | (s2, Ok _) => readlines_loop fuel' h _type s2
            | (s2, Raise e) => (s2, Raise e)
            | (s2, Diverge) => (s2, Diverge)
            end
        | (s1, Raise e) => (s1, Raise e)
        | (s1, Diverge) => (s1, Diverge)
        end
  end.

(** [self.readlines(file, _type)]: one round of the loop for every
    unread byte, and the round that finds nothing; the method has no
    [return], so that its value is [None]. *)
Definition readlines (h : nat) (_type : T) : M (option (list bytes)) :=
  fun s =>
    match readlines_loop (S (List.length (unread s h))) h _type s with
    | (s', Ok _) => (s', Ok None)
    | (s', Raise e) => (s', Raise e)
    | (s', Diverge) => (s', Diverge)
    end.

(** [self.watch(fname, _type)] *)
Definition watch (fname : string) (_type : T) : M unit :=
  fun s =>
    match (file <- open fname ;;
           st <- stat fname ;;
           ret (file, get_file_id st)) s with
    | (s1, Ok (file, fid)) =>
        (log ("watching logfile " ++ fname) ;;;
         fun s2 => (set_files_map (dict_set fid (file, _type) (files_map s2)) s2,
                    Ok tt)) s1
    | (s1, Raise (IOError e)) =>
        if negb (errno_eqb e ENOENT) then (s1, Raise (IOError e)) else (s1, Ok tt)
    | (s1, Raise (OSError e)) =>
        if negb (errno_eqb e ENOENT) then (s1, Raise (OSError e)) else (s1, Ok tt)
    | (s1, Raise e) => (s1, Raise e)
    | (s1, Diverge) => (s1, Diverge)
    end.

(** [with file: body]: entering a closed file raises; leaving the
    block closes the file, whether [body] returned or raised. *)
Definition with_file {A : Type} (h : nat) (body : M A) : M A :=
  fun s =>
    if f_closed (file_of s h) then (s, Raise closed_file)
    else match body s with
         | (s1, Diverge) => (s1, Diverge)
         | (s1, r) => (fst (file_close h s1), r)
         end.

(** [self._files_map[fid]] *)
Definition files_map_item (fid : string) : M (nat * T) :=
  fun s =>
    match dict_get fid (files_map s) with
    | Some info => (s, Ok info)
    | None => (s, Raise (KeyError fid))
    end.

(** [del self._files_map[fid]] *)
Definition files_map_del (fid : string) : M unit :=
  fun s =>
    match dict_get fid (files_map s) with
    | Some _ => (set_files_map (dict_del fid (files_map s)) s, Ok tt)
    | None => (s, Raise (KeyError fid))
    end.

(** [self.unwatch(file, fid)] *)
Definition unwatch (file : nat) (fid : string) : M unit :=
  fun s =>
    let name := f_name (file_of s file) in
    (log ("un-watching logfile " ++ name) ;;;
     with_file file
       (info <- files_map_item fid ;;
        lines <- readlines file (snd info) ;;
        files_map_del fid ;;;
        match lines with
        | Some (l :: ls) => callback [Astr name; Alines (l :: ls)]
        | _ => ret tt
        end)) s.

(** A call [self.watch(...)] with the positional arguments [args]:
    [watch] takes [fname] and [_type], and neither has a default. *)
Definition call_watch (args : list pyarg) : M unit :=
  match args with
  | [Astr fname; Ameta _type] => watch fname _type
  | _ =>
      raise (TypeError
               ("watch() takes exactly 3 arguments ("
                ++ repr_int (Z.of_nat (S (List.length args))) ++ " given)"))
  end.

(** The first loop of [update_files], lines 148-163: the entries of
    [self.filelist] that are regular files now, with their identities. *)
Fixpoint scan_filelist (entries : list (string * T))
    (ls : list (string * string * T)) : M (list (string * string * T)) :=
  match entries with
  | [] => ret ls
  | (name, _type) :: rest =>
      name' <- resolve_name name ;;
      let absname := realpath name' in
      fun s =>
        match stat absname s with
        | (s1, Ok st) =>
            if negb (st_isreg st) then scan_filelist rest ls s1
            else scan_filelist rest
                   (ls ++ [(get_file_id st, absname, _type)]) s1
        | (s1, Raise (IOError e)) =>
            if negb (errno_eqb e ENOENT) then (s1, Raise (IOError e))
            else scan_filelist rest ls s1
        | (s1, Raise (OSError e)) =>
            if negb (errno_eqb e ENOENT) then (s1, Raise (OSError e))
            else scan_filelist rest ls s1
        | (s1, Raise e) => (s1, Raise e)
        | (s1, Diverge) => (s1, Diverge)
        end
  end.

(** The second loop, lines 166-179, over the items the map had when
    the loop began. *)
Fixpoint check_existent (items : list (string * (nat * T))) : M unit :=
  match items with
  | [] => ret tt
  | (fid, (file, _type)) :: rest =>
      (fun s =>
         let name := f_name (file_of s file) in
         match stat name s with
         | (s1, Ok st) =>
             if negb (String.eqb fid (get_file_id st))
             then (unwatch file fid ;;; call_watch [Astr name]) s1
             else (s1, Ok tt)
         | (s1, Raise (IOError e)) =>
             if errno_eqb e ENOENT then unwatch file fid s1
             else (s1, Raise (IOError e))
         | (s1, Raise (OSError e)) =>
             if errno_eqb e ENOENT then unwatch file fid s1
             else (s1, Raise (OSError e))
         | (s1, Raise e) => (s1, Raise e)
         | (s1, Diverge) => (s1, Diverge)
         end) ;;;
      check_existent rest
  end.

(** The third loop, lines 182-184. *)
Fixpoint add_new (ls : list (string * string * T)) : M unit :=
  match ls with
  | [] => ret tt
  | (fid, fname, _type) :: rest =>
      (fun s =>
         if negb (dict_mem fid (files_map s))
         then call_watch [Astr fname; Ameta _type] s
         else (s, Ok tt)) ;;;
      add_new rest
  end.

(** [self.update_files()] *)
Definition update_files : M unit :=
  ls <- (fun s => scan_filelist (filelist s) [] s) ;;
  (fun s => check_existent (files_map s) s) ;;;
  add_new ls.

(** The [try] statement of the constructor, lines 58-65. *)
Definition startup_tail (name : string) (tail_lines : Z) : M unit :=
  fun s =>
    match tail (fs s) name tail_lines with
    | Ok [] => (s, Ok tt)
    | Ok lines => callback [Astr name; Alines lines] s
    | Raise (IOError e) =>
        if negb (errno_eqb e ENOENT) then (s, Raise (IOError e))
        else (s, Ok tt)
    | Raise e => (s, Raise e)
    | Diverge => (s, Diverge)
    end.

(** The loop of the constructor, lines 54-65. *)
Fixpoint init_files (tail_lines : Z) (items : list (string * (nat * T)))
  : M unit :=
  match items with
  | [] => ret tt
  | (_, (file, _type)) :: rest =>
      (fun s =>
         let name := f_name (file_of s file) in
         (st <- stat name ;;
          file_seek file (st_size st) ;;;
          if negb (tail_lines =? 0) then startup_tail name tail_lines
          else ret tt) s) ;;;
      init_files tail_lines rest
  end.

(** [LogWatcher(filelist, callback, tail_lines, sizehint)], built in the
    environment, with the file objects and events, of the state it runs
    in. *)
Definition __init__ (filelist0 : list (string * T)) (tail_lines : Z)
    (sizehint0 : Z) : M unit :=
  (fun s =>
     ({| fs := fs s; clock := clock s; handles := handles s;
         filelist := filelist0; files_map := []; sizehint := sizehint0;
         trace := trace s |}, Ok tt)) ;;;
  update_files ;;;
  (fun s => init_files tail_lines (files_map s) s).

(** The inner loop of [loop], lines 86-88. *)
Fixpoint read_all (items : list (string * (nat * T))) : M unit :=
  match items with
  | [] => ret tt
  | (_, (file, _type)) :: rest =>
      readlines file _type ;;; read_all rest
  end.

(** One turn of the [while True] of [loop]. *)
Definition cycle : M unit :=
  update_files ;;;
  (fun s => read_all (files_map s) s).

(** [time.sleep(interval)]: the file system and the clock are what the
    environment made of them in the meantime. *)
Definition sleep (env : filesystem * Time) : M unit :=
  fun s =>
    ({| fs := fst env; clock := snd env; handles := handles s;
        filelist := filelist s; files_map := files_map s;
        sizehint := sizehint s; trace := trace s |}, Ok tt).

(** [self.loop(interval, blocking)], where [envs] lists the environment
    found after each sleep.  With [blocking] the loop has no exit: once
    [envs] is used up the model stops with [Diverge]. *)
Fixpoint loop (blocking : bool) (envs : list (filesystem * Time)) : M unit :=
  cycle ;;;
  if negb blocking then ret tt
  else match envs with
       | [] => fun s => (s, Diverge)
       | env :: rest => sleep env ;;; loop blocking rest
       end.

(** [self.close()] *)
Fixpoint close_files (items : list (string * (nat * T))) : M unit :=
  match items with
  | [] => ret tt
  | (_, (file, _)) :: rest => file_close file ;;; close_files rest
  end.

Definition close : M unit :=
  (fun s => close_files (files_map s) s) ;;;
  (fun s => (set_files_map [] s, Ok tt)).

(** ** What the callback has received *)

(** The call [callback(name, lines, _type)] of [readlines]. *)
Definition batch_event (name : string) (_type : T) (lines : list bytes)
  : event :=
  Ev_callback [Astr name; Alines lines; Ameta _type].

(** The bytes a call of the callback delivers for the file [name]. *)
Definition event_bytes (name : string) (ev : event) : bytes :=
  match ev with
  | Ev_callback (Astr n :: Alines ls :: _) =>
      if String.eqb n name then List.concat ls else []
  | _ => []
  end.

(** The concatenation of all the batches delivered for [name]. *)
Definition delivered (name : string) (tr : list event) : bytes :=
  flat_map (event_bytes name) tr.

(** The number of arguments of each call of the callback. *)
Definition callback_arities (tr : list event) : list nat :=
  flat_map (fun ev => match ev with
                      | Ev_callback args => [List.length args]
                      | _ => []
                      end) tr.

(** The state once the file object [h] has been read to its end, with
    the events [evs] added. *)
Definition after_read (s : state) (h : nat) (evs : list event) : state :=
  let f := file_of s h in
  {| fs := fs s; clock := clock s;
     handles := set_nth h (with_pos f (f_pos f
                                       + Z.of_nat (List.length (unread s h))))
                        (handles s);
     filelist := filelist s; files_map := files_map s;
     sizehint := sizehint s; trace := trace s ++ evs |}.

(** The state once [unwatch] has read the file object [h] to its end
    with the calls [evs] of the callback, dropped the entry [fid] and
    closed [h]. *)
Definition after_unwatch (s : state) (h : nat) (fid : string)
    (evs : list event) : state :=
  let f := file_of s h in
  {| fs := fs s; clock := clock s;
     handles :=
       set_nth h (as_closed
                    (with_pos f (f_pos f
                                 + Z.of_nat (List.length (unread s h)))))
               (handles s);
     filelist := filelist s;
     files_map := dict_del fid (files_map s);
     sizehint := sizehint s;
     trace := trace s ++ [Ev_log ("un-watching logfile " ++ f_name f)]
                      ++ evs ++ [Ev_close h] |}.

(** The file object [open] creates for the inode [k] under [fname]. *)
Definition fresh_file (fname : string) (k : file_key) : pyfile :=
  {| f_name := fname; f_key := k; f_pos := 0; f_closed := false |}.

(** The state once [watch] has opened [fname], found the inode [k]
    there, and entered the new file object in the map. *)
Definition after_watch (s : state) (fname : string) (k : file_key)
    (_type : T) : state :=
  {| fs := fs s; clock := clock s;
     handles := handles s ++ [fresh_file fname k];
     filelist := filelist s;
     files_map := dict_set (key_id k) (List.length (handles s), _type)
                           (files_map s);
     sizehint := sizehint s;
     trace := trace s ++ [Ev_log ("watching logfile " ++ fname)] |}.

(** The watcher of one entry [name], without placeholder, finds on
    waking up that the path it reads through the open file object [h]
    now leads to another regular, readable file, the inode [k']. *)
Definition replaced_under_name (s : state) (name : string) (_type : T)
    (h : nat) (fid : string) (k' : file_key) : Prop :=
  filelist s = [(name, _type)]
  /\ has_char "{" name = false
  /\ files_map s = [(fid, (h, _type))]
  /\ f_closed (file_of s h) = false
  /\ 0 <= f_pos (file_of s h)
  /\ f_name (file_of s h) = realpath name
  /\ fs_lookup (fs s) (realpath name) = inr k'
  /\ key_id k' <> fid
  /\ i_kind (fs_inode (fs s) k') = Regular
  /\ i_readable (fs_inode (fs s) k') = true.

(** Every file object of the map is open and was opened under a name
    that leads to the inode it reads. *)
Definition map_in_place (s : state) : Prop :=
  forall fid h (_type : T),
    In (fid, (h, _type)) (files_map s) ->
    f_closed (file_of s h) = false
    /\ fs_lookup (fs s) (f_name (file_of s h)) = inr (f_key (file_of s h)).

(** The end of the file the object [h] of [s] reads. *)
Definition eof (s : state) (h : nat) : Z :=
  Z.of_nat (List.length (i_data (fs_inode (fs s) (f_key (file_of s h))))).

(** What [read_all] hands out for the name [name] out of the file
    object of the entry [e]. *)
Definition share_of (s : state) (name : string) (e : string * (nat * T))
  : bytes :=
  if String.eqb (f_name (file_of s (fst (snd e)))) name
  then unread s (fst (snd e)) else [].

(** ** A watch set at rest *)

(** The entry [e] of the map is an open file object whose name still
    leads to the inode it reads, under the identity of that inode. *)
Definition watched_ok (s : state) (e : string * (nat * T)) : Prop :=
  let f := file_of s (fst (snd e)) in
  f_closed f = false
  /\ 0 <= f_pos f
  /\ fs_lookup (fs s) (f_name f) = inr (f_key f)
  /\ fst e = key_id (f_key f).

(** The entry [e] of the file list asks for nothing new: its path is
    missing, or is not a regular file, or is watched already. *)
Definition entry_settled (s : state) (e : string * T) : Prop :=
  exists p,
    resolve_name (fst e) s = (s, Ok p)
    /\ match fs_lookup (fs s) (realpath p) with
       | inr k =>
           i_kind (fs_inode (fs s) k) <> Regular
           \/ dict_mem (key_id k) (files_map s) = true
       | inl e => e = ENOENT
       end.

(** Nothing for [update_files] to do: one entry per identity, every
    watched file in place, and no new file to watch. *)
Definition quiet (s : state) : Prop :=
  NoDup (map fst (files_map s))
  /\ Forall (watched_ok s) (files_map s)
  /\ Forall (entry_settled s) (filelist s).

End Watcher.

Arguments Astr {T} s.
Arguments Alines {T} ls.
Arguments Ameta {T} t.
Arguments Ev_log {T} line.
Arguments Ev_callback {T} args.
Arguments Ev_close {T} h.
Arguments fs {T Time} s.
Arguments clock {T Time} s.
Arguments handles {T Time} s.
Arguments filelist {T Time} s.
Arguments files_map {T Time} s.
Arguments sizehint {T Time} s.
Arguments trace {T Time} s.
Arguments Build_state {T Time}.
Arguments ret {T Time A} a s.
Arguments raise {T Time A} e s.
Arguments bind {T Time A B} m k s.
Arguments set_handles {T Time} hs s.
Arguments set_files_map {T Time} m s.
Arguments emit {T Time} ev s.
Arguments file_of {T Time} s h.
Arguments unread {T Time} s h.
Arguments log {T Time} line s.
Arguments callback {T Time} args s.
Arguments open {T Time} fname s.
Arguments stat {T Time} path s.
Arguments file_seek {T Time} h pos s.
Arguments file_close {T Time} h s.
Arguments file_readlines {T Time} h hint s.
Arguments resolve_name {T Time} strftime name s.
Arguments readlines_loop {T Time} fuel h _type s.
Arguments readlines {T Time} h _type s.
Arguments watch {T Time} fname _type s.
Arguments with_file {T Time A} h body s.
Arguments files_map_item {T Time} fid s.
Arguments files_map_del {T Time} fid s.
Arguments unwatch {T Time} file fid s.
Arguments call_watch {T Time} args s.
Arguments scan_filelist {T Time} strftime realpath entries ls s.
Arguments check_existent {T Time} items s.
Arguments add_new {T Time} ls s.
Arguments update_files {T Time} strftime realpath s.
Arguments startup_tail {T Time} name tail_lines s.
Arguments init_files {T Time} tail_lines items s.
Arguments __init__ {T Time} strftime realpath filelist0 tail_lines sizehint0 s.
Arguments read_all {T Time} items s.
Arguments cycle {T Time} strftime realpath s.
Arguments sleep {T Time} env s.
Arguments loop {T Time} strftime realpath blocking envs s.
Arguments close_files {T Time} items s.
Arguments close {T Time} s.
Arguments batch_event {T} name _type lines.
Arguments event_bytes {T} name ev.
Arguments delivered {T} name tr.
Arguments callback_arities {T} tr.
Arguments after_read {T Time} s h evs.
Arguments after_unwatch {T Time} s h fid evs.
Arguments after_watch {T Time} s fname k _type.
Arguments map_in_place {T Time} s.
Arguments eof {T Time} s h.
Arguments share_of {T Time} s name e.
Arguments replaced_under_name {T Time} realpath s name _type h fid k'.
Arguments watched_ok {T Time} s e.
Arguments entry_settled {T Time} strftime realpath s e.
Arguments quiet {T Time} strftime realpath s.

(** [old] has grown into [new] by bytes appended to it. *)
Definition grown (old new : bytes) : Prop :=
  exists extra, new = old ++ extra.

(** The environments of a blocking loop keep the watch set at rest and
    only append to the inode [k]: each one, found on waking up after the
    turn before it, leaves nothing for [update_files] to do and holds the
    former bytes of [k] followed by new ones. *)
Fixpoint appends_only {T Time : Type} (strftime : string -> Time -> string)
    (realpath : string -> string) (k : file_key) (s : state T Time)
    (envs : list (filesystem * Time)) : Prop :=
  match envs with
  | [] => True
  | env :: rest =>
      let s1 := fst (sleep env (fst (cycle strftime realpath s))) in
      quiet strftime realpath s1
      /\ grown (i_data (fs_inode (fs s) k)) (i_data (fs_inode (fst env) k))
      /\ appends_only strftime realpath k s1 rest
  end.

(** A piece of a template with no brace and no line feed in it. *)
Definition plain (text : string) : Prop :=
  has_char "{" text = false
  /\ has_char "}" text = false
  /\ has_char newline text = false.


(** ** Sample environments *)

(** A file system that holds the regular, readable files of [files],
    each with its path, its inode and its content, and nothing else. *)
Definition key_eqb (a b : file_key) : bool :=
  (N.eqb (fst a) (fst b) && N.eqb (snd a) (snd b))%bool.

Fixpoint path_key (files : list (string * file_key * bytes)) (path : string)
  : errno + file_key :=
  match files with
  | [] => inl ENOENT
  | (p, k, _) :: rest => if String.eqb path p then inr k else path_key rest path
  end.

Fixpoint key_data (files : list (string * file_key * bytes)) (k : file_key)
  : bytes :=
  match files with
  | [] => []
  | (_, k', d) :: rest => if key_eqb k k' then d else key_data rest k
  end.

Definition disk (files : list (string * file_key * bytes)) : filesystem :=
  {| fs_lookup := path_key files;
     fs_inode := fun k => {| i_kind := Regular; i_readable := true;
                             i_data := key_data files k |} |}.

(** A line of text with its line feed. *)
Definition line (text : string) : bytes := list_byte_of_string text ++ [LF].

(** A state with no watcher yet: no file objects and no events. *)
Definition boot {T Time : Type} (fs0 : filesystem) (t : Time) : state T Time :=
  {| fs := fs0; clock := t; handles := []; filelist := []; files_map := [];
     sizehint := 0; trace := [] |}.

(** A clock that counts days and a [strftime] that prints the day
    number for the format [%j] and the format itself otherwise. *)
Definition day_strftime (fmt : string) (day : nat) : string :=
  if String.eqb fmt "%j" then NilZero.string_of_uint (Nat.to_uint day) else fmt.

(** A [realpath] for absolute paths without links. *)
Definition same_path (path : string) : string := path.

(** A log file of one line; the same path after a rotation, when the
    old inode, with one more line, has moved to another name and a new
    inode has taken its place; and the first file grown by one line and
    the beginning of another. *)
Definition log_disk : filesystem :=
  disk [("/log"%string, (1%N, 2%N), line "a")].

Definition rotated_disk : filesystem :=
  disk [("/log"%string, (1%N, 3%N), line "new");
        ("/log.1"%string, (1%N, 2%N), line "a" ++ line "L1")].

Definition grown_disk : filesystem :=
  disk [("/log"%string, (1%N, 2%N),
         line "a" ++ line "b" ++ list_byte_of_string "c")].

(** A second file, which appears after the watcher has started. *)
Definition late_disk : filesystem :=
  disk [("/log"%string, (1%N, 2%N), line "a");
        ("/late"%string, (1%N, 5%N), line "x" ++ line "y")].

(** A file system where looking up any path is refused, and the log
    file made unreadable. *)
Definition forbidden_disk : filesystem :=
  {| fs_lookup := fun _ => inl EACCES; fs_inode := fs_inode log_disk |}.

Definition unreadable_disk : filesystem :=
  {| fs_lookup := fs_lookup log_disk;
     fs_inode := fun k => {| i_kind := Regular; i_readable := false;
                             i_data := i_data (fs_inode log_disk k) |} |}.

(** The watcher of [/log] and [/late] started on [log_disk], without
    and with a tail of one line, and what it finds on waking up. *)
Definition sample_list : list (string * unit) :=
  [("/log"%string, tt); ("/late"%string, tt)].

Definition started : state unit nat :=
  fst (__init__ day_strftime same_path [("/log"%string, tt)] 0 1048576
                (boot log_disk 0%nat)).

Definition started_with_tail : state unit nat * result unit :=
  __init__ day_strftime same_path [("/log"%string, tt)] 1 1048576
           (boot log_disk 0%nat).

Definition started_two : state unit nat :=
  fst (__init__ day_strftime same_path sample_list 0 1048576
                (boot log_disk 0%nat)).

Definition woke_rotated : state unit nat :=
  fst (sleep (rotated_disk, 1%nat) started).

(** ** The remaining methods *)

(** [self.__enter__()] returns the watcher itself; [self.__exit__(...)]
    and [self.__del__()] both call [self.close()]. *)
Definition __enter__ {T Time : Type} : M T Time unit :=
  fun s => (s, Ok tt).

Definition __exit__ {T Time : Type} : M T Time unit := close.

Definition __del__ {T Time : Type} : M T Time unit := close.

(** [l] ends with [suffix]. *)
Definition ends_with {A : Type} (l suffix : list A) : Prop :=
  exists front, l = front ++ suffix.

(** A file of two lines and 1027 bytes, whose first line crosses the
    boundary of the last block. *)
Definition cut_disk : filesystem :=
  disk [("/f"%string, (1%N, 2%N),
         line "hello" ++ repeat "z"%byte 1020 ++ [LF])].

(** The sample watcher after its log file has grown, and after it has
    been closed. *)
Definition woke_grown : state unit nat :=
  fst (sleep (grown_disk, 1%nat) started).

Definition closed_watcher : state unit nat := fst (close started).

(** The watcher of one entry [name], without placeholder, finds on
    waking up that the path it reads through the open file object [h]
    is gone. *)
Definition vanished_under_name {T Time : Type} (realpath : string -> string)
    (s : state T Time) (name : string) (_type : T) (h : nat) (fid : string)
  : Prop :=
  filelist s = [(name, _type)]
  /\ has_char "{" name = false
  /\ files_map s = [(fid, (h, _type))]
  /\ f_closed (file_of s h) = false
  /\ 0 <= f_pos (file_of s h)
  /\ f_name (file_of s h) = realpath name
  /\ fs_lookup (fs s) (realpath name) = inl ENOENT.

(** The watcher of one entry [name], without placeholder, watches
    nothing, and the path now leads to the regular, readable inode [k]. *)
Definition appears_under_name {T Time : Type} (realpath : string -> string)
    (s : state T Time) (name : string) (_type : T) (k : file_key) : Prop :=
  filelist s = [(name, _type)]
  /\ has_char "{" name = false
  /\ files_map s = []
  /\ fs_lookup (fs s) (realpath name) = inr k
  /\ i_kind (fs_inode (fs s) k) = Regular
  /\ i_readable (fs_inode (fs s) k) = true.

(** A candidate of the scan of the file list: an identity, a path and
    the metadata, where the path leads to a regular file of that
    identity. *)
Definition candidate_ok {T : Type} (fs0 : filesystem)
    (c : string * string * T) : Prop :=
  exists k,
    fs_lookup fs0 (snd (fst c)) = inr k
    /\ i_kind (fs_inode fs0 k) = Regular
    /\ fst (fst c) = key_id k.

(** The log file gone, and a directory in its place. *)
Definition empty_disk : filesystem := disk [].

Definition directory_disk : filesystem :=
  {| fs_lookup := fs_lookup log_disk;
     fs_inode := fun k => {| i_kind := Directory; i_readable := true;
                             i_data := [] |} |}.

(** The watcher as lines 47-50 of the constructor leave it: the file
    list and the size hint stored, the map empty. *)
Definition blank {T Time : Type} (filelist0 : list (string * T))
    (sizehint0 : Z) (s : state T Time) : state T Time :=
  {| fs := fs s; clock := clock s; handles := handles s;
     filelist := filelist0; files_map := []; sizehint := sizehint0;
     trace := trace s |}.

(** The file object of an entry of the map. *)
Definition entry_file {T : Type} (e : string * (nat * T)) : nat :=
  fst (snd e).

(** From [s] to [s'] the trace has only grown, and every call of the
    callback added to it has three arguments. *)
Definition three_only {T Time : Type} (s s' : state T Time) : Prop :=
  exists evs,
    trace s' = trace s ++ evs
    /\ Forall (fun n => n = 3%nat) (callback_arities evs).

(** From [s] to [s'] no file object of the store was lost, renamed,
    moved to another inode, moved backwards or opened again. *)
Definition moves_forward {T Time : Type} (s s' : state T Time) : Prop :=
  (List.length (handles s) <= List.length (handles s'))%nat
  /\ forall h,
      (h < List.length (handles s))%nat ->
      f_name (file_of s' h) = f_name (file_of s h)
      /\ f_key (file_of s' h) = f_key (file_of s h)
      /\ f_pos (file_of s h) <= f_pos (file_of s' h)
      /\ (f_closed (file_of s h) = true -> f_closed (file_of s' h) = true).

(** The map is sound: one entry for each identity, one file object for
    each entry, and every file object of the map open, at a position
    that is not negative. *)
Definition sound {T Time : Type} (s : state T Time) : Prop :=
  NoDup (map fst (files_map s))
  /\ NoDup (map entry_file (files_map s))
  /\ forall e, In e (files_map s) ->
               f_closed (file_of s (entry_file e)) = false
               /\ 0 <= f_pos (file_of s (entry_file e)).

(** A result that is a value or one of the exceptions of the system
    calls, of the missing argument of line 179 and of the pattern of
    line 151: neither [ValueError], nor [KeyError], nor a loop without
    end. *)
Definition benign {A : Type} (r : result A) : Prop :=
  match r with
  | Ok _ => True
  | Raise (OSError _) | Raise (IOError _)
  | Raise (TypeError _) | Raise (AttributeError _) => True
  | _ => False
  end.

(** The entry [e] of the map has its file object in the store and sits
    under the identity of the inode that file object reads. *)
Definition keyed_entry {T Time : Type} (s : state T Time)
    (e : string * (nat * T)) : Prop :=
  (entry_file e < List.length (handles s))%nat
  /\ fst e = key_id (f_key (file_of s (entry_file e))).

(** Every entry of the map is filed under the identity of its inode. *)
Definition keyed {T Time : Type} (s : state T Time) : Prop :=
  forall e, In e (files_map s) -> keyed_entry s e.

(** From [s] to [s'] the environment and the file list are the same,
    the file objects have only moved forward, and every entry the map
    has gained is filed under the identity of its inode. *)
Definition grows {T Time : Type} (s s' : state T Time) : Prop :=
  fs s' = fs s
  /\ clock s' = clock s
  /\ filelist s' = filelist s
  /\ moves_forward s s'
  /\ forall e, In e (files_map s') -> In e (files_map s) \/ keyed_entry s' e.
(** ** Properties of [tail] *)

Lemma slice_from_last {A : Type} (w : Z) (l : list A) :
  1 <= w ->
  slice_from (- w) l
  = skipn (List.length l - Nat.min (Z.to_nat w) (List.length l)) l.
Proof.
  intros Hw. unfold slice_from, py_index.
  destruct (- w <? 0) eqn:E; [|apply Z.ltb_ge in E; lia].
  f_equal. lia.
Qed.

Lemma file_read_final (content : bytes) (m : Z) :
  0 <= m ->
  file_read content 0 m ++ skipn (Z.to_nat m) content = content.
Proof.
  intros Hm. unfold file_read. simpl.
  destruct (m <? 0) eqn:E; [apply Z.ltb_lt in E; lia|].
  apply firstn_skipn.
Qed.

Lemma file_read_block (content : bytes) (p n : Z) :
  0 <= p -> 0 <= n ->
  file_read content p n ++ skipn (Z.to_nat (p + n)) content
  = skipn (Z.to_nat p) content.
Proof.
  intros Hp Hn. unfold file_read.
  destruct (n <? 0) eqn:E; [apply Z.ltb_lt in E; lia|].
  replace (Z.to_nat (p + n)) with (Z.to_nat n + Z.to_nat p)%nat by lia.
  rewrite <- skipn_skipn. apply firstn_skipn.
Qed.

(** The scan from block [-k] on, entered with the last [1024 * (k - 1)]
    bytes in the buffer: with one unit of fuel per remaining block it
    stops, its buffer is a suffix of the file, and it is the whole file
    unless the buffer already holds [window] newlines. *)
Lemma tail_loop_stops (fuel : nat) :
  forall (content : bytes) (window k : Z) (data : bytes) (reads : list (Z * Z)),
    let fsize := Z.of_nat (List.length content) in
    (1 <= fuel)%nat -> 1 <= k ->
    BUFSIZ * (k - 1) <= fsize ->
    fsize <= BUFSIZ * (k - 1 + Z.of_nat fuel) ->
    data = skipn (Z.to_nat (fsize - BUFSIZ * (k - 1))) content ->
    exists sc,
      tail_loop fuel content window fsize (- k) data reads = Some sc
      /\ (exists j, 0 <= j <= fsize
                    /\ sc_data sc = skipn (Z.to_nat j) content
                    /\ (window <= count LF (sc_data sc) \/ j = 0))
      /\ (List.length (sc_reads sc) <= List.length reads + fuel)%nat.
Proof.
  induction fuel as [|fuel IH]; intros content window k data reads fsize Hf Hk Hlo Hhi Hd.
  - lia.
  - cbn [tail_loop]. unfold BUFSIZ in *.
    replace (Z.abs (- k * 1024)) with (1024 * k) by lia.
    destruct (1024 * k >=? fsize) eqn:Efin.
    + (* final step: the head of the file completes the buffer *)
      apply Z.geb_le in Efin.
      assert (Hall : file_read content 0 (1024 - (1024 * k - fsize)) ++ data = content).
      { subst data.
        replace (fsize - 1024 * (k - 1)) with (1024 - (1024 * k - fsize)) by lia.
        apply file_read_final. lia. }
      rewrite Hall.
      exists {| sc_data := content;
                sc_reads := reads ++ [(0, 1024 - (1024 * k - fsize))] |}.
      split; [destruct (count LF content >=? window); reflexivity|].
      split.
      * exists 0. cbn [sc_data]. repeat split; lia.
      * cbn [sc_reads]. rewrite length_app. cbn [List.length]. lia.
    + (* a full block before the bytes already read *)
      assert (Hlt : 1024 * k < fsize).
      { destruct (Z.geb_spec (1024 * k) fsize); [discriminate | lia]. }
      assert (Hblk : file_read content (fsize + - k * 1024) 1024 ++ data
                     = skipn (Z.to_nat (fsize - 1024 * k)) content).
      { subst data.
        replace (fsize - 1024 * (k - 1)) with ((fsize + - k * 1024) + 1024) by lia.
        replace (fsize - 1024 * k) with (fsize + - k * 1024) by lia.
        apply file_read_block; lia. }
      rewrite Hblk.
      destruct (count LF (skipn (Z.to_nat (fsize - 1024 * k)) content) >=? window) eqn:Ec.
      * apply Z.geb_le in Ec.
        eexists. split; [reflexivity|]. split.
        -- exists (fsize - 1024 * k). cbn [sc_data].
           split; [lia|]. split; [reflexivity|]. left. exact Ec.
        -- cbn [sc_reads]. rewrite length_app. cbn [List.length]. lia.
      * replace (- k - 1) with (- (k + 1)) by lia.
        destruct (IH content window (k + 1)
                     (skipn (Z.to_nat (fsize - 1024 * k)) content)
                     (reads ++ [(fsize + - k * 1024, 1024)]))
          as (sc & Hsc & Hj & Hlen); try (fold fsize; lia).
        { fold fsize. f_equal. lia. }
        exists sc. split; [exact Hsc|]. split; [exact Hj|].
        rewrite length_app in Hlen. cbn [List.length] in Hlen. lia.
Qed.

Lemma tail_scan_stops (content : bytes) (window : Z) :
  exists sc,
    tail_scan content window = Some sc
    /\ (exists j, 0 <= j <= Z.of_nat (List.length content)
                  /\ sc_data sc = skipn (Z.to_nat j) content
                  /\ (window <= count LF (sc_data sc) \/ j = 0))
    /\ Z.of_nat (List.length (sc_reads sc))
       <= Z.of_nat (List.length content) / BUFSIZ + 1.
Proof.
  unfold tail_scan, tail_fuel.
  set (fsize := Z.of_nat (List.length content)).
  assert (Hq : 0 <= fsize / BUFSIZ) by (apply Z.div_pos; unfold BUFSIZ; lia).
  assert (Hm : fsize < BUFSIZ * (fsize / BUFSIZ + 1)).
  { pose proof (Z.mod_pos_bound fsize BUFSIZ ltac:(unfold BUFSIZ; lia)).
    pose proof (Z.div_mod fsize BUFSIZ ltac:(unfold BUFSIZ; lia)). lia. }
  destruct (tail_loop_stops (S (Z.to_nat (fsize / BUFSIZ))) content window 1 [] [])
    as (sc & Hsc & Hj & Hlen); fold fsize; try (unfold BUFSIZ in *; lia).
  { replace (fsize - BUFSIZ * (1 - 1)) with fsize by lia.
    unfold fsize. rewrite Nat2Z.id, skipn_all. reflexivity. }
  exists sc. split; [exact Hsc|]. split; [exact Hj|].
  simpl in Hlen. lia.
Qed.

(** When the scan has read the whole file, [tail] agrees with the
    spec's reading of it. *)
Lemma tail_of_whole_file (fs0 : filesystem) (fname : string) (k : file_key)
    (window : Z) (reads : list (Z * Z)) :
  1 <= window ->
  os_open fs0 fname = Ok k ->
  tail_scan (i_data (fs_inode fs0 k)) window
  = Some {| sc_data := i_data (fs_inode fs0 k); sc_reads := reads |} ->
  tail fs0 fname window = Ok (spec_tail (i_data (fs_inode fs0 k)) window).
Proof.
  intros Hw Hopen Hscan. unfold tail.
  destruct (window <=? 0) eqn:E; [apply Z.leb_le in E; lia|].
  rewrite Hopen, Hscan. cbn [sc_data].
  unfold spec_tail. rewrite slice_from_last by exact Hw. reflexivity.
Qed.

(** A file of at most one block is read whole by the first step. *)
Lemma tail_scan_small_file (content : bytes) (window : Z) :
  Z.of_nat (List.length content) <= BUFSIZ ->
  tail_scan content window
  = Some {| sc_data := content;
            sc_reads := [(0, Z.of_nat (List.length content))] |}.
Proof.
  intros Hsmall. unfold tail_scan, tail_fuel. cbn [tail_loop].
  unfold BUFSIZ in *.
  replace (Z.abs (-1 * 1024)) with 1024 by lia.
  destruct (1024 >=? Z.of_nat (List.length content)) eqn:E.
  2:{ destruct (Z.geb_spec 1024 (Z.of_nat (List.length content))); [discriminate|lia]. }
  replace (1024 - (1024 - Z.of_nat (List.length content)))
    with (Z.of_nat (List.length content)) by lia.
  assert (Hrd : file_read content 0 (Z.of_nat (List.length content)) = content).
  { unfold file_read. simpl skipn.
    destruct (Z.of_nat (List.length content) <? 0) eqn:E'; [reflexivity|].
    rewrite Nat2Z.id. apply firstn_all. }
  rewrite Hrd, app_nil_r. cbn [app].
  destruct (count LF content >=? window); reflexivity.
Qed.

(** The first sub-case of the tail claim: a file smaller than one block. *)
Lemma tail_small_file (fs0 : filesystem) (fname : string) (k : file_key)
    (window : Z) :
  1 <= window ->
  os_open fs0 fname = Ok k ->
  Z.of_nat (List.length (i_data (fs_inode fs0 k))) <= BUFSIZ ->
  tail fs0 fname window = Ok (spec_tail (i_data (fs_inode fs0 k)) window).
Proof.
  intros Hw Hopen Hsmall.
  eapply tail_of_whole_file; eauto using tail_scan_small_file.
Qed.

(** The second sub-case: a window larger than the number of newlines. *)
Lemma tail_few_newlines (fs0 : filesystem) (fname : string) (k : file_key)
    (window : Z) :
  1 <= window ->
  os_open fs0 fname = Ok k ->
  count LF (i_data (fs_inode fs0 k)) < window ->
  tail fs0 fname window = Ok (spec_tail (i_data (fs_inode fs0 k)) window).
Proof.
  intros Hw Hopen Hfew.
  destruct (tail_scan_stops (i_data (fs_inode fs0 k)) window)
    as (sc & Hsc & (j & Hj & Hdata & Hstop) & _).
  destruct sc as [data reads]. cbn [sc_data] in *.
  assert (Hwhole : data = i_data (fs_inode fs0 k)).
  { destruct Hstop as [Hcount | ->]; [|exact Hdata].
    exfalso. subst data. unfold count in *.
    pose proof (firstn_skipn (Z.to_nat j) (i_data (fs_inode fs0 k))) as Hsplit.
    rewrite <- Hsplit, filter_app, length_app in Hfew. lia. }
  rewrite Hwhole in Hsc. eapply tail_of_whole_file; eauto.
Qed.

(** C1, at a file of two lines and 1027 bytes: the block read first
    starts inside the line [hello], it already holds two newlines, and
    [tail] returns the cut line [lo] where the last two lines of the file
    begin with [hello]. *)
Theorem tail_cuts_line_at_block_boundary :
  let content := line "hello" ++ repeat "z"%byte 1020 ++ [LF] in
  let fs0 := disk [("/f"%string, (1%N, 2%N), content)] in
  tail fs0 "/f" 2 = Ok [list_byte_of_string "lo"; repeat "z"%byte 1020]
  /\ spec_tail content 2 = [list_byte_of_string "hello"; repeat "z"%byte 1020]
  /\ tail fs0 "/f" 2 <> Ok (spec_tail content 2).
Proof.
  vm_compute. repeat split. discriminate.
Qed.

(** C7: a window that is zero or negative makes [tail] raise
    [ValueError] with the offending value in its message, whatever the
    file system holds under the name: the file is not opened, and no
    other window is used in its place. *)
Theorem tail_rejects_nonpositive_window (fs0 : filesystem) (fname : string)
    (window : Z) :
  window <= 0 ->
  tail fs0 fname window
  = Raise (ValueError ("invalid window value " ++ repr_int window)).
Proof.
  intros Hw. unfold tail.
  destruct (window <=? 0) eqn:E; [reflexivity|].
  apply Z.leb_gt in E. lia.
Qed.

Lemma tail_rejects_nonpositive_window_witness :
  tail (disk []) "/missing" 0 = Raise (ValueError "invalid window value 0").
Proof.
  apply (tail_rejects_nonpositive_window (disk []) "/missing" 0). lia.
Defined.

(** C10: for a file that can be opened and a window of at least 1 the
    backward scan stops, after at most one step per block of the file
    and one more, and [tail] returns a list of lines; on a file of zero
    bytes the scan makes one read, of zero bytes at offset 0, and [tail]
    returns the empty list. *)
Theorem tail_terminates (fs0 : filesystem) (fname : string) (k : file_key)
    (window : Z) :
  1 <= window ->
  os_open fs0 fname = Ok k ->
  let content := i_data (fs_inode fs0 k) in
  (exists sc,
      tail_scan content window = Some sc
      /\ Z.of_nat (List.length (sc_reads sc))
         <= Z.of_nat (List.length content) / BUFSIZ + 1
      /\ tail fs0 fname window
         = Ok (slice_from (- window) (splitlines (sc_data sc))))
  /\ (content = [] ->
      tail_scan content window = Some {| sc_data := []; sc_reads := [(0, 0)] |}
      /\ tail fs0 fname window = Ok []).
Proof.
  intros Hw Hopen content.
  assert (Hpos : (window <=? 0) = false) by (apply Z.leb_gt; lia).
  split.
  - destruct (tail_scan_stops content window) as (sc & Hsc & _ & Hlen).
    exists sc. split; [exact Hsc|]. split; [exact Hlen|].
    unfold tail. rewrite Hpos, Hopen. fold content. rewrite Hsc. reflexivity.
  - intros Hempty.
    assert (Hscan : tail_scan content window
                    = Some {| sc_data := []; sc_reads := [(0, 0)] |}).
    { rewrite Hempty. rewrite tail_scan_small_file; [reflexivity|].
      unfold BUFSIZ. simpl. lia. }
    split; [exact Hscan|].
    unfold tail. rewrite Hpos, Hopen. fold content. rewrite Hscan.
    unfold slice_from. cbn [sc_data splitlines splitlines_from].
    rewrite skipn_nil. reflexivity.
Qed.

Lemma tail_terminates_witness :
  (exists sc,
      tail_scan [] 3 = Some sc
      /\ Z.of_nat (List.length (sc_reads sc)) <= 0 / BUFSIZ + 1
      /\ tail (disk [("/empty"%string, (1%N, 1%N), [])]) "/empty" 3
         = Ok (slice_from (- 3) (splitlines (sc_data sc))))
  /\ (@nil byte = [] ->
      tail_scan [] 3 = Some {| sc_data := []; sc_reads := [(0, 0)] |}
      /\ tail (disk [("/empty"%string, (1%N, 1%N), [])]) "/empty" 3 = Ok []).
Proof.
  apply (tail_terminates (disk [("/empty"%string, (1%N, 1%N), [])])
                         "/empty" (1%N, 1%N) 3).
  - lia.
  - reflexivity.
Defined.

(** ** Template resolution *)

Lemma ascii_eqb_sym (a b : ascii) : Ascii.eqb a b = Ascii.eqb b a.
Proof.
  destruct (Ascii.eqb_spec a b) as [->|Hne].
  - symmetry. apply Ascii.eqb_refl.
  - symmetry. apply Ascii.eqb_neq. congruence.
Qed.

Lemma contains_app (c : ascii) (a b : list ascii) :
  contains c (a ++ b) = contains c a || contains c b.
Proof. unfold contains. apply existsb_app. Qed.

Lemma find_at_first (c : ascii) (p r : list ascii) :
  contains c p = false ->
  find c (p ++ c :: r) = Z.of_nat (List.length p).
Proof.
  induction p as [|x p IH]; intros Hfree; cbn [app find List.length].
  - rewrite Ascii.eqb_refl. reflexivity.
  - cbn [contains existsb] in Hfree. apply orb_false_elim in Hfree as [Hx Hp].
    rewrite ascii_eqb_sym, Hx, (IH Hp).
    destruct (Z.of_nat (List.length p) <? 0) eqn:E; [apply Z.ltb_lt in E|]; lia.
Qed.

Lemma slice_middle {A : Type} (a b c : list A) :
  slice (Z.of_nat (List.length a)) (Z.of_nat (List.length a + List.length b))
        (a ++ b ++ c) = b.
Proof.
  unfold slice, py_index. rewrite !length_app.
  destruct (Z.of_nat (List.length a) <? 0) eqn:Ea; [apply Z.ltb_lt in Ea; lia|].
  destruct (Z.of_nat (List.length a + List.length b) <? 0) eqn:Eb;
    [apply Z.ltb_lt in Eb; lia|].
  rewrite !Z.min_l by lia.
  replace (Z.to_nat (Z.of_nat (List.length a + List.length b)
                     - Z.of_nat (List.length a))) with (List.length b) by lia.
  rewrite Nat2Z.id, skipn_app, skipn_all, Nat.sub_diag. cbn [app skipn].
  rewrite firstn_app, firstn_all, Nat.sub_diag. cbn [firstn]. apply app_nil_r.
Qed.

(** The run of [.*] goes over a prefix that has no line feed. *)
Lemma any_star_over {G : Type} (p rest : list ascii)
    (k : list ascii -> option G) (g : G) :
  contains newline p = false ->
  any_star rest k = Some g ->
  any_star (p ++ rest) k = Some g.
Proof.
  induction p as [|x p IH]; intros Hfree Hrest; cbn [app any_star].
  - exact Hrest.
  - cbn [contains existsb] in Hfree. apply orb_false_elim in Hfree as [Hx Hp].
    rewrite ascii_eqb_sym, Hx, (IH Hp Hrest). reflexivity.
Qed.

(** What follows [.*] cannot start inside a text without its first
    character. *)
Lemma any_star_none {G : Type} (c : ascii) (t : list ascii)
    (k : list ascii -> option G) :
  contains c t = false ->
  (forall r, hd_error r <> Some c -> k r = None) ->
  any_star t k = None.
Proof.
  intros Hfree Hk. induction t as [|x t IH]; cbn [any_star].
  - apply Hk. discriminate.
  - cbn [contains existsb] in Hfree. apply orb_false_elim in Hfree as [Hx Ht].
    assert (Hhead : k (x :: t) = None).
    { apply Hk. cbn [hd_error]. intros [= ->].
      rewrite Ascii.eqb_refl in Hx. discriminate. }
    rewrite (IH Ht), Hhead. destruct (Ascii.eqb x newline); reflexivity.
Qed.

(** [.*] followed by the character [c]: the run ends at the last [c]
    of a text [p ++ c :: t] whose tail [t] has no [c]. *)
Lemma any_star_stops_at {G : Type} (c : ascii) (p t : list ascii)
    (k : list ascii -> option G) (g : G) :
  contains newline p = false ->
  contains c t = false ->
  (forall r, hd_error r <> Some c -> k r = None) ->
  k (c :: t) = Some g ->
  any_star (p ++ c :: t) k = Some g.
Proof.
  intros Hp Ht Hk Hg. apply any_star_over; [exact Hp|].
  cbn [any_star]. rewrite (any_star_none c t k Ht Hk), Hg.
  destruct (Ascii.eqb c newline); reflexivity.
Qed.

Lemma template_re_match (pre fmt post : list ascii) :
  contains newline pre = false ->
  contains newline fmt = false ->
  contains newline post = false ->
  contains "{" (fmt ++ "}"%char :: post) = false ->
  contains "}" post = false ->
  re_match template_re (pre ++ "{"%char :: fmt ++ "}"%char :: post)
  = Some [pre; post].
Proof.
  intros Hpre Hfmt Hpost Hopen Hclose.
  unfold re_match, template_re. cbn [re_run].
  rewrite Nat.eqb_refl.
  apply any_star_stops_at; [exact Hpre | exact Hopen | |].
  { intros [|x r] Hhd; [reflexivity|].
    destruct (Ascii.eqb_spec x "{"); [subst; now elim Hhd | reflexivity]. }
  cbn beta iota. rewrite Ascii.eqb_refl.
  apply any_star_stops_at; [exact Hfmt | exact Hclose | |].
  { intros [|x r] Hhd; [reflexivity|].
    destruct (Ascii.eqb_spec x "}"); [subst; now elim Hhd | reflexivity]. }
  cbn beta iota. rewrite Ascii.eqb_refl.
  rewrite <- (app_nil_r post) at 1.
  apply any_star_over; [exact Hpost|].
  cbn [any_star app List.length]. rewrite Nat.sub_0_r, firstn_all.
  rewrite length_app. cbn [List.length].
  replace (List.length pre
           + S (List.length (fmt ++ "}"%char :: post))
           - S (List.length (fmt ++ "}"%char :: post)))%nat
    with (List.length pre + 0)%nat by lia.
  rewrite firstn_app_2. cbn [firstn]. rewrite app_nil_r. reflexivity.
Qed.

Lemma string_of_list_ascii_app (a b : list ascii) :
  string_of_list_ascii (a ++ b)
  = (string_of_list_ascii a ++ string_of_list_ascii b)%string.
Proof.
  induction a as [|x a IH]; cbn; [reflexivity | now rewrite IH].
Qed.

Lemma list_ascii_of_string_app (a b : string) :
  list_ascii_of_string (a ++ b)
  = list_ascii_of_string a ++ list_ascii_of_string b.
Proof.
  induction a as [|x a IH]; cbn; [reflexivity | now rewrite IH].
Qed.

Section Resolve.
Context {T Time : Type}.
Variable strftime : string -> Time -> string.

Lemma resolve_name_keeps_state (name : string) (s : state T Time) :
  fst (resolve_name strftime name s) = s.
Proof.
  unfold resolve_name.
  destruct (contains "{" (list_ascii_of_string name)); [|reflexivity].
  destruct (re_match template_re (list_ascii_of_string name)); reflexivity.
Qed.

Lemma resolve_name_without_brace (name : string) (s : state T Time) :
  has_char "{" name = false ->
  resolve_name strftime name s = (s, Ok name).
Proof.
  intros Hfree. unfold resolve_name.
  unfold has_char in Hfree. rewrite Hfree. reflexivity.
Qed.

(** Where the resolution does what is asked of it: a name without an
    opening brace is returned as it is; a name [pre{fmt}post] whose three
    parts hold no brace and no line feed resolves to [pre], the time
    formatted by [fmt], and [post].  ([update_files] then hands the
    result to [os.path.realpath].) *)
Lemma resolve_name_one_placeholder (s : state T Time) :
  (forall name,
      has_char "{" name = false ->
      resolve_name strftime name s = (s, Ok name))
  /\ (forall pre fmt post,
         plain pre -> plain fmt -> plain post ->
         resolve_name strftime (pre ++ String "{" (fmt ++ String "}" post)) s
         = (s, Ok (pre ++ strftime fmt (clock s) ++ post)%string)).
Proof.
  split.
  - intros name Hfree. now apply resolve_name_without_brace.
  - intros pre fmt post (Hpre1 & Hpre2 & Hpre3) (Hfmt1 & Hfmt2 & Hfmt3)
           (Hpost1 & Hpost2 & Hpost3).
    unfold has_char in *. unfold resolve_name.
    rewrite list_ascii_of_string_app. cbn [list_ascii_of_string].
    rewrite list_ascii_of_string_app. cbn [list_ascii_of_string].
    set (p := list_ascii_of_string pre) in *.
    set (f := list_ascii_of_string fmt) in *.
    set (q := list_ascii_of_string post) in *.
    assert (Hhas : contains "{" (p ++ "{"%char :: f ++ "}"%char :: q) = true).
    { rewrite contains_app. cbn [contains existsb].
      rewrite Ascii.eqb_refl. cbn. apply orb_true_r. }
    rewrite Hhas.
    rewrite (template_re_match p f q) by
        (try assumption; rewrite ?contains_app; cbn [contains existsb];
         fold (contains "{" q); rewrite ?Hfmt1, ?Hpost1; reflexivity).
    cbn [nth].
    rewrite find_at_first by exact Hpre1.
    replace (p ++ "{"%char :: f ++ "}"%char :: q)
      with ((p ++ ["{"%char] ++ f) ++ "}"%char :: q)
      by (rewrite <- !app_assoc; reflexivity).
    rewrite find_at_first.
    2:{ rewrite !contains_app. cbn [contains existsb].
        fold (contains "}" f). rewrite Hpre2, Hfmt2. reflexivity. }
    replace ((p ++ ["{"%char] ++ f) ++ "}"%char :: q)
      with ((p ++ ["{"%char]) ++ f ++ "}"%char :: q)
      by (rewrite <- !app_assoc; reflexivity).
    replace (Z.of_nat (List.length p) + 1)
      with (Z.of_nat (List.length (p ++ ["{"%char])))
      by (rewrite length_app; cbn [List.length]; lia).
    replace (Z.of_nat (List.length (p ++ ["{"%char] ++ f)))
      with (Z.of_nat (List.length (p ++ ["{"%char]) + List.length f))
      by (rewrite !length_app; cbn [List.length]; lia).
    rewrite slice_middle.
    unfold p, f, q. rewrite !string_of_list_ascii_of_string. reflexivity.
Qed.

End Resolve.

Lemma resolve_name_one_placeholder_witness :
  resolve_name day_strftime "/var/log/messages"
               (boot (T := unit) (disk []) 42%nat)
  = (boot (disk []) 42%nat, Ok "/var/log/messages"%string)
  /\ resolve_name day_strftime "/var/log/app.{%j}.log"
                  (boot (T := unit) (disk []) 42%nat)
     = (boot (disk []) 42%nat, Ok "/var/log/app.42.log"%string).
Proof.
  split.
  - apply (proj1 (resolve_name_one_placeholder day_strftime
                    (boot (T := unit) (disk []) 42%nat))).
    reflexivity.
  - apply (proj2 (resolve_name_one_placeholder day_strftime
                    (boot (T := unit) (disk []) 42%nat))
                 "/var/log/app."%string "%j"%string ".log"%string);
      repeat split; reflexivity.
Defined.

(** C9: the code misses what the claim says at a name with a line feed.
    The name [a], line feed, [{%j}] has one placeholder and passes the
    guard of line 149, but the pattern of line 151, matched without
    [re.DOTALL], does not match it: [r] is [None] and [r.group(1)] raises
    [AttributeError], where the claim has the path [a], line feed, [42].
    With the line feed at the end of the name, after the placeholder,
    the pattern matches and its [$] leaves the line feed out: the text
    after the closing brace is not preserved. *)
Theorem resolve_name_line_feed_breaks :
  let name := String "a" (String newline "{%j}") in
  let name' := ("a{%j}" ++ String newline "")%string in
  let s := boot (T := unit) (disk []) 42%nat in
  has_char "{" name = true
  /\ re_match template_re (list_ascii_of_string name) = None
  /\ snd (resolve_name day_strftime name s)
     = Raise (AttributeError "'NoneType' object has no attribute 'group'")
  /\ snd (resolve_name day_strftime name s)
     <> Ok (String "a" (String newline "") ++ day_strftime "%j" 42%nat ++ "")%string
  /\ snd (resolve_name day_strftime name' s) = Ok "a42"%string
  /\ snd (resolve_name day_strftime name' s)
     <> Ok ("a" ++ day_strftime "%j" 42%nat ++ String newline "")%string.
Proof.
  repeat split; try reflexivity; discriminate.
Qed.

(** ** The store of file objects *)

Lemma nth_set_nth_same {A : Type} (n : nat) (x d : A) (l : list A) :
  (n < List.length l)%nat -> nth n (set_nth n x l) d = x.
Proof.
  revert n. induction l as [|y l IH]; intros [|n] Hn; cbn in *;
    try lia; [reflexivity | apply IH; lia].
Qed.

Lemma nth_set_nth_other {A : Type} (n m : nat) (x d : A) (l : list A) :
  n <> m -> nth m (set_nth n x l) d = nth m l d.
Proof.
  revert n m. induction l as [|y l IH]; intros [|n] [|m] Hne; cbn;
    try reflexivity; try congruence.
  apply IH. congruence.
Qed.

Lemma set_nth_twice {A : Type} (n : nat) (x y : A) (l : list A) :
  set_nth n x (set_nth n y l) = set_nth n x l.
Proof.
  revert n. induction l as [|z l IH]; intros [|n]; cbn; try reflexivity.
  now rewrite IH.
Qed.

Lemma length_set_nth {A : Type} (n : nat) (x : A) (l : list A) :
  List.length (set_nth n x l) = List.length l.
Proof.
  revert n. induction l as [|z l IH]; intros [|n]; cbn; try reflexivity.
  now rewrite IH.
Qed.

(** ** Lines of a binary file *)

Lemma lines_from_concat (cur data : bytes) :
  List.concat (lines_from cur data) = rev cur ++ data.
Proof.
  revert cur. induction data as [|c data IH]; intros cur; cbn [lines_from].
  - destruct cur as [|x cur]; cbn [List.concat]; rewrite ?app_nil_r; reflexivity.
  - destruct (Byte.eqb c LF).
    + cbn [List.concat]. rewrite IH. cbn [rev app].
      rewrite <- app_assoc. reflexivity.
    + rewrite IH. cbn [rev]. rewrite <- app_assoc. reflexivity.
Qed.

Lemma lines_from_nonempty (cur data : bytes) :
  Forall (fun l => l <> []) (lines_from cur data).
Proof.
  revert cur. induction data as [|c data IH]; intros cur; cbn [lines_from].
  - destruct cur as [|x cur]; constructor; [|constructor].
    cbn [rev]. intros H. apply app_eq_nil in H as [_ H]. discriminate.
  - destruct (Byte.eqb c LF); [constructor|]; try apply IH.
    cbn [rev]. intros H. apply app_eq_nil in H as [_ H]. discriminate.
Qed.

Lemma take_hint_prefix (hint : Z) (ls : list bytes) :
  exists rest, ls = take_hint hint ls ++ rest.
Proof.
  revert hint. induction ls as [|l ls IH]; intros hint; cbn [take_hint].
  - exists []. reflexivity.
  - destruct ((0 <? hint) && (hint - Z.of_nat (List.length l) <=? 0)).
    + exists ls. reflexivity.
    + destruct (IH (hint - Z.of_nat (List.length l))) as (rest & Hrest).
      exists rest. cbn [app]. congruence.
Qed.

Lemma take_hint_nil (hint : Z) (ls : list bytes) :
  take_hint hint ls = [] -> ls = [].
Proof. destruct ls; [reflexivity | discriminate]. Qed.

Lemma take_hint_incl (hint : Z) (ls : list bytes) (P : bytes -> Prop) :
  Forall P ls -> Forall P (take_hint hint ls).
Proof.
  intros H. destruct (take_hint_prefix hint ls) as (rest & Hrest).
  rewrite Hrest in H. apply Forall_app in H. tauto.
Qed.

(** What one [file.readlines] hands out is a prefix of the unread
    bytes, and it is empty only when nothing is unread. *)
Lemma readlines_chunk (hint : Z) (data : bytes) :
  let lines := take_hint hint (lines_from [] data) in
  (exists rest, data = List.concat lines ++ rest)
  /\ (lines = [] -> data = [])
  /\ (lines <> [] -> List.concat lines <> []).
Proof.
  cbn zeta.
  destruct (take_hint_prefix hint (lines_from [] data)) as (rest & Hrest).
  split; [|split].
  - exists (List.concat rest).
    rewrite <- concat_app, <- Hrest, lines_from_concat. reflexivity.
  - intros Hnil. apply take_hint_nil in Hnil.
    pose proof (lines_from_concat [] data) as H.
    rewrite Hnil in H. cbn in H. congruence.
  - intros Hne Hcat.
    pose proof (take_hint_incl hint _ _ (lines_from_nonempty [] data)) as Hall.
    destruct (take_hint hint (lines_from [] data)) as [|l ls]; [congruence|].
    inversion Hall as [|? ? Hl _]; subst.
    cbn [List.concat] in Hcat. apply app_eq_nil in Hcat as [Hl' _]. congruence.
Qed.

(** ** Reading a file object to its end *)

Section Reading.
Context {T Time : Type}.
Implicit Types (s : state T Time) (h : nat).

Lemma state_eq s s' :
  fs s = fs s' -> clock s = clock s' -> handles s = handles s' ->
  filelist s = filelist s' -> files_map s = files_map s' ->
  sizehint s = sizehint s' -> trace s = trace s' -> s = s'.
Proof.
  destruct s, s'; cbn; intros; subst; reflexivity.
Qed.

Lemma open_file_in_store s h :
  f_closed (file_of s h) = false -> (h < List.length (handles s))%nat.
Proof.
  unfold file_of. intros Hopen.
  destruct (Nat.lt_ge_cases h (List.length (handles s))) as [Hlt|Hge];
    [exact Hlt|].
  rewrite nth_overflow in Hopen by exact Hge. discriminate.
Qed.

Lemma file_of_set_same s h f :
  (h < List.length (handles s))%nat ->
  file_of (set_handles (set_nth h f (handles s)) s) h = f.
Proof. intros Hh. unfold file_of. cbn. now apply nth_set_nth_same. Qed.

Lemma file_of_set_other s h h' f :
  h <> h' ->
  file_of (set_handles (set_nth h f (handles s)) s) h' = file_of s h'.
Proof. intros Hh. unfold file_of. cbn. now apply nth_set_nth_other. Qed.

Lemma skipn_advance (data : bytes) (pos : Z) (n : nat) :
  0 <= pos ->
  skipn (Z.to_nat (pos + Z.of_nat n)) data = skipn n (skipn (Z.to_nat pos) data).
Proof.
  intros Hpos. rewrite skipn_skipn. f_equal. lia.
Qed.

Lemma with_pos_twice (f : pyfile) (a b : Z) :
  with_pos (with_pos f a) b = with_pos f b.
Proof. reflexivity. Qed.

(** The loop of [readlines] on an open file object: with more fuel than
    unread bytes it returns, having called the callback with batches
    that add up to the unread bytes, and it leaves the file at its end. *)
Lemma readlines_loop_reads (fuel : nat) :
  forall s h (_type : T),
    f_closed (file_of s h) = false ->
    0 <= f_pos (file_of s h) ->
    (List.length (unread s h) < fuel)%nat ->
    exists batches,
      readlines_loop fuel h _type s
      = (after_read s h (map (batch_event (f_name (file_of s h)) _type) batches),
         Ok tt)
      /\ List.concat (List.concat batches) = unread s h
      /\ Forall (fun b => b <> []) batches.
Proof.
  induction fuel as [|fuel IH]; intros s h _type Hopen Hpos Hfuel; [lia|].
  pose proof (open_file_in_store s h Hopen) as Hin.
  cbn [readlines_loop]. unfold file_readlines. rewrite Hopen.
  destruct (readlines_chunk (sizehint s) (unread s h))
    as ((rest & Hrest) & Hnil & Hcons).
  cbn zeta in Hnil, Hcons.
  destruct (take_hint (sizehint s) (lines_from [] (unread s h)))
    as [|l ls] eqn:Elines.
  - exists []. rewrite (Hnil eq_refl). split; [|split; [reflexivity|constructor]].
    f_equal. apply state_eq; cbn; try reflexivity.
    + rewrite (Hnil eq_refl). reflexivity.
    + now rewrite app_nil_r.
  - set (n := List.length (List.concat (l :: ls))) in *.
    set (s1 := set_handles
                 (set_nth h (with_pos (file_of s h)
                                      (f_pos (file_of s h) + Z.of_nat n))
                          (handles s)) s).
    assert (Hf1 : file_of s1 h
                  = with_pos (file_of s h) (f_pos (file_of s h) + Z.of_nat n))
      by (apply file_of_set_same; exact Hin).
    rewrite Hf1. cbn [f_name with_pos].
    unfold callback, emit.
    match goal with
    | |- context [readlines_loop fuel h _type ?st] => set (s2 := st)
    end.
    assert (Hf2 : file_of s2 h
                  = with_pos (file_of s h) (f_pos (file_of s h) + Z.of_nat n))
      by exact Hf1.
    assert (Hun : unread s2 h = rest).
    { unfold unread. rewrite Hf2. cbn [f_pos f_key with_pos].
      change (fs s2) with (fs s).
      rewrite skipn_advance by exact Hpos.
      fold (unread s h). rewrite Hrest. unfold n.
      rewrite skipn_app, skipn_all, Nat.sub_diag. reflexivity. }
    assert (Hn : (0 < n)%nat).
    { destruct (Nat.eq_dec n 0) as [Hz|Hz]; [|lia].
      exfalso. apply Hcons; [discriminate|].
      apply length_zero_iff_nil. exact Hz. }
    destruct (IH s2 h _type) as (batches & Hrun & Hcat & Hne).
    + rewrite Hf2. exact Hopen.
    + rewrite Hf2. cbn [f_pos with_pos]. lia.
    + rewrite Hun. rewrite Hrest, length_app in Hfuel. fold n in Hfuel. lia.
    + exists ((l :: ls) :: batches). split; [|split].
      * rewrite Hrun. f_equal. rewrite Hf2. cbn [f_name with_pos].
        apply state_eq; cbn; try reflexivity.
        -- fold (file_of s h). rewrite set_nth_twice. f_equal.
           change (nth h (set_nth h _ (handles s)) no_file) with (file_of s2 h).
           rewrite Hf2, with_pos_twice. cbn [f_pos with_pos]. f_equal.
           rewrite Hun. rewrite Hrest, length_app. fold n. lia.
        -- rewrite <- app_assoc. reflexivity.
      * cbn [List.concat]. rewrite concat_app, Hcat, Hun. symmetry. exact Hrest.
      * constructor; [discriminate | exact Hne].
Qed.

(** [readlines] on an open file object. *)
Lemma readlines_reads s h (_type : T) :
  f_closed (file_of s h) = false ->
  0 <= f_pos (file_of s h) ->
  exists batches,
    readlines h _type s
    = (after_read s h (map (batch_event (f_name (file_of s h)) _type) batches),
       Ok None)
    /\ List.concat (List.concat batches) = unread s h
    /\ Forall (fun b => b <> []) batches.
Proof.
  intros Hopen Hpos. unfold readlines.
  destruct (readlines_loop_reads (S (List.length (unread s h))) s h _type
              Hopen Hpos (Nat.lt_succ_diag_r _)) as (batches & Hrun & Hrest).
  exists batches. rewrite Hrun. split; [reflexivity | exact Hrest].
Qed.

Lemma delivered_app (name : string) (a b : list (event T)) :
  delivered name (a ++ b) = delivered name a ++ delivered name b.
Proof. unfold delivered. apply flat_map_app. Qed.

Lemma delivered_batches (name n : string) (_type : T)
    (batches : list (list bytes)) :
  delivered name (map (batch_event n _type) batches)
  = if String.eqb n name then List.concat (List.concat batches) else [].
Proof.
  unfold delivered.
  induction batches as [|b batches IH]; cbn [map flat_map].
  - destruct (String.eqb n name); reflexivity.
  - rewrite IH. cbn [batch_event event_bytes].
    destruct (String.eqb n name); cbn [List.concat].
    + rewrite concat_app. reflexivity.
    + reflexivity.
Qed.

Lemma file_of_after_read_same s h evs :
  f_closed (file_of s h) = false ->
  file_of (after_read s h evs) h
  = with_pos (file_of s h)
             (f_pos (file_of s h) + Z.of_nat (List.length (unread s h))).
Proof.
  intros Hopen. unfold file_of at 1. cbn.
  apply nth_set_nth_same. now apply open_file_in_store.
Qed.

Lemma file_of_after_read_other s h h' evs :
  h <> h' -> file_of (after_read s h evs) h' = file_of s h'.
Proof.
  intros Hne. unfold file_of at 1. cbn. now apply nth_set_nth_other.
Qed.

Lemma unread_after_read s h evs :
  f_closed (file_of s h) = false ->
  0 <= f_pos (file_of s h) ->
  unread (after_read s h evs) h = [].
Proof.
  intros Hopen Hpos. unfold unread at 1.
  rewrite file_of_after_read_same by exact Hopen.
  cbn [f_pos f_key with_pos]. change (fs (after_read s h evs)) with (fs s).
  rewrite skipn_advance by exact Hpos. fold (unread s h).
  apply skipn_all.
Qed.

End Reading.

(** ** [unwatch] *)

Section Unwatch.
Context {T Time : Type}.
Implicit Types (s : state T Time) (h : nat).

(** [unwatch] of an entry of the map with an open file object: the log
    line, the batches that add up to the unread bytes, then the close. *)
Lemma unwatch_flushes s h fid (_type : T) :
  dict_get fid (files_map s) = Some (h, _type) ->
  f_closed (file_of s h) = false ->
  0 <= f_pos (file_of s h) ->
  exists batches,
    unwatch h fid s
    = (after_unwatch s h fid
         (map (batch_event (f_name (file_of s h)) _type) batches), Ok tt)
    /\ List.concat (List.concat batches) = unread s h
    /\ Forall (fun b => b <> []) batches.
Proof.
  intros Hget Hopen Hpos.
  unfold unwatch, bind, log, emit, with_file.
  match goal with
  | |- context [f_closed (file_of ?st h)] =>
      set (s0 := st); change (file_of s0 h) with (file_of s h)
  end.
  rewrite Hopen.
  unfold files_map_item. change (files_map s0) with (files_map s).
  rewrite Hget. cbn [snd].
  destruct (readlines_reads s0 h _type) as (batches & Hrun & Hcat & Hne);
    [exact Hopen | exact Hpos |].
  change (file_of s0 h) with (file_of s h) in Hrun.
  change (unread s0 h) with (unread s h) in Hcat.
  rewrite Hrun. unfold files_map_del.
  change (files_map (after_read s0 h _)) with (files_map s).
  rewrite Hget. unfold ret, file_close, emit.
  exists batches. split; [|split; [exact Hcat | exact Hne]].
  cbn [fst]. f_equal. apply state_eq; cbn; try reflexivity.
  - fold (file_of s h). rewrite set_nth_twice. f_equal.
    rewrite nth_set_nth_same by (now apply open_file_in_store).
    reflexivity.
  - rewrite <- !app_assoc. reflexivity.
Qed.

End Unwatch.

(** ** [watch] and the scan of the file list *)

Section Watch.
Context {T Time : Type}.
Variable strftime : string -> Time -> string.
Variable realpath : string -> string.
Implicit Types (s : state T Time) (h : nat).

Lemma os_stat_found (fs0 : filesystem) (path : string) (k : file_key) :
  fs_lookup fs0 path = inr k ->
  exists st,
    os_stat fs0 path = Ok st
    /\ get_file_id st = key_id k
    /\ st_isreg st = match i_kind (fs_inode fs0 k) with
                     | Regular => true
                     | _ => false
                     end
    /\ st_size st = Z.of_nat (List.length (i_data (fs_inode fs0 k))).
Proof.
  intros Hk. unfold os_stat. rewrite Hk. eexists. split; [reflexivity|].
  repeat split.
Qed.

Lemma os_stat_missing (fs0 : filesystem) (path : string) (e : errno) :
  fs_lookup fs0 path = inl e -> os_stat fs0 path = Raise (OSError e).
Proof. intros He. unfold os_stat. now rewrite He. Qed.

Lemma os_open_missing (fs0 : filesystem) (path : string) (e : errno) :
  fs_lookup fs0 path = inl e -> os_open fs0 path = Raise (IOError e).
Proof. intros He. unfold os_open. now rewrite He. Qed.

Lemma os_open_found (fs0 : filesystem) (path : string) (k : file_key) :
  fs_lookup fs0 path = inr k ->
  i_readable (fs_inode fs0 k) = true ->
  i_kind (fs_inode fs0 k) <> Directory ->
  os_open fs0 path = Ok k.
Proof.
  intros Hk Hr Hd. unfold os_open. rewrite Hk, Hr. cbn.
  destruct (i_kind (fs_inode fs0 k)); congruence.
Qed.

(** [watch] of a path that can be opened. *)
Lemma watch_opens s fname (k : file_key) (_type : T) :
  fs_lookup (fs s) fname = inr k ->
  os_open (fs s) fname = Ok k ->
  watch fname _type s = (after_watch s fname k _type, Ok tt).
Proof.
  intros Hk Hopen. unfold watch, bind, open, stat, ret. rewrite Hopen.
  cbn [fs set_handles].
  destruct (os_stat_found (fs s) fname k Hk) as (st & Hst & Hid & _).
  rewrite Hst, Hid. unfold log, emit. cbn.
  f_equal.
Qed.

(** [watch] of a path whose [open] fails. *)
Lemma watch_open_fails s fname (e : errno) (_type : T) :
  os_open (fs s) fname = Raise (IOError e) ->
  watch fname _type s
  = (s, if errno_eqb e ENOENT then Ok tt else Raise (IOError e)).
Proof.
  intros Hopen. unfold watch, bind, open. rewrite Hopen.
  destruct (errno_eqb e ENOENT); reflexivity.
Qed.

Lemma errno_eqb_eq (a b : errno) : errno_eqb a b = true <-> a = b.
Proof. destruct a, b; cbn; split; congruence. Qed.

Lemma errno_eqb_neq (a b : errno) : a <> b -> errno_eqb a b = false.
Proof.
  intros Hne. destruct (errno_eqb a b) eqn:E; [|reflexivity].
  apply errno_eqb_eq in E. contradiction.
Qed.

(** One entry of the file list whose path [os.stat] does not find. *)
Lemma scan_filelist_stat_fails s name (_type : T) p (e : errno) rest ls :
  resolve_name strftime name s = (s, Ok p) ->
  fs_lookup (fs s) (realpath p) = inl e ->
  scan_filelist strftime realpath ((name, _type) :: rest) ls s
  = if errno_eqb e ENOENT
    then scan_filelist strftime realpath rest ls s
    else (s, Raise (OSError e)).
Proof.
  intros Hres Hmiss. cbn [scan_filelist]. unfold bind. rewrite Hres.
  unfold stat. rewrite (os_stat_missing _ _ _ Hmiss).
  destruct (errno_eqb e ENOENT); reflexivity.
Qed.

(** One entry of the file list whose path exists. *)
Lemma scan_filelist_found s name (_type : T) p (k : file_key) rest ls :
  resolve_name strftime name s = (s, Ok p) ->
  fs_lookup (fs s) (realpath p) = inr k ->
  scan_filelist strftime realpath ((name, _type) :: rest) ls s
  = match i_kind (fs_inode (fs s) k) with
    | Regular =>
        scan_filelist strftime realpath rest
                      (ls ++ [(key_id k, realpath p, _type)]) s
    | _ => scan_filelist strftime realpath rest ls s
    end.
Proof.
  intros Hres Hk. cbn [scan_filelist]. unfold bind. rewrite Hres.
  unfold stat.
  destruct (os_stat_found (fs s) (realpath p) k Hk) as (st & Hst & Hid & Hreg & _).
  rewrite Hst, Hreg, Hid.
  destruct (i_kind (fs_inode (fs s) k)); reflexivity.
Qed.

End Watch.

(** ** A file replaced under its name *)

Section Rotation.
Context {T Time : Type}.
Variable strftime : string -> Time -> string.
Variable realpath : string -> string.
Implicit Types (s : state T Time) (h : nat).

(** The turn that finds the file replaced: the old file object is read
    to its end and closed, its entry leaves the map, and the call
    [self.watch(file.name)] of line 179 raises. *)
Lemma update_files_on_replaced s name (_type : T) h fid k' :
  replaced_under_name realpath s name _type h fid k' ->
  exists batches,
    update_files strftime realpath s
    = (after_unwatch s h fid
         (map (batch_event (realpath name) _type) batches),
       Raise watch_arity_error)
    /\ List.concat (List.concat batches) = unread s h.
Proof.
  intros (Hlist & Hplain & Hmap & Hopen & Hpos & Hname & Hk & Hid & Hreg & Hread).
  destruct (unwatch_flushes s h fid _type) as (batches & Hun & Hcat & _);
    [rewrite Hmap; cbn; now rewrite String.eqb_refl | exact Hopen | exact Hpos |].
  exists batches. split; [|exact Hcat].
  unfold update_files, bind at 1. rewrite Hlist.
  rewrite (scan_filelist_found strftime realpath s name _type name k' [] []);
    [| apply resolve_name_without_brace; exact Hplain
     | exact Hk].
  rewrite Hreg. cbn [scan_filelist ret app].
  unfold bind at 1. rewrite Hmap. cbn [check_existent].
  unfold bind at 1. unfold stat. rewrite Hname.
  destruct (os_stat_found (fs s) (realpath name) k' Hk) as (st & Hst & Hst_id & _).
  rewrite Hst, Hst_id.
  assert (Hneq : String.eqb fid (key_id k') = false)
    by (apply String.eqb_neq; congruence).
  rewrite Hneq. cbn [negb]. unfold bind at 1. rewrite Hun, Hname.
  reflexivity.
Qed.

(** The turn after it: the new file is watched from its first byte and
    read to its end. *)
Lemma cycle_after_replaced s name (_type : T) h fid k' evs :
  replaced_under_name realpath s name _type h fid k' ->
  let s1 := after_unwatch s h fid evs in
  exists batches,
    cycle strftime realpath s1
    = (after_read (after_watch s1 (realpath name) k' _type)
                  (List.length (handles s))
                  (map (batch_event (realpath name) _type) batches),
       Ok tt)
    /\ List.concat (List.concat batches) = i_data (fs_inode (fs s) k').
Proof.
  intros (Hlist & Hplain & Hmap & Hopen & Hpos & Hname & Hk & Hid & Hreg & Hread) s1.
  assert (Hmap1 : files_map s1 = []).
  { unfold s1. cbn. rewrite Hmap. cbn. now rewrite String.eqb_refl. }
  assert (Hlen : List.length (handles s1) = List.length (handles s)).
  { unfold s1. cbn. apply length_set_nth. }
  set (s2 := after_watch s1 (realpath name) k' _type).
  assert (Hf2 : file_of s2 (List.length (handles s))
                = fresh_file (realpath name) k').
  { unfold file_of, s2. cbn [handles after_watch].
    rewrite <- Hlen, nth_middle. reflexivity. }
  destruct (readlines_reads s2 (List.length (handles s)) _type)
    as (batches & Hrun & Hcat & _).
  { rewrite Hf2. reflexivity. }
  { rewrite Hf2. cbn. lia. }
  exists batches. split.
  - unfold cycle, bind at 1, update_files, bind at 1.
    change (filelist s1) with (filelist s). rewrite Hlist.
    rewrite (scan_filelist_found strftime realpath s1 name _type name k' [] []);
      [| apply resolve_name_without_brace; exact Hplain
       | exact Hk].
    change (fs s1) with (fs s). rewrite Hreg. cbn [scan_filelist ret app].
    unfold bind at 1. rewrite Hmap1. cbn [check_existent ret add_new].
    unfold bind at 1. rewrite Hmap1. cbn [dict_mem dict_get negb call_watch].
    rewrite (watch_opens s1 (realpath name) k' _type Hk)
      by (apply os_open_found; [exact Hk | exact Hread | change (fs s1) with (fs s); congruence]).
    fold s2. cbn [ret].
    assert (Hmap2 : files_map s2
                    = [(key_id k', (List.length (handles s), _type))]).
    { unfold s2. cbn [files_map after_watch]. rewrite Hmap1, Hlen. reflexivity. }
    rewrite Hmap2. cbn [read_all]. unfold bind at 1.
    rewrite Hrun, Hf2. reflexivity.
  - rewrite Hcat. unfold unread. rewrite Hf2. reflexivity.
Qed.

End Rotation.

(** ** The claims on [unwatch], rotation and errors *)

Section Claims.
Context {T Time : Type}.
Variable strftime : string -> Time -> string.
Variable realpath : string -> string.
Implicit Types (s : state T Time) (h : nat).


(** C3, as the code behaves: when the path of the one watched file
    leads to another regular file, [update_files] unwatches the old
    file object and then raises [TypeError] at [self.watch(file.name)];
    the turn does not complete, the map is left empty, and the new
    identity is not in it. *)
Theorem rotation_rewatch_raises s entry (_type : T) h fid k' :
  replaced_under_name realpath s entry _type h fid k' ->
  exists s1,
    update_files strftime realpath s = (s1, Raise watch_arity_error)
    /\ cycle strftime realpath s = (s1, Raise watch_arity_error)
    /\ files_map s1 = []
    /\ dict_mem (key_id k') (files_map s1) = false
    /\ f_closed (file_of s1 h) = true.
Proof.
  intros Hrep.
  destruct (update_files_on_replaced strftime realpath s entry _type h fid k' Hrep)
    as (batches & Hup & _).
  destruct Hrep as (_ & _ & Hmap & Hopen & _).
  eexists. split; [exact Hup|].
  split; [unfold cycle, bind; rewrite Hup; reflexivity|].
  assert (Hempty : dict_del fid (files_map s) = (@nil (string * (nat * T)))).
  { rewrite Hmap. cbn. now rewrite String.eqb_refl. }
  split; [exact Hempty|].
  split; [cbn [files_map after_unwatch]; rewrite Hempty; reflexivity|].
  unfold file_of. cbn.
  rewrite nth_set_nth_same by (now apply open_file_in_store). reflexivity.
Qed.

(** C8: in [watch], a path that is not found leaves the state as it
    was and raises nothing, and any other failure of [open] is raised
    as it is, the state unchanged; in the scan of the file list, an
    entry whose path is not found is skipped, and any other failure of
    [os.stat] is raised as it is, by the scan and so by [update_files]. *)
Theorem not_found_is_swallowed s :
  (forall fname (_type : T),
      fs_lookup (fs s) fname = inl ENOENT ->
      watch fname _type s = (s, Ok tt))
  /\ (forall fname (_type : T) e,
         os_open (fs s) fname = Raise (IOError e) ->
         e <> ENOENT ->
         watch fname _type s = (s, Raise (IOError e)))
  /\ (forall name (_type : T) p rest ls,
         resolve_name strftime name s = (s, Ok p) ->
         fs_lookup (fs s) (realpath p) = inl ENOENT ->
         scan_filelist strftime realpath ((name, _type) :: rest) ls s
         = scan_filelist strftime realpath rest ls s)
  /\ (forall name (_type : T) p e rest ls,
         resolve_name strftime name s = (s, Ok p) ->
         fs_lookup (fs s) (realpath p) = inl e ->
         e <> ENOENT ->
         scan_filelist strftime realpath ((name, _type) :: rest) ls s
         = (s, Raise (OSError e)))
  /\ (forall name (_type : T) p e rest,
         filelist s = (name, _type) :: rest ->
         resolve_name strftime name s = (s, Ok p) ->
         fs_lookup (fs s) (realpath p) = inl e ->
         e <> ENOENT ->
         update_files strftime realpath s = (s, Raise (OSError e)))
  /\ (forall name (_type : T) p,
         filelist s = [(name, _type)] ->
         files_map s = [] ->
         resolve_name strftime name s = (s, Ok p) ->
         fs_lookup (fs s) (realpath p) = inl ENOENT ->
         update_files strftime realpath s = (s, Ok tt)).
Proof.
  repeat split.
  - intros fname _type Hmiss.
    rewrite (watch_open_fails s fname ENOENT) by (now apply os_open_missing).
    reflexivity.
  - intros fname _type e Hopen Hne.
    rewrite (watch_open_fails s fname e) by exact Hopen.
    rewrite errno_eqb_neq by exact Hne. reflexivity.
  - intros name _type p rest ls Hres Hmiss.
    rewrite (scan_filelist_stat_fails strftime realpath s name _type p ENOENT)
      by assumption.
    reflexivity.
  - intros name _type p e rest ls Hres Hmiss Hne.
    rewrite (scan_filelist_stat_fails strftime realpath s name _type p e)
      by assumption.
    rewrite errno_eqb_neq by exact Hne. reflexivity.
  - intros name _type p e rest Hlist Hres Hmiss Hne.
    unfold update_files, bind. rewrite Hlist.
    rewrite (scan_filelist_stat_fails strftime realpath s name _type p e)
      by assumption.
    rewrite errno_eqb_neq by exact Hne. reflexivity.
  - intros name _type p Hlist Hmap Hres Hmiss.
    unfold update_files, bind. rewrite Hlist.
    rewrite (scan_filelist_stat_fails strftime realpath s name _type p ENOENT)
      by assumption.
    cbn. rewrite Hmap. reflexivity.
Qed.

End Claims.


Lemma rotation_rewatch_raises_witness :
  exists s1,
    update_files day_strftime same_path woke_rotated
    = (s1, Raise watch_arity_error)
    /\ cycle day_strftime same_path woke_rotated
       = (s1, Raise watch_arity_error)
    /\ files_map s1 = []
    /\ dict_mem (key_id (1%N, 3%N)) (files_map s1) = false
    /\ f_closed (file_of s1 0) = true.
Proof.
  apply (rotation_rewatch_raises day_strftime same_path woke_rotated
                                 "/log" tt 0 "1g2" (1%N, 3%N)).
  repeat split; try reflexivity; vm_compute; discriminate.
Defined.

Lemma not_found_is_swallowed_witness :
  watch "/missing" tt started = (started, Ok tt)
  /\ watch "/log" tt (fst (sleep (unreadable_disk, 1%nat) started))
     = (fst (sleep (unreadable_disk, 1%nat) started),
        Raise (IOError EACCES))
  /\ update_files day_strftime same_path
                  (fst (sleep (forbidden_disk, 1%nat) started))
     = (fst (sleep (forbidden_disk, 1%nat) started), Raise (OSError EACCES)).
Proof.
  split; [|split].
  - apply (proj1 (not_found_is_swallowed day_strftime same_path started)).
    reflexivity.
  - apply (proj1 (proj2 (not_found_is_swallowed
                           day_strftime same_path
                           (fst (sleep (unreadable_disk, 1%nat) started)))));
      [reflexivity | discriminate].
  - apply (proj1 (proj2 (proj2 (proj2 (proj2
             (not_found_is_swallowed
                day_strftime same_path
                (fst (sleep (forbidden_disk, 1%nat) started)))))))
             "/log"%string tt "/log"%string EACCES []);
      [reflexivity | reflexivity | reflexivity | discriminate].
Defined.

(** C4, at the constructor with [tail_lines = 1] on a log file of one
    line: the line is handed to the callback in a call of two arguments,
    the name and the lines, without the metadata; the batch a later turn
    reads is handed over with three. *)
Theorem startup_tail_calls_with_two_arguments :
  snd started_with_tail = Ok tt
  /\ trace (fst started_with_tail)
     = [Ev_log "watching logfile /log";
        Ev_callback [Astr "/log"; Alines [list_byte_of_string "a"]]]
  /\ callback_arities (trace (fst started_with_tail)) = [2%nat]
  /\ callback_arities
       (trace (fst (cycle day_strftime same_path
                      (fst (sleep (grown_disk, 1%nat)
                                  (fst started_with_tail))))))
     = [2%nat; 3%nat].
Proof.
  vm_compute. repeat split.
Qed.

(** ** The cursor of a new file object *)

Section Startup.
Context {T Time : Type}.
Variable strftime : string -> Time -> string.
Variable realpath : string -> string.
Implicit Types (s : state T Time) (h : nat).

Lemma dict_get_set_same {V : Type} (k : string) (v : V) (d : list (string * V)) :
  dict_get k (dict_set k v d) = Some v.
Proof.
  induction d as [|[k' v'] d IH]; cbn.
  - now rewrite String.eqb_refl.
  - destruct (String.eqb k k') eqn:E; cbn; rewrite E; [reflexivity | exact IH].
Qed.

Lemma in_dict_set {V : Type} (k a : string) (v b : V) (d : list (string * V)) :
  In (a, b) (dict_set k v d) -> b = v \/ In (a, b) d.
Proof.
  induction d as [|[k' v'] d IH]; cbn.
  - intros [[= <- <-]|[]]. now left.
  - destruct (String.eqb k k'); cbn.
    + intros [[= <- <-]|Hin]; [now left | right; now right].
    + intros [Heq|Hin]; [right; now left|].
      destruct (IH Hin) as [?|?]; [now left | right; now right].
Qed.

Lemma os_open_cases (fs0 : filesystem) (path : string) :
  (exists k, os_open fs0 path = Ok k /\ fs_lookup fs0 path = inr k)
  \/ (exists e, os_open fs0 path = Raise (IOError e)).
Proof.
  unfold os_open. destruct (fs_lookup fs0 path) as [e|k]; [right; eauto|].
  destruct (i_readable (fs_inode fs0 k)); cbn; [|right; eauto].
  destruct (i_kind (fs_inode fs0 k)); eauto.
Qed.

Lemma watch_keeps_in_place s fname (_type : T) :
  map_in_place s ->
  map_in_place (fst (watch fname _type s))
  /\ fs (fst (watch fname _type s)) = fs s.
Proof.
  intros Hinv.
  destruct (os_open_cases (fs s) fname) as [(k & Hopen & Hk)|(e & Hopen)].
  - rewrite (watch_opens s fname k _type Hk Hopen). cbn [fst].
    split; [|reflexivity].
    intros fid h ty Hin. cbn [files_map after_watch] in Hin.
    apply in_dict_set in Hin as [[= -> ->]|Hin].
    + unfold file_of. cbn [handles after_watch]. rewrite nth_middle.
      cbn. split; [reflexivity | exact Hk].
    + destruct (Hinv fid h ty Hin) as (Hc & Hl).
      pose proof (open_file_in_store s h Hc) as Hlt.
      unfold file_of in *. cbn [handles after_watch fs].
      rewrite app_nth1 by exact Hlt. split; assumption.
  - rewrite (watch_open_fails s fname e _type Hopen). cbn [fst].
    split; [exact Hinv | reflexivity].
Qed.

Lemma add_new_keeps_in_place (ls : list (string * string * T)) :
  forall s,
    map_in_place s ->
    map_in_place (fst (add_new ls s)) /\ fs (fst (add_new ls s)) = fs s.
Proof.
  induction ls as [|[[fid fname] ty] ls IH]; intros s Hinv; cbn [add_new].
  - split; [exact Hinv | reflexivity].
  - unfold bind.
    destruct (negb (dict_mem fid (files_map s))).
    + cbn [call_watch].
      destruct (watch_keeps_in_place s fname ty Hinv) as (Hinv' & Hfs).
      destruct (watch fname ty s) as [s1 [[]|e|]]; cbn beta iota; cbn [fst] in *;
        try (split; assumption).
      destruct (IH s1 Hinv') as (Hinv2 & Hfs2). split; [exact Hinv2 | congruence].
    + apply IH. exact Hinv.
Qed.

Lemma scan_filelist_keeps_state (entries : list (string * T)) :
  forall ls s, fst (scan_filelist strftime realpath entries ls s) = s.
Proof.
  induction entries as [|[name ty] entries IH]; intros ls s; cbn [scan_filelist].
  - reflexivity.
  - unfold bind.
    pose proof (resolve_name_keeps_state strftime name s) as Hres.
    destruct (resolve_name strftime name s) as [s' [p|e|]]; cbn [fst] in Hres;
      subst s'; try reflexivity.
    unfold stat.
    destruct (os_stat (fs s) (realpath p)) as [st|[| e | e | | |]|];
      try reflexivity.
    + destruct (negb (st_isreg st)); apply IH.
    + destruct (negb (errno_eqb e ENOENT)); [reflexivity | apply IH].
    + destruct (negb (errno_eqb e ENOENT)); [reflexivity | apply IH].
Qed.

(** [update_files] of a watcher that watches nothing yet. *)
Lemma first_update_in_place s :
  files_map s = [] ->
  map_in_place (fst (update_files strftime realpath s))
  /\ fs (fst (update_files strftime realpath s)) = fs s.
Proof.
  intros Hempty. unfold update_files, bind.
  pose proof (scan_filelist_keeps_state (filelist s) [] s) as Hscan.
  destruct (scan_filelist strftime realpath (filelist s) [] s) as [s' [ls|e|]];
    cbn [fst] in Hscan; subst s'; cbn [fst].
  - rewrite Hempty. cbn [check_existent ret].
    apply add_new_keeps_in_place.
    intros fid h ty Hin. rewrite Hempty in Hin. destruct Hin.
  - split; [|reflexivity]. intros fid h ty Hin. rewrite Hempty in Hin. destruct Hin.
  - split; [|reflexivity]. intros fid h ty Hin. rewrite Hempty in Hin. destruct Hin.
Qed.

Lemma startup_tail_frame name (tail_lines : Z) s :
  forall s' r,
    startup_tail name tail_lines s = (s', r) ->
    fs s' = fs s /\ handles s' = handles s /\ files_map s' = files_map s.
Proof.
  intros s' r. unfold startup_tail, callback, emit.
  destruct (tail (fs s) name tail_lines) as [[|l ls]|[| e | | | |]|];
    try (intros [= <- <-]; repeat split).
  destruct (negb (errno_eqb e ENOENT)); intros [= <- <-]; repeat split.
Qed.

(** The loop of the constructor, when it returns, has moved every file
    object it went over to the end of its file, and no other. *)
Lemma init_files_seeks (tail_lines : Z) (items : list (string * (nat * T))) :
  forall s s',
    (forall fid h ty, In (fid, (h, ty)) items ->
                      f_closed (file_of s h) = false
                      /\ fs_lookup (fs s) (f_name (file_of s h))
                         = inr (f_key (file_of s h))) ->
    init_files tail_lines items s = (s', Ok tt) ->
    fs s' = fs s
    /\ files_map s' = files_map s
    /\ (forall h, In h (map (fun e => fst (snd e)) items) ->
                  file_of s' h = with_pos (file_of s h) (eof s h))
    /\ (forall h, ~ In h (map (fun e => fst (snd e)) items) ->
                  file_of s' h = file_of s h).
Proof.
  induction items as [|[fid [h ty]] items IH]; intros s s' Hgood Hrun.
  - cbn in Hrun. injection Hrun as <-. repeat split; intros h' []; reflexivity.
  - destruct (Hgood fid h ty (or_introl eq_refl)) as (Hopen & Hlook).
    cbn [init_files] in Hrun. unfold bind at 1 in Hrun.
    unfold bind at 1 in Hrun. unfold stat at 1 in Hrun.
    destruct (os_stat_found (fs s) _ _ Hlook) as (st & Hst & _ & _ & Hsize).
    rewrite Hst in Hrun. unfold bind at 1 in Hrun.
    unfold file_seek at 1 in Hrun. rewrite Hopen in Hrun.
    set (s1 := set_handles (set_nth h (with_pos (file_of s h) (st_size st))
                                     (handles s)) s) in Hrun.
    assert (Hstep : exists s2,
               fs s2 = fs s /\ handles s2 = handles s1
               /\ files_map s2 = files_map s
               /\ init_files tail_lines items s2 = (s', Ok tt)).
    { destruct (negb (tail_lines =? 0)).
      - destruct (startup_tail (f_name (file_of s h)) tail_lines s1)
          as [s2 r] eqn:Etail.
        destruct (startup_tail_frame _ _ _ _ _ Etail) as (Hfs & Hh & Hm).
        destruct r as [[]|e|]; try discriminate.
        exists s2. repeat split; assumption.
      - exists s1. cbn [ret] in Hrun. repeat split; assumption. }
    clear Hrun. destruct Hstep as (s2 & Hfs2 & Hh2 & Hm2 & Hrest).
    assert (Hin : (h < List.length (handles s))%nat)
      by (now apply open_file_in_store).
    assert (Hfile : forall h', file_of s2 h'
                               = if Nat.eq_dec h h'
                                 then with_pos (file_of s h) (eof s h)
                                 else file_of s h').
    { intros h'. unfold file_of at 1. rewrite Hh2. unfold s1. cbn [handles set_handles].
      destruct (Nat.eq_dec h h') as [<-|Hne].
      - rewrite nth_set_nth_same by exact Hin. unfold eof. now rewrite Hsize.
      - now rewrite nth_set_nth_other by exact Hne. }
    destruct (IH s2 s') as (Hfs' & Hm' & Hseen & Hother); [|exact Hrest|].
    { intros fid' h' ty' Hin'. rewrite (Hfile h'), Hfs2.
      destruct (Hgood fid' h' ty' (or_intror Hin')) as (Hopen' & Hlook').
      destruct (Nat.eq_dec h h') as [<-|Hne]; cbn; split; assumption. }
    assert (Heof : forall h', eof s2 h' = eof s h').
    { intros h'. unfold eof. rewrite Hfs2, (Hfile h').
      destruct (Nat.eq_dec h h') as [<-|Hne]; reflexivity. }
    split; [congruence|]. split; [congruence|]. split.
    + intros h' Hin'. cbn [map fst snd] in Hin'.
      destruct (in_dec Nat.eq_dec h' (map (fun e => fst (snd e)) items))
        as [Hlater|Hnot].
      * rewrite (Hseen h' Hlater), Heof, (Hfile h').
        destruct (Nat.eq_dec h h') as [<-|Hne]; reflexivity.
      * destruct Hin' as [<-|Hlater]; [|contradiction].
        rewrite (Hother h Hnot), (Hfile h).
        destruct (Nat.eq_dec h h); [reflexivity | congruence].
    + intros h' Hnot. cbn [map fst snd] in Hnot.
      rewrite (Hother h'), (Hfile h').
      * destruct (Nat.eq_dec h h') as [<-|Hne]; [|reflexivity].
        exfalso. apply Hnot. now left.
      * intros Hlater. apply Hnot. now right.
Qed.

End Startup.

Section Cursor.
Context {T Time : Type}.
Variable strftime : string -> Time -> string.
Variable realpath : string -> string.
Implicit Types (s : state T Time) (h : nat).


End Cursor.



(** ** A watch set at rest *)

Section Quiet.
Context {T Time : Type}.
Variable strftime : string -> Time -> string.
Variable realpath : string -> string.
Implicit Types (s : state T Time) (h : nat).

Lemma check_existent_quiet (items : list (string * (nat * T))) :
  forall s, Forall (watched_ok s) items -> check_existent items s = (s, Ok tt).
Proof.
  induction items as [|[fid [h ty]] items IH]; intros s Hok; cbn [check_existent].
  - reflexivity.
  - inversion Hok as [|? ? (Hopen & Hpos & Hlook & Hfid) Hrest]; subst.
    cbn [fst snd] in *. unfold bind, stat.
    destruct (os_stat_found (fs s) _ _ Hlook) as (st & Hst & Hid & _).
    rewrite Hst, Hid, Hfid, String.eqb_refl. cbn [negb].
    apply IH. exact Hrest.
Qed.

Lemma scan_filelist_quiet (entries : list (string * T)) :
  forall ls s,
    Forall (entry_settled strftime realpath s) entries ->
    Forall (fun c => dict_mem (fst (fst c)) (files_map s) = true) ls ->
    exists ls',
      scan_filelist strftime realpath entries ls s = (s, Ok ls')
      /\ Forall (fun c => dict_mem (fst (fst c)) (files_map s) = true) ls'.
Proof.
  induction entries as [|[name ty] entries IH]; intros ls s Hset Hls.
  - exists ls. split; [reflexivity | exact Hls].
  - inversion Hset as [|? ? (p & Hres & Hcase) Hrest]; subst. cbn [fst] in *.
    destruct (fs_lookup (fs s) (realpath p)) as [e|k] eqn:Hlook.
    + subst e.
      rewrite (scan_filelist_stat_fails strftime realpath s name ty p ENOENT)
        by assumption.
      cbn. apply IH; assumption.
    + rewrite (scan_filelist_found strftime realpath s name ty p k)
        by assumption.
      destruct (i_kind (fs_inode (fs s) k)) eqn:Hkind;
        try (apply IH; assumption).
      destruct Hcase as [Hne|Hmem]; [congruence|].
      apply IH; [exact Hrest|].
      apply Forall_app. split; [exact Hls|]. constructor; [exact Hmem|constructor].
Qed.

Lemma add_new_quiet (ls : list (string * string * T)) :
  forall s,
    Forall (fun c => dict_mem (fst (fst c)) (files_map s) = true) ls ->
    add_new ls s = (s, Ok tt).
Proof.
  induction ls as [|[[fid fname] ty] ls IH]; intros s Hls; cbn [add_new].
  - reflexivity.
  - inversion Hls as [|? ? Hmem Hrest]; subst. cbn [fst] in Hmem.
    unfold bind. rewrite Hmem. cbn [negb]. apply IH. exact Hrest.
Qed.

(** With the watch set at rest, [update_files] changes nothing. *)
Lemma update_files_quiet s :
  quiet strftime realpath s -> update_files strftime realpath s = (s, Ok tt).
Proof.
  intros (_ & Hwatched & Hsettled). unfold update_files, bind.
  destruct (scan_filelist_quiet (filelist s) [] s Hsettled (Forall_nil _))
    as (ls & Hscan & Hls).
  rewrite Hscan, (check_existent_quiet _ s Hwatched).
  apply add_new_quiet. exact Hls.
Qed.

Lemma watched_same_handle s (e1 e2 : string * (nat * T)) :
  watched_ok s e1 -> watched_ok s e2 ->
  fst (snd e1) = fst (snd e2) -> fst e1 = fst e2.
Proof.
  intros (_ & _ & _ & H1) (_ & _ & _ & H2) Hh. rewrite H1, H2, Hh. reflexivity.
Qed.

Lemma watched_same_name s (e1 e2 : string * (nat * T)) :
  watched_ok s e1 -> watched_ok s e2 ->
  f_name (file_of s (fst (snd e1))) = f_name (file_of s (fst (snd e2))) ->
  fst e1 = fst e2.
Proof.
  intros (_ & _ & L1 & H1) (_ & _ & L2 & H2) Hn.
  rewrite Hn, L2 in L1. injection L1 as L1. rewrite H1, H2, L1. reflexivity.
Qed.

Lemma flat_map_all_nil {A B : Type} (f : A -> list B) (l : list A) :
  (forall x, In x l -> f x = []) -> flat_map f l = [].
Proof.
  induction l as [|x l IH]; intros Hall; cbn [flat_map]; [reflexivity|].
  rewrite (Hall x (or_introl eq_refl)), IH; [reflexivity|].
  intros y Hy. apply Hall. now right.
Qed.

Lemma skipn_of_grown (data extra : bytes) (p : nat) :
  skipn p data ++ skipn (p + List.length (skipn p data)) (data ++ extra)
  = skipn p (data ++ extra).
Proof.
  rewrite !skipn_app, length_skipn.
  destruct (Nat.le_gt_cases p (List.length data)) as [Hle|Hgt].
  - replace (p + (List.length data - p))%nat with (List.length data) by lia.
    rewrite skipn_all, Nat.sub_diag.
    replace (p - List.length data)%nat with 0%nat by lia.
    reflexivity.
  - replace (p + (List.length data - p))%nat with p by lia.
    rewrite (skipn_all2 data) by lia. reflexivity.
Qed.

(** The inner loop of [loop] over watched files in place: every file
    object is read to its end, once, and nothing else changes. *)
Lemma read_all_reads (items : list (string * (nat * T))) :
  forall s,
    NoDup (map fst items) ->
    Forall (watched_ok s) items ->
    exists s' evs,
      read_all items s = (s', Ok tt)
      /\ fs s' = fs s /\ clock s' = clock s /\ filelist s' = filelist s
      /\ files_map s' = files_map s /\ sizehint s' = sizehint s
      /\ trace s' = trace s ++ evs
      /\ (forall h, In h (map (fun e => fst (snd e)) items) ->
                    file_of s' h
                    = with_pos (file_of s h)
                        (f_pos (file_of s h)
                         + Z.of_nat (List.length (unread s h))))
      /\ (forall h, ~ In h (map (fun e => fst (snd e)) items) ->
                    file_of s' h = file_of s h)
      /\ (forall name, delivered name evs = flat_map (share_of s name) items).
Proof.
  induction items as [|[fid [h ty]] items IH]; intros s Hnodup Hok.
  - exists s, []. cbn. rewrite app_nil_r.
    repeat split; try reflexivity. intros h [].
  - inversion Hok as [|? ? Hhead Hrest]; subst.
    inversion Hnodup as [|? ? Hfresh Hnodup']; subst.
    pose proof Hhead as (Hopen & Hpos & Hlook & Hfid). cbn [fst snd] in *.
    destruct (readlines_reads s h ty Hopen Hpos) as (batches & Hrun & Hcat & _).
    set (evs1 := map (batch_event (f_name (file_of s h)) ty) batches) in *.
    set (s1 := after_read s h evs1) in *.
    assert (Hdistinct : forall e, In e items -> fst (snd e) <> h).
    { intros e Hin Heq. apply Hfresh.
      rewrite Forall_forall in Hrest.
      pose proof (watched_same_handle s (fid, (h, ty)) e Hhead (Hrest e Hin)
                    (eq_sym Heq)) as Hsame.
      cbn [fst] in Hsame. rewrite Hsame. now apply in_map. }
    assert (Hkeep : forall e, In e items ->
                              file_of s1 (fst (snd e)) = file_of s (fst (snd e))).
    { intros e Hin. apply file_of_after_read_other.
      intros Heq. now apply (Hdistinct e Hin). }
    assert (Hok1 : Forall (watched_ok s1) items).
    { rewrite Forall_forall in *. intros e Hin.
      unfold watched_ok. rewrite (Hkeep e Hin). apply (Hrest e Hin). }
    destruct (IH s1 Hnodup' Hok1)
      as (s' & evs2 & Hrun2 & Hfs & Hck & Hfl & Hfm & Hsh & Htr & Hseen & Hother & Hdel).
    exists s', (evs1 ++ evs2).
    split; [cbn [read_all]; unfold bind; rewrite Hrun; exact Hrun2|].
    split; [exact Hfs|]. split; [exact Hck|]. split; [exact Hfl|].
    split; [exact Hfm|]. split; [exact Hsh|].
    split; [rewrite Htr; cbn; now rewrite app_assoc|].
    assert (Hnotin : ~ In h (map (fun e => fst (snd e)) items)).
    { intros Hin. apply in_map_iff in Hin as (e & Heq & Hin).
      now apply (Hdistinct e Hin). }
    split; [|split].
    + intros h' [<-|Hin]; cbn [map fst snd] in *.
      * rewrite (Hother h Hnotin). now apply file_of_after_read_same.
      * rewrite (Hseen h' Hin).
        apply in_map_iff in Hin as (e & <- & Hin).
        unfold unread. rewrite (Hkeep e Hin). reflexivity.
    + intros h' Hnot.
      rewrite (Hother h') by (intros Hx; apply Hnot; now right).
      apply file_of_after_read_other. intros ->. apply Hnot. now left.
    + intros name. rewrite delivered_app, Hdel. cbn [flat_map]. f_equal.
      * unfold evs1. rewrite delivered_batches, Hcat. reflexivity.
      * clear - Hkeep. induction items as [|e items IHi]; [reflexivity|].
        cbn [flat_map]. rewrite IHi by (intros e' He'; apply Hkeep; now right).
        f_equal. unfold share_of, unread.
        rewrite (Hkeep e (or_introl eq_refl)). reflexivity.
Qed.

(** Out of all the shares, the one of the entry that bears the name. *)
Lemma share_of_entry s (items : list (string * (nat * T))) :
  NoDup (map fst items) ->
  Forall (watched_ok s) items ->
  forall e, In e items ->
            flat_map (share_of s (f_name (file_of s (fst (snd e))))) items
            = unread s (fst (snd e)).
Proof.
  induction items as [|e0 items IH]; intros Hnodup Hok e Hin; [destruct Hin|].
  inversion Hok as [|? ? Hhead Hrest]; subst.
  inversion Hnodup as [|? ? Hfresh Hnodup']; subst.
  cbn [flat_map].
  destruct Hin as [->|Hin].
  - unfold share_of at 1. rewrite String.eqb_refl.
    replace (flat_map _ items) with (@nil byte); [apply app_nil_r|].
    symmetry. apply flat_map_all_nil.
    intros e' Hin'. unfold share_of.
    destruct (String.eqb_spec (f_name (file_of s (fst (snd e'))))
                              (f_name (file_of s (fst (snd e))))) as [Heq|Hne];
      [|reflexivity].
    exfalso. apply Hfresh. rewrite Forall_forall in Hrest.
    rewrite <- (watched_same_name s e' e (Hrest e' Hin') Hhead Heq).
    now apply in_map.
  - rewrite (IH Hnodup' Hrest e Hin). unfold share_of.
    destruct (String.eqb_spec (f_name (file_of s (fst (snd e0))))
                              (f_name (file_of s (fst (snd e))))) as [Heq|Hne];
      [|reflexivity].
    exfalso. apply Hfresh. rewrite Forall_forall in Hrest.
    rewrite (watched_same_name s e0 e Hhead (Hrest e Hin) Heq).
    now apply in_map.
Qed.

End Quiet.

Section Delivery.
Context {T Time : Type}.
Variable strftime : string -> Time -> string.
Variable realpath : string -> string.
Implicit Types (s : state T Time) (h : nat).

(** One turn of the loop with the watch set at rest: every watched file
    is read to its end, and the callback receives for it the bytes that
    were unread. *)
Lemma cycle_quiet s :
  quiet strftime realpath s ->
  exists s' evs,
    cycle strftime realpath s = (s', Ok tt)
    /\ fs s' = fs s /\ clock s' = clock s /\ filelist s' = filelist s
    /\ files_map s' = files_map s /\ sizehint s' = sizehint s
    /\ trace s' = trace s ++ evs
    /\ (forall e, In e (files_map s) ->
                  let h := fst (snd e) in
                  file_of s' h
                  = with_pos (file_of s h)
                      (f_pos (file_of s h)
                       + Z.of_nat (List.length (unread s h)))
                  /\ delivered (f_name (file_of s h)) evs = unread s h).
Proof.
  intros Hq. pose proof Hq as (Hnodup & Hwatched & _).
  destruct (read_all_reads (files_map s) s Hnodup Hwatched)
    as (s' & evs & Hrun & Hfs & Hck & Hfl & Hfm & Hsh & Htr & Hseen & _ & Hdel).
  exists s', evs.
  split; [unfold cycle, bind; rewrite (update_files_quiet strftime realpath s Hq);
          exact Hrun|].
  repeat (split; [assumption|]).
  intros e Hin h. split.
  - apply Hseen. now apply (in_map (fun e => fst (snd e))).
  - rewrite Hdel. now apply share_of_entry.
Qed.


End Delivery.

Lemma started_quiet (fs0 : filesystem) (t : nat) :
  fs_lookup fs0 "/log" = inr (1%N, 2%N) ->
  quiet day_strftime same_path (fst (sleep (fs0, t) started)).
Proof.
  intros Hlook. split; [|split].
  - cbn. constructor; [intros []|constructor].
  - constructor; [|constructor].
    repeat split; try reflexivity.
    + vm_compute. discriminate.
    + exact Hlook.
  - constructor; [|constructor].
    exists "/log"%string. split; [reflexivity|].
    unfold same_path. cbn [fs sleep fst]. rewrite Hlook. right. reflexivity.
Qed.


(** * Further properties of the code *)

(** ** [tail] beyond one block *)

(** A line in progress only changes the first line that comes out. *)
Lemma splitlines_from_cur (data cur : bytes) :
  tl (splitlines_from cur data) = tl (splitlines_from [] data).
Proof.
  revert cur. induction data as [|c data IH]; intros cur.
  - cbn [splitlines_from]. destruct cur; reflexivity.
  - cbn [splitlines_from].
    destruct (Byte.eqb c LF); [reflexivity|].
    destruct (Byte.eqb c CR).
    + destruct data as [|c' data']; [reflexivity|].
      destruct (Byte.eqb c' LF); reflexivity.
    + rewrite (IH (c :: cur)), (IH [c]). reflexivity.
Qed.

(** The lines of a suffix of the data, the first one apart, are the
    last lines of the data. *)
Lemma splitlines_suffix (n : nat) :
  forall (data cur : bytes) (j : nat),
    (List.length data <= n)%nat ->
    ends_with (splitlines_from cur data)
              (tl (splitlines_from [] (skipn j data))).
Proof.
  induction n as [|n IH]; intros data cur j Hlen.
  - destruct data; [|cbn in Hlen; lia].
    rewrite skipn_nil. cbn. eexists. symmetry. apply app_nil_r.
  - destruct j as [|j].
    { cbn [skipn]. rewrite <- (splitlines_from_cur data cur).
      destruct (splitlines_from cur data) as [|l ls].
      - exists []. reflexivity.
      - exists [l]. reflexivity. }
    destruct data as [|c data]; [cbn; eexists; symmetry; apply app_nil_r|].
    cbn [List.length] in Hlen. cbn [skipn splitlines_from].
    assert (Hcons : forall (x : bytes) rest suffix,
               ends_with rest suffix -> ends_with (x :: rest) suffix).
    { intros x rest suffix (front & ->). exists (x :: front). reflexivity. }
    destruct (Byte.eqb c LF); [apply Hcons, IH; lia|].
    destruct (Byte.eqb c CR); [|apply IH; lia].
    destruct data as [|c' data'] eqn:Edata; [apply Hcons, IH; cbn; lia|].
    rewrite <- Edata at 2.
    destruct (Byte.eqb c' LF) eqn:Elf; [|rewrite <- Edata; apply Hcons, IH; subst; lia].
    apply Hcons. destruct j as [|j].
    + rewrite Edata. cbn [skipn splitlines_from]. rewrite Elf. cbn [tl].
      exists []. reflexivity.
    + rewrite Edata. cbn [skipn]. cbn [List.length] in Hlen. apply IH. lia.
Qed.

Lemma tl_skipn {A : Type} (m : nat) (l : list A) :
  tl (skipn m l) = skipn m (tl l).
Proof.
  revert l. induction m as [|m IH]; intros l; [reflexivity|].
  destruct l as [|x l]; [reflexivity|].
  cbn [skipn tl]. rewrite IH. destruct l; [now rewrite skipn_nil|reflexivity].
Qed.

Lemma ends_with_skipn {A : Type} (l suffix : list A) (m : nat) :
  ends_with l suffix -> ends_with l (skipn m suffix).
Proof.
  intros (front & ->). exists (front ++ firstn m suffix).
  rewrite <- app_assoc, firstn_skipn. reflexivity.
Qed.

Lemma byte_eqb_sym (a b : byte) : Byte.eqb a b = Byte.eqb b a.
Proof.
  destruct (Byte.eqb a b) eqn:E.
  - apply Byte.byte_dec_bl in E. subst. symmetry. now apply Byte.byte_dec_lb.
  - destruct (Byte.eqb b a) eqn:E'; [|reflexivity].
    apply Byte.byte_dec_bl in E'. subst.
    rewrite (Byte.byte_dec_lb eq_refl) in E. discriminate.
Qed.

(** Every line feed ends a line. *)
Lemma count_le_splitlines (n : nat) :
  forall (data cur : bytes),
    (List.length data <= n)%nat ->
    count LF data <= Z.of_nat (List.length (splitlines_from cur data)).
Proof.
  unfold count.
  induction n as [|n IH]; intros data cur Hlen.
  - destruct data; [cbn; lia | cbn in Hlen; lia].
  - destruct data as [|c data]; [cbn; lia|].
    cbn [List.length] in Hlen. cbn [splitlines_from filter].
    rewrite byte_eqb_sym.
    destruct (Byte.eqb c LF) eqn:Ec.
    + cbn [List.length]. specialize (IH data [] ltac:(lia)). lia.
    + destruct (Byte.eqb c CR).
      * destruct data as [|c' data']; [cbn; lia|].
        destruct (Byte.eqb c' LF) eqn:Ec'.
        -- cbn [filter]. rewrite byte_eqb_sym, Ec'. cbn [List.length] in *.
           specialize (IH data' [] ltac:(lia)). lia.
        -- cbn [List.length]. specialize (IH (c' :: data') [] ltac:(lia)). lia.
      * apply IH. lia.
Qed.

(** X1: whatever the size of the file, [tail] returns at most [window]
    lines, and all of them except possibly the first are the last lines
    of the file, in file order; when it returns fewer than [window]
    lines, they are all the lines of the file. *)
Theorem tail_all_but_first_are_last_lines (fs0 : filesystem) (fname : string)
    (window : Z) (lines : list bytes) :
  tail fs0 fname window = Ok lines ->
  exists k,
    os_open fs0 fname = Ok k
    /\ Z.of_nat (List.length lines) <= window
    /\ ends_with (splitlines (i_data (fs_inode fs0 k))) (tl lines)
    /\ (Z.of_nat (List.length lines) < window ->
        lines = splitlines (i_data (fs_inode fs0 k))).
Proof.
  unfold tail. destruct (window <=? 0) eqn:Ew; [discriminate|].
  apply Z.leb_gt in Ew.
  destruct (os_open fs0 fname) as [k| |]; try discriminate.
  set (content := i_data (fs_inode fs0 k)).
  destruct (tail_scan_stops content window)
    as (sc & Hsc & (j & Hj & Hdata & Hstop) & _).
  rewrite Hsc. intros [= <-]. exists k. split; [reflexivity|].
  rewrite slice_from_last by lia. rewrite Hdata.
  set (L := splitlines (skipn (Z.to_nat j) content)).
  split; [|split].
  - rewrite length_skipn. lia.
  - rewrite tl_skipn. apply ends_with_skipn.
    apply (splitlines_suffix (List.length content)). lia.
  - rewrite length_skipn. intros Hshort.
    assert (Hlen : Z.of_nat (List.length L) < window) by lia.
    replace (List.length L - Nat.min (Z.to_nat window) (List.length L))%nat
      with 0%nat by lia.
    cbn [skipn]. unfold L.
    destruct Hstop as [Hcount| ->]; [|reflexivity].
    exfalso. rewrite Hdata in Hcount.
    pose proof (count_le_splitlines _ (skipn (Z.to_nat j) content) []
                  (Nat.le_refl _)) as Hle.
    fold (splitlines (skipn (Z.to_nat j) content)) in Hle. fold L in Hle. lia.
Qed.

Lemma tail_all_but_first_are_last_lines_witness :
  exists k,
    os_open cut_disk "/f" = Ok k
    /\ Z.of_nat (List.length [list_byte_of_string "lo"; repeat "z"%byte 1020])
       <= 2
    /\ ends_with (splitlines (i_data (fs_inode cut_disk k)))
                 (tl [list_byte_of_string "lo"; repeat "z"%byte 1020])
    /\ (Z.of_nat (List.length [list_byte_of_string "lo"; repeat "z"%byte 1020])
        < 2 ->
        [list_byte_of_string "lo"; repeat "z"%byte 1020]
        = splitlines (i_data (fs_inode cut_disk k))).
Proof.
  apply (tail_all_but_first_are_last_lines cut_disk "/f" 2).
  vm_compute. reflexivity.
Defined.

(** X2: [tail] is exact on a file it reads whole: when the file fits in
    one block of 1024 bytes, or holds fewer line feeds than [window],
    the result is the last [min window K] of the [K] lines of the file. *)
Theorem tail_exact_when_read_whole (fs0 : filesystem) (fname : string)
    (k : file_key) (window : Z) :
  1 <= window ->
  os_open fs0 fname = Ok k ->
  Z.of_nat (List.length (i_data (fs_inode fs0 k))) <= BUFSIZ
  \/ count LF (i_data (fs_inode fs0 k)) < window ->
  tail fs0 fname window = Ok (spec_tail (i_data (fs_inode fs0 k)) window).
Proof.
  intros Hw Hopen [Hsmall|Hfew].
  - now apply tail_small_file.
  - now apply tail_few_newlines.
Qed.

Lemma tail_exact_when_read_whole_witness :
  tail log_disk "/log" 3
  = Ok (spec_tail (i_data (fs_inode log_disk (1%N, 2%N))) 3).
Proof.
  apply (tail_exact_when_read_whole log_disk "/log" (1%N, 2%N) 3).
  - lia.
  - reflexivity.
  - left. vm_compute. discriminate.
Defined.

(** ** File identities *)

Lemma hex_read_back (n : N) : HexString.Raw.to_N (hex n) 0 = n.
Proof.
  destruct n as [|p]; [reflexivity|].
  unfold hex. rewrite HexString.Raw.to_N_of_pos. reflexivity.
Qed.

Lemma of_pos_without_g (n : nat) :
  forall (p : positive) (rest : string),
    (Pos.size_nat p <= n)%nat ->
    has_char "g" rest = false ->
    has_char "g" (HexString.Raw.of_pos p rest) = false.
Proof.
  induction n as [|n IH]; intros p rest Hsize Hrest.
  - destruct p; cbn in Hsize; lia.
  - do 4 try destruct p as [p|p|];
      cbn [HexString.Raw.of_pos];
      first [ apply IH; [cbn in Hsize |- *; lia | exact Hrest]
            | apply IH; [cbn in Hsize |- *; lia
                        | unfold has_char in *; cbn; exact Hrest]
            | unfold has_char in *; cbn; exact Hrest ].
Qed.

Lemma hex_without_g (n : N) : has_char "g" (hex n) = false.
Proof.
  destruct n as [|p]; [reflexivity|].
  unfold hex. apply (of_pos_without_g (Pos.size_nat p)); [lia | reflexivity].
Qed.

Lemma split_at_g (a a' b b' : string) :
  has_char "g" a = false ->
  has_char "g" a' = false ->
  (a ++ String "g" b = a' ++ String "g" b')%string ->
  a = a' /\ b = b'.
Proof.
  unfold has_char.
  revert a'. induction a as [|c a IH]; intros [|c' a'] Ha Ha' Heq;
    cbn [list_ascii_of_string contains existsb append] in Ha, Ha', Heq.
  - injection Heq as ->. split; reflexivity.
  - injection Heq as <- _. rewrite Ascii.eqb_refl in Ha'. discriminate.
  - injection Heq as -> _. rewrite Ascii.eqb_refl in Ha. discriminate.
  - injection Heq as -> Heq.
    apply orb_false_elim in Ha as [_ Ha]. apply orb_false_elim in Ha' as [_ Ha'].
    destruct (IH a' Ha Ha' Heq) as [-> ->]. split; reflexivity.
Qed.

(** X3: [get_file_id] is one-to-one on the pair of device and inode
    numbers: two [os.stat] results get the same identity exactly when
    they are of the same device and the same inode. *)
Theorem get_file_id_injective (st1 st2 : stat_result) :
  get_file_id st1 = get_file_id st2
  <-> st_dev st1 = st_dev st2 /\ st_ino st1 = st_ino st2.
Proof.
  unfold get_file_id. split.
  - intros Heq.
    destruct (split_at_g _ _ _ _ (hex_without_g _) (hex_without_g _) Heq)
      as [Hdev Hino].
    split.
    + rewrite <- (hex_read_back (st_dev st1)), Hdev. apply hex_read_back.
    + rewrite <- (hex_read_back (st_ino st1)), Hino. apply hex_read_back.
  - intros [-> ->]. reflexivity.
Qed.

(** ** Reading, watching and unwatching at the edges *)

Section Edges.
Context {T Time : Type}.
Implicit Types (s : state T Time) (h : nat).

Lemma set_nth_same {A : Type} (n : nat) (d : A) (l : list A) :
  set_nth n (nth n l d) l = l.
Proof.
  revert n. induction l as [|x l IH]; intros [|n]; cbn; try reflexivity.
  now rewrite IH.
Qed.

Lemma with_pos_same (f : pyfile) : with_pos f (f_pos f + 0) = f.
Proof. destruct f. unfold with_pos. cbn. now rewrite Z.add_0_r. Qed.

Lemma after_read_nothing s h :
  unread s h = [] -> after_read s h [] = s.
Proof.
  intros Hnone. apply state_eq; cbn; try reflexivity.
  - rewrite Hnone. cbn [List.length]. change (Z.of_nat 0) with 0.
    fold (file_of s h). rewrite with_pos_same. apply set_nth_same.
  - apply app_nil_r.
Qed.

Lemma readlines_nothing s h (_type : T) :
  f_closed (file_of s h) = false ->
  unread s h = [] ->
  readlines h _type s = (s, Ok None).
Proof.
  intros Hopen Hnone. unfold readlines. rewrite Hnone.
  cbn [List.length readlines_loop]. unfold file_readlines.
  rewrite Hopen, Hnone. cbn [lines_from take_hint List.concat List.length].
  f_equal. apply state_eq; cbn; try reflexivity.
  fold (file_of s h). change (Z.of_nat 0) with 0.
  rewrite with_pos_same. apply set_nth_same.
Qed.

(** X4: [readlines] reads an open file object to its end, so that a
    second [readlines] right after it finds nothing: it calls nothing
    and changes nothing; and on a file object with nothing unread the
    first one already leaves the whole state as it was. *)
Theorem readlines_twice s h (_type : T) :
  f_closed (file_of s h) = false ->
  0 <= f_pos (file_of s h) ->
  exists s1,
    readlines h _type s = (s1, Ok None)
    /\ unread s1 h = []
    /\ readlines h _type s1 = (s1, Ok None)
    /\ (unread s h = [] -> s1 = s).
Proof.
  intros Hopen Hpos.
  destruct (readlines_reads s h _type Hopen Hpos) as (batches & Hrun & _).
  set (s1 := after_read s h (map (batch_event (f_name (file_of s h)) _type) batches))
    in *.
  assert (Hnone : unread s1 h = []) by (now apply unread_after_read).
  assert (Hopen1 : f_closed (file_of s1 h) = false).
  { unfold s1. rewrite file_of_after_read_same by exact Hopen. exact Hopen. }
  exists s1. split; [exact Hrun|]. split; [exact Hnone|]. split.
  - now apply readlines_nothing.
  - intros Hs. rewrite (readlines_nothing s h _type Hopen Hs) in Hrun.
    now injection Hrun.
Qed.

End Edges.

Section Refusals.
Context {T Time : Type}.
Implicit Types (s : state T Time) (h : nat).

(** X5: [unwatch] at its edges.  On a file object that is closed
    already it raises [ValueError] on entering the [with] block, after
    the log line, and the map keeps its entries.  On an open file object
    under an identity that is not in the map it raises [KeyError]; the
    [with] block closes the file on the way out, nothing is read and
    the callback is not called. *)
Theorem unwatch_refuses s h fid :
  let note := Ev_log ("un-watching logfile " ++ f_name (file_of s h)) in
  (f_closed (file_of s h) = true ->
   exists s',
     unwatch h fid s = (s', Raise closed_file)
     /\ files_map s' = files_map s
     /\ handles s' = handles s
     /\ trace s' = trace s ++ [note])
  /\ (f_closed (file_of s h) = false ->
      dict_get fid (files_map s) = None ->
      exists s',
        unwatch h fid s = (s', Raise (KeyError fid))
        /\ files_map s' = files_map s
        /\ f_closed (file_of s' h) = true
        /\ f_pos (file_of s' h) = f_pos (file_of s h)
        /\ trace s' = trace s ++ [note; Ev_close h]).
Proof.
  cbv zeta. split.
  - intros Hclosed. eexists. split.
    + unfold unwatch, bind, log, emit, with_file.
      match goal with
      | |- context [f_closed (file_of ?st h)] =>
          change (file_of st h) with (file_of s h)
      end.
      rewrite Hclosed. reflexivity.
    + repeat split.
  - intros Hopen Hnone. eexists. split.
    + unfold unwatch, bind, log, emit, with_file.
      match goal with
      | |- context [f_closed (file_of ?st h)] =>
          change (file_of st h) with (file_of s h)
      end.
      rewrite Hopen. unfold files_map_item. cbn [files_map].
      rewrite Hnone. reflexivity.
    + cbn. split; [reflexivity|].
      fold (file_of s h).
      unfold file_of at 1 2. cbn.
      rewrite nth_set_nth_same by (now apply open_file_in_store).
      repeat split. now rewrite <- app_assoc.
Qed.

Lemma dict_set_keeps_keys {V : Type} (k : string) (v v0 : V)
    (d : list (string * V)) :
  dict_get k d = Some v0 -> map fst (dict_set k v d) = map fst d.
Proof.
  induction d as [|[k' v'] d IH]; cbn; [discriminate|].
  destruct (String.eqb k k'); cbn; [reflexivity|].
  intros Hget. now rewrite IH.
Qed.

(** X6: [watch] of a path whose identity is in the map already puts the
    new file object, at offset 0, in the place of the old one: the map
    keeps the same identities, one entry for each, and the file object
    that was there is left open, no longer in the map. *)
Theorem watch_again_replaces s fname (k : file_key) (_type _type0 : T) h0 :
  fs_lookup (fs s) fname = inr k ->
  os_open (fs s) fname = Ok k ->
  dict_get (key_id k) (files_map s) = Some (h0, _type0) ->
  f_closed (file_of s h0) = false ->
  exists s',
    watch fname _type s = (s', Ok tt)
    /\ dict_get (key_id k) (files_map s')
       = Some (List.length (handles s), _type)
    /\ file_of s' (List.length (handles s)) = fresh_file fname k
    /\ map fst (files_map s') = map fst (files_map s)
    /\ h0 <> List.length (handles s)
    /\ file_of s' h0 = file_of s h0
    /\ callback_arities (trace s') = callback_arities (trace s).
Proof.
  intros Hk Hopen Hget Hold.
  pose proof (open_file_in_store s h0 Hold) as Hin.
  exists (after_watch s fname k _type).
  split; [now apply watch_opens|].
  split; [apply dict_get_set_same|].
  split; [unfold file_of; cbn [handles after_watch]; apply nth_middle|].
  split; [cbn [files_map after_watch]; now apply dict_set_keeps_keys with (v0 := (h0, _type0))|].
  split; [lia|].
  split.
  - unfold file_of. cbn [handles after_watch]. now apply app_nth1.
  - cbn [trace after_watch]. unfold callback_arities.
    rewrite flat_map_app. cbn. apply app_nil_r.
Qed.

End Refusals.

Lemma readlines_twice_witness :
  exists s1,
    readlines 0 tt woke_grown = (s1, Ok None)
    /\ unread s1 0 = []
    /\ readlines 0 tt s1 = (s1, Ok None)
    /\ (unread woke_grown 0 = [] -> s1 = woke_grown).
Proof.
  apply (readlines_twice woke_grown 0 tt).
  - reflexivity.
  - vm_compute. discriminate.
Defined.

Lemma unwatch_refuses_witness :
  (exists s',
      unwatch 0 "1g2" closed_watcher = (s', Raise closed_file)
      /\ files_map s' = files_map closed_watcher
      /\ handles s' = handles closed_watcher
      /\ trace s' = trace closed_watcher
                    ++ [Ev_log ("un-watching logfile "
                                ++ f_name (file_of closed_watcher 0))])
  /\ (exists s',
         unwatch 0 "0g0" started = (s', Raise (KeyError "0g0"))
         /\ files_map s' = files_map started
         /\ f_closed (file_of s' 0) = true
         /\ f_pos (file_of s' 0) = f_pos (file_of started 0)
         /\ trace s' = trace started
                       ++ [Ev_log ("un-watching logfile "
                                   ++ f_name (file_of started 0));
                           Ev_close 0]).
Proof.
  split.
  - apply (proj1 (unwatch_refuses closed_watcher 0 "1g2")). reflexivity.
  - apply (proj2 (unwatch_refuses started 0 "0g0")); reflexivity.
Defined.

Lemma watch_again_replaces_witness :
  exists s',
    watch "/log" tt started = (s', Ok tt)
    /\ dict_get (key_id (1%N, 2%N)) (files_map s')
       = Some (List.length (handles started), tt)
    /\ file_of s' (List.length (handles started))
       = fresh_file "/log" (1%N, 2%N)
    /\ map fst (files_map s') = map fst (files_map started)
    /\ 0%nat <> List.length (handles started)
    /\ file_of s' 0 = file_of started 0
    /\ callback_arities (trace s') = callback_arities (trace started).
Proof.
  apply (watch_again_replaces started "/log" (1%N, 2%N) tt tt 0);
    reflexivity.
Defined.

(** ** Files that go and files that come *)

Section ComeAndGo.
Context {T Time : Type}.
Variable strftime : string -> Time -> string.
Variable realpath : string -> string.
Implicit Types (s : state T Time) (h : nat).

(** X7: when the path of the watched file is gone (deleted, or renamed
    by a rotation), the turn reads what is left unread through the open
    file object, hands it to the callback, closes the file and drops the
    entry; nothing is raised and the map is empty afterwards. *)
Theorem cycle_flushes_vanished s name (_type : T) h fid :
  vanished_under_name realpath s name _type h fid ->
  exists batches,
    cycle strftime realpath s
    = (after_unwatch s h fid
         (map (batch_event (realpath name) _type) batches), Ok tt)
    /\ List.concat (List.concat batches) = unread s h
    /\ files_map (fst (cycle strftime realpath s)) = []
    /\ f_closed (file_of (fst (cycle strftime realpath s)) h) = true.
Proof.
  intros (Hlist & Hplain & Hmap & Hopen & Hpos & Hname & Hgone).
  destruct (unwatch_flushes s h fid _type) as (batches & Hun & Hcat & _);
    [rewrite Hmap; cbn; now rewrite String.eqb_refl | exact Hopen | exact Hpos |].
  assert (Hempty : dict_del fid (files_map s) = (@nil (string * (nat * T)))).
  { rewrite Hmap. cbn. now rewrite String.eqb_refl. }
  assert (Hrun : cycle strftime realpath s
                 = (after_unwatch s h fid
                      (map (batch_event (realpath name) _type) batches), Ok tt)).
  { unfold cycle, bind at 1, update_files, bind at 1. rewrite Hlist.
    rewrite (scan_filelist_stat_fails strftime realpath s name _type name ENOENT)
      by (try apply resolve_name_without_brace; assumption).
    cbn [errno_eqb scan_filelist ret].
    unfold bind at 1. rewrite Hmap. cbn [check_existent].
    unfold bind at 1. unfold stat. rewrite Hname.
    rewrite (os_stat_missing _ _ _ Hgone). cbn [errno_eqb].
    rewrite Hun, Hname. cbn [ret add_new].
    cbn [files_map after_unwatch]. rewrite Hempty. reflexivity. }
  exists batches. rewrite Hrun. cbn [fst].
  split; [reflexivity|]. split; [exact Hcat|]. split; [exact Hempty|].
  unfold file_of. cbn.
  rewrite nth_set_nth_same by (now apply open_file_in_store). reflexivity.
Qed.

(** X8: the turn that finds a regular file under the entry of a watcher
    that watches nothing opens it at its first byte and reads it to its
    end: the callback receives the whole content of the file, under the
    resolved path and with the metadata of the entry. *)
Theorem cycle_delivers_new_file s name (_type : T) (k : file_key) :
  appears_under_name realpath s name _type k ->
  exists batches,
    cycle strftime realpath s
    = (after_read (after_watch s (realpath name) k _type)
                  (List.length (handles s))
                  (map (batch_event (realpath name) _type) batches),
       Ok tt)
    /\ List.concat (List.concat batches) = i_data (fs_inode (fs s) k)
    /\ delivered (realpath name)
                 (map (batch_event (realpath name) _type) batches)
       = i_data (fs_inode (fs s) k).
Proof.
  intros (Hlist & Hplain & Hmap & Hk & Hreg & Hread).
  set (s2 := after_watch s (realpath name) k _type).
  assert (Hf2 : file_of s2 (List.length (handles s))
                = fresh_file (realpath name) k).
  { unfold file_of, s2. cbn [handles after_watch]. apply nth_middle. }
  destruct (readlines_reads s2 (List.length (handles s)) _type)
    as (batches & Hrun & Hcat & _).
  { rewrite Hf2. reflexivity. }
  { rewrite Hf2. cbn. lia. }
  assert (Hall : List.concat (List.concat batches) = i_data (fs_inode (fs s) k)).
  { rewrite Hcat. unfold unread. rewrite Hf2. reflexivity. }
  exists batches. split; [|split; [exact Hall|]].
  - unfold cycle, bind at 1, update_files, bind at 1. rewrite Hlist.
    rewrite (scan_filelist_found strftime realpath s name _type name k [] [])
      by (try apply resolve_name_without_brace; assumption).
    rewrite Hreg. cbn [scan_filelist ret app].
    unfold bind at 1. rewrite Hmap. cbn [check_existent ret add_new].
    unfold bind at 1. rewrite Hmap. cbn [dict_mem dict_get negb call_watch].
    rewrite (watch_opens s (realpath name) k _type Hk)
      by (apply os_open_found; [exact Hk | exact Hread | congruence]).
    fold s2. cbn [ret].
    assert (Hmap2 : files_map s2
                    = [(key_id k, (List.length (handles s), _type))]).
    { unfold s2. cbn [files_map after_watch]. rewrite Hmap. reflexivity. }
    rewrite Hmap2. cbn [read_all]. unfold bind at 1.
    rewrite Hrun, Hf2. reflexivity.
  - rewrite delivered_batches, String.eqb_refl. exact Hall.
Qed.

(** X9: the scan of the file list leaves the state as it is, and every
    candidate it returns is a path that leads to a regular file, with
    the identity of that file: a directory or a special file named in
    the list is never a candidate, nor is a missing path; and there is at
    most one candidate for each entry. *)
Theorem scan_filelist_candidates (entries : list (string * T)) :
  forall ls s s' ls',
    scan_filelist strftime realpath entries ls s = (s', Ok ls') ->
    Forall (candidate_ok (fs s)) ls ->
    s' = s
    /\ Forall (candidate_ok (fs s)) ls'
    /\ (List.length ls' <= List.length ls + List.length entries)%nat.
Proof.
  induction entries as [|[name ty] entries IH]; intros ls s s' ls' Hrun Hls.
  - cbn in Hrun. injection Hrun as <- <-. repeat split; [exact Hls | lia].
  - pose proof (resolve_name_keeps_state strftime name s) as Hkeep.
    destruct (resolve_name strftime name s) as [s0 [p|e|]] eqn:Hres;
      cbn [fst] in Hkeep; subst s0;
      try (cbn [scan_filelist] in Hrun; unfold bind in Hrun;
           rewrite Hres in Hrun; discriminate).
    destruct (fs_lookup (fs s) (realpath p)) as [e|k] eqn:Hlook.
    + rewrite (scan_filelist_stat_fails strftime realpath s name ty p e)
        in Hrun by assumption.
      destruct (errno_eqb e ENOENT); [|discriminate].
      destruct (IH ls s s' ls' Hrun Hls) as (-> & Hok & Hlen).
      repeat split; [exact Hok | cbn [List.length]; lia].
    + rewrite (scan_filelist_found strftime realpath s name ty p k)
        in Hrun by assumption.
      destruct (i_kind (fs_inode (fs s) k)) eqn:Hkind.
      * destruct (IH _ s s' ls' Hrun) as (-> & Hok & Hlen).
        { apply Forall_app. split; [exact Hls|].
          constructor; [|constructor].
          exists k. cbn [fst snd]. repeat split; assumption. }
        rewrite length_app in Hlen. cbn [List.length] in *.
        repeat split; [exact Hok | lia].
      * destruct (IH ls s s' ls' Hrun Hls) as (-> & Hok & Hlen).
        repeat split; [exact Hok | cbn [List.length]; lia].
      * destruct (IH ls s s' ls' Hrun Hls) as (-> & Hok & Hlen).
        repeat split; [exact Hok | cbn [List.length]; lia].
Qed.

End ComeAndGo.

Lemma cycle_flushes_vanished_witness :
  let s := fst (sleep (empty_disk, 1%nat) started) in
  exists batches,
    cycle day_strftime same_path s
    = (after_unwatch s 0 "1g2"
         (map (batch_event (same_path "/log") tt) batches), Ok tt)
    /\ List.concat (List.concat batches) = unread s 0
    /\ files_map (fst (cycle day_strftime same_path s)) = []
    /\ f_closed (file_of (fst (cycle day_strftime same_path s)) 0) = true.
Proof.
  apply (cycle_flushes_vanished day_strftime same_path
           (fst (sleep (empty_disk, 1%nat) started)) "/log" tt 0 "1g2").
  repeat split; try reflexivity. vm_compute. discriminate.
Defined.

Lemma cycle_delivers_new_file_witness :
  let s := fst (__init__ day_strftime same_path [("/log"%string, tt)]
                         0 1048576 (boot (T := unit) empty_disk 0%nat)) in
  let s := fst (sleep (log_disk, 1%nat) s) in
  exists batches,
    cycle day_strftime same_path s
    = (after_read (after_watch s (same_path "/log") (1%N, 2%N) tt)
                  (List.length (handles s))
                  (map (batch_event (same_path "/log") tt) batches),
       Ok tt)
    /\ List.concat (List.concat batches)
       = i_data (fs_inode (fs s) (1%N, 2%N))
    /\ delivered (same_path "/log")
                 (map (batch_event (same_path "/log") tt) batches)
       = i_data (fs_inode (fs s) (1%N, 2%N)).
Proof.
  apply (cycle_delivers_new_file day_strftime same_path
           (fst (sleep (log_disk, 1%nat)
                   (fst (__init__ day_strftime same_path [("/log"%string, tt)]
                                  0 1048576 (boot (T := unit) empty_disk 0%nat)))))
           "/log" tt (1%N, 2%N)).
  repeat split; reflexivity.
Defined.

Lemma scan_filelist_candidates_witness :
  let s := fst (sleep (directory_disk, 1%nat) started_two) in
  s = s
  /\ Forall (candidate_ok (T := unit) (fs s)) []
  /\ (List.length (@nil (string * string * unit))
      <= List.length (@nil (string * string * unit))
         + List.length sample_list)%nat.
Proof.
  apply (scan_filelist_candidates day_strftime same_path sample_list []
           (fst (sleep (directory_disk, 1%nat) started_two))
           (fst (sleep (directory_disk, 1%nat) started_two)) []).
  - reflexivity.
  - constructor.
Defined.

(** ** [close] and [loop] *)

Section Shutdown.
Context {T Time : Type}.
Variable strftime : string -> Time -> string.
Variable realpath : string -> string.
Implicit Types (s : state T Time) (h : nat).

Lemma file_of_closed s h h' :
  file_of (fst (file_close h s)) h'
  = if Nat.eq_dec h h' then as_closed (file_of s h) else file_of s h'.
Proof.
  unfold file_close, emit, file_of. cbn.
  destruct (Nat.eq_dec h h') as [<-|Hne].
  - destruct (Nat.lt_ge_cases h (List.length (handles s))) as [Hlt|Hge].
    + now apply nth_set_nth_same.
    + rewrite !nth_overflow; [reflexivity | exact Hge |].
      now rewrite length_set_nth.
  - now apply nth_set_nth_other.
Qed.

Lemma close_files_closes (items : list (string * (nat * T))) :
  forall s,
    exists s',
      close_files items s = (s', Ok tt)
      /\ fs s' = fs s /\ clock s' = clock s /\ filelist s' = filelist s
      /\ files_map s' = files_map s /\ sizehint s' = sizehint s
      /\ trace s' = trace s ++ map (fun e => Ev_close (entry_file e)) items
      /\ (forall h, In h (map entry_file items) ->
                    file_of s' h = as_closed (file_of s h))
      /\ (forall h, ~ In h (map entry_file items) ->
                    file_of s' h = file_of s h).
Proof.
  induction items as [|[fid [h ty]] items IH]; intros s.
  - exists s. cbn. rewrite app_nil_r. repeat split; try reflexivity.
    intros h [].
  - destruct (IH (fst (file_close h s)))
      as (s' & Hrun & Hfs & Hck & Hfl & Hfm & Hsh & Htr & Hseen & Hother).
    exists s'. split.
    { cbn [close_files]. unfold bind.
      change (file_close h s) with (fst (file_close h s), Ok tt).
      exact Hrun. }
    repeat (split; [assumption|]). split; [|split].
    + rewrite Htr. cbn. now rewrite <- app_assoc.
    + intros h' Hin. cbn [map entry_file fst snd] in Hin.
      destruct (in_dec Nat.eq_dec h' (map entry_file items)) as [Hlater|Hnot].
      * rewrite (Hseen h' Hlater), file_of_closed.
        destruct (Nat.eq_dec h h') as [<-|_]; reflexivity.
      * destruct Hin as [<-|Hlater]; [|contradiction].
        rewrite (Hother h Hnot), file_of_closed.
        destruct (Nat.eq_dec h h); [reflexivity | congruence].
    + intros h' Hnot. cbn [map entry_file fst snd] in Hnot.
      rewrite (Hother h') by (intros Hx; apply Hnot; now right).
      rewrite file_of_closed.
      destruct (Nat.eq_dec h h') as [<-|_]; [|reflexivity].
      exfalso. apply Hnot. now left.
Qed.

Lemma callback_arities_app (a b : list (event T)) :
  callback_arities (a ++ b) = callback_arities a ++ callback_arities b.
Proof. unfold callback_arities. apply flat_map_app. Qed.

Lemma closes_call_nothing (items : list (string * (nat * T))) :
  callback_arities (map (fun e => @Ev_close T (entry_file e)) items) = [].
Proof.
  induction items as [|e items IH]; [reflexivity | exact IH].
Qed.

(** X10: [close] never raises and never reads: it closes the file
    object of every entry, in the order of the map, where it stands,
    and leaves the map empty, so that what was still unread is not
    handed to the callback; a second [close] changes nothing. *)
Theorem close_releases_all s :
  exists s',
    close s = (s', Ok tt)
    /\ files_map s' = []
    /\ (forall e, In e (files_map s) ->
                  file_of s' (entry_file e) = as_closed (file_of s (entry_file e)))
    /\ (forall h, ~ In h (map entry_file (files_map s)) ->
                  file_of s' h = file_of s h)
    /\ trace s' = trace s ++ map (fun e => Ev_close (entry_file e)) (files_map s)
    /\ callback_arities (trace s') = callback_arities (trace s)
    /\ close s' = (s', Ok tt).
Proof.
  destruct (close_files_closes (files_map s) s)
    as (s1 & Hrun & Hfs & Hck & Hfl & Hfm & Hsh & Htr & Hseen & Hother).
  exists (set_files_map [] s1).
  split; [unfold close, bind; now rewrite Hrun|].
  split; [reflexivity|].
  split; [intros e Hin; apply (Hseen (entry_file e)); now apply in_map|].
  split; [exact Hother|].
  split; [exact Htr|].
  split.
  - cbn [trace set_files_map].
    rewrite Htr, callback_arities_app, closes_call_nothing. apply app_nil_r.
  - unfold close, bind. cbn [files_map set_files_map close_files ret].
    reflexivity.
Qed.

(** X12: the constructor does not check [tail_lines] itself.  A
    negative value makes it raise the [ValueError] of [tail] at the
    first file it has watched, which stays open in the map; when no
    file was found to watch, the same value is accepted in silence. *)
Theorem negative_tail_lines_at_startup (filelist0 : list (string * T))
    (tail_lines sizehint0 : Z) s0 sB :
  tail_lines < 0 ->
  update_files strftime realpath (blank filelist0 sizehint0 s0) = (sB, Ok tt) ->
  (files_map sB <> [] ->
   exists s',
     __init__ strftime realpath filelist0 tail_lines sizehint0 s0
     = (s', Raise (ValueError ("invalid window value " ++ repr_int tail_lines)))
     /\ files_map s' = files_map sB
     /\ trace s' = trace sB)
  /\ (files_map sB = [] ->
      __init__ strftime realpath filelist0 tail_lines sizehint0 s0
      = (sB, Ok tt)).
Proof.
  intros Hneg Hup.
  destruct (first_update_in_place strftime realpath
              (blank filelist0 sizehint0 s0) eq_refl) as (Hplace & _).
  rewrite Hup in Hplace. cbn [fst] in Hplace.
  split.
  - intros Hsome.
    destruct (files_map sB) as [|[fid [h ty]] rest] eqn:Hmap; [congruence|].
    destruct (Hplace fid h ty) as (Hopen & Hlook);
      [rewrite Hmap; now left|].
    destruct (os_stat_found (fs sB) _ _ Hlook) as (st & Hst & _).
    eexists. split.
    + unfold __init__, bind at 1. fold (blank filelist0 sizehint0 s0).
      unfold bind at 1. rewrite Hup, Hmap. cbn [init_files].
      unfold bind at 1, bind at 1, stat at 1. rewrite Hst.
      unfold bind at 1, file_seek at 1. rewrite Hopen.
      replace (negb (tail_lines =? 0)) with true
        by (symmetry; apply negb_true_iff, Z.eqb_neq; lia).
      unfold startup_tail, tail.
      replace (tail_lines <=? 0) with true by (symmetry; apply Z.leb_le; lia).
      reflexivity.
    + split; [cbn; exact Hmap | reflexivity].
  - intros Hnone. unfold __init__, bind at 1.
    fold (blank filelist0 sizehint0 s0).
    unfold bind at 1. rewrite Hup, Hnone. reflexivity.
Qed.

End Shutdown.

Lemma negative_tail_lines_at_startup_witness :
  let sB := fst (update_files day_strftime same_path
                   (blank [("/log"%string, tt)] 1048576
                          (boot (T := unit) log_disk 0%nat))) in
  (files_map sB <> [] ->
   exists s',
     __init__ day_strftime same_path [("/log"%string, tt)] (-1) 1048576
              (boot log_disk 0%nat)
     = (s', Raise (ValueError ("invalid window value " ++ repr_int (-1))))
     /\ files_map s' = files_map sB
     /\ trace s' = trace sB)
  /\ (files_map sB = [] ->
      __init__ day_strftime same_path [("/log"%string, tt)] (-1) 1048576
               (boot log_disk 0%nat)
      = (sB, Ok tt)).
Proof.
  apply (negative_tail_lines_at_startup day_strftime same_path
           [("/log"%string, tt)] (-1) 1048576 (boot log_disk 0%nat)).
  - lia.
  - reflexivity.
Defined.

(** ** The arguments of the callback *)

Section Arity.
Context {T Time : Type}.
Variable strftime : string -> Time -> string.
Variable realpath : string -> string.
Implicit Types (s : state T Time) (h : nat).

Lemma three_only_same s s' : trace s' = trace s -> three_only s s'.
Proof.
  intros Htr. exists []. rewrite Htr, app_nil_r. split; [reflexivity|constructor].
Qed.

Lemma three_only_trans s1 s2 s3 :
  three_only s1 s2 -> three_only s2 s3 -> three_only s1 s3.
Proof.
  intros (e1 & H1 & F1) (e2 & H2 & F2). exists (e1 ++ e2).
  split; [rewrite H2, H1; now rewrite app_assoc|].
  unfold callback_arities in *. rewrite flat_map_app. now apply Forall_app.
Qed.

Lemma three_only_bind {A B : Type} (m : M T Time A) (k : A -> M T Time B)
    (Q : A -> Prop) s :
  three_only s (fst (m s)) ->
  (forall a, snd (m s) = Ok a -> Q a) ->
  (forall a s1, Q a -> three_only s1 (fst (k a s1))) ->
  three_only s (fst (bind m k s)).
Proof.
  intros Hm Hq Hk. unfold bind.
  destruct (m s) as [s1 [a|e|]]; cbn [fst snd] in *; try exact Hm.
  eapply three_only_trans; [exact Hm|]. apply Hk. now apply Hq.
Qed.

Lemma three_only_log s (l : string) : three_only s (fst (log l s)).
Proof.
  exists [Ev_log l]. split; [reflexivity|constructor].
Qed.

Lemma three_only_batch s (name : string) (ls : list bytes) (ty : T) :
  three_only s (fst (callback [Astr name; Alines ls; Ameta ty] s)).
Proof.
  exists [Ev_callback [Astr name; Alines ls; Ameta ty]].
  split; [reflexivity|]. cbn. constructor; [reflexivity|constructor].
Qed.

Lemma three_only_close s h : three_only s (fst (file_close h s)).
Proof.
  exists [Ev_close h]. split; [reflexivity|constructor].
Qed.

Lemma three_only_readlines_loop (fuel : nat) :
  forall s h (ty : T), three_only s (fst (readlines_loop fuel h ty s)).
Proof.
  induction fuel as [|fuel IH]; intros s h ty; cbn [readlines_loop].
  - now apply three_only_same.
  - unfold file_readlines.
    destruct (f_closed (file_of s h)); [now apply three_only_same|].
    destruct (take_hint _ _) as [|l ls]; [now apply three_only_same|].
    match goal with
    | |- context [callback ?args ?st] =>
        change (callback args st) with (fst (callback args st), @Ok unit tt);
        apply (three_only_trans s st); [now apply three_only_same|]
    end.
    eapply three_only_trans; [apply three_only_batch | apply IH].
Qed.

Lemma three_only_readlines s h (ty : T) :
  three_only s (fst (readlines h ty s))
  /\ (forall v, snd (readlines h ty s) = Ok v -> v = None).
Proof.
  unfold readlines.
  pose proof (three_only_readlines_loop (S (List.length (unread s h))) s h ty) as H.
  destruct (readlines_loop _ h ty s) as [s' [[]|e|]]; cbn [fst snd] in *;
    (split; [exact H|]); intros v [=]. now subst.
Qed.

Lemma three_only_unwatch s h fid : three_only s (fst (unwatch h fid s)).
Proof.
  unfold unwatch.
  apply three_only_bind with (Q := fun _ => True);
    [apply three_only_log | trivial |].
  intros _ s1 _. unfold with_file.
  destruct (f_closed (file_of s1 h)); [now apply three_only_same|].
  match goal with
  | |- context [match ?body s1 with _ => _ end] =>
      assert (Hbody : three_only s1 (fst (body s1)))
  end.
  { apply three_only_bind with (Q := fun _ => True).
    - unfold files_map_item. destruct (dict_get fid (files_map s1));
        now apply three_only_same.
    - trivial.
    - intros info s2 _.
      apply three_only_bind with (Q := fun v => v = None).
      + apply three_only_readlines.
      + apply three_only_readlines.
      + intros v s3 ->.
        apply three_only_bind with (Q := fun _ => True); [|trivial|].
        * unfold files_map_del. destruct (dict_get fid (files_map s3));
            now apply three_only_same.
        * intros _ s4 _. now apply three_only_same. }
  match goal with
  | |- context [match ?body s1 with _ => _ end] =>
      destruct (body s1) as [s5 [a|e|]]
  end; cbn [fst] in *; try exact Hbody;
    (eapply three_only_trans; [exact Hbody | apply three_only_close]).
Qed.

Lemma three_only_watch s fname (ty : T) : three_only s (fst (watch fname ty s)).
Proof.
  destruct (os_open_cases (fs s) fname) as [(k & Hopen & Hk)|(e & Hopen)].
  - rewrite (watch_opens s fname k ty Hk Hopen). cbn [fst].
    exists [Ev_log ("watching logfile " ++ fname)].
    split; [reflexivity|constructor].
  - rewrite (watch_open_fails s fname e ty Hopen). now apply three_only_same.
Qed.

Lemma three_only_call_watch s (args : list (pyarg T)) :
  three_only s (fst (call_watch args s)).
Proof.
  unfold call_watch.
  destruct args as [|[fname| |] [|[| |ty] [|]]];
    try (now apply three_only_same).
  apply three_only_watch.
Qed.

Lemma three_only_check_existent (items : list (string * (nat * T))) :
  forall s, three_only s (fst (check_existent items s)).
Proof.
  induction items as [|[fid [h ty]] items IH]; intros s; cbn [check_existent].
  - now apply three_only_same.
  - apply three_only_bind with (Q := fun _ => True); [|trivial|intros; apply IH].
    unfold stat.
    destruct (os_stat (fs s) (f_name (file_of s h))) as [st|[| e | e | | |]|];
      try (now apply three_only_same).
    + destruct (negb (String.eqb fid (get_file_id st)));
        [|now apply three_only_same].
      apply three_only_bind with (Q := fun _ => True);
        [apply three_only_unwatch | trivial
         | intros; apply three_only_call_watch].
    + destruct (errno_eqb e ENOENT);
        [apply three_only_unwatch | now apply three_only_same].
    + destruct (errno_eqb e ENOENT);
        [apply three_only_unwatch | now apply three_only_same].
Qed.

Lemma three_only_add_new (ls : list (string * string * T)) :
  forall s, three_only s (fst (add_new ls s)).
Proof.
  induction ls as [|[[fid fname] ty] ls IH]; intros s; cbn [add_new].
  - now apply three_only_same.
  - apply three_only_bind with (Q := fun _ => True); [|trivial|intros; apply IH].
    destruct (negb (dict_mem fid (files_map s)));
      [apply three_only_call_watch | now apply three_only_same].
Qed.

Lemma three_only_update_files s :
  three_only s (fst (update_files strftime realpath s)).
Proof.
  unfold update_files.
  apply three_only_bind with (Q := fun _ => True); [|trivial|].
  - rewrite scan_filelist_keeps_state. now apply three_only_same.
  - intros ls s1 _.
    apply three_only_bind with (Q := fun _ => True);
      [apply three_only_check_existent | trivial
       | intros; apply three_only_add_new].
Qed.

Lemma three_only_read_all (items : list (string * (nat * T))) :
  forall s, three_only s (fst (read_all items s)).
Proof.
  induction items as [|[fid [h ty]] items IH]; intros s; cbn [read_all].
  - now apply three_only_same.
  - apply three_only_bind with (Q := fun _ => True);
      [apply three_only_readlines | trivial | intros; apply IH].
Qed.

Lemma three_only_cycle s : three_only s (fst (cycle strftime realpath s)).
Proof.
  unfold cycle.
  apply three_only_bind with (Q := fun _ => True);
    [apply three_only_update_files | trivial
     | intros; apply three_only_read_all].
Qed.

(** X13: whatever the state and the environments, every call of the
    callback that [loop], a turn of it, [readlines] or [unwatch] makes
    has exactly three arguments; so the call with two arguments of line
    216, after the last read of [unwatch], is never made. *)
Theorem loop_calls_with_three_arguments s :
  (forall blocking envs,
      three_only s (fst (loop strftime realpath blocking envs s)))
  /\ three_only s (fst (cycle strftime realpath s))
  /\ (forall h (ty : T), three_only s (fst (readlines h ty s)))
  /\ (forall h fid, three_only s (fst (unwatch h fid s))).
Proof.
  split; [|split; [apply three_only_cycle
                  |split; [intros; apply three_only_readlines
                          |intros; apply three_only_unwatch]]].
  intros blocking envs. revert s.
  induction envs as [|env envs IH]; intros s; cbn [loop].
  - apply three_only_bind with (Q := fun _ => True);
      [apply three_only_cycle | trivial |].
    intros _ s1 _. destruct (negb blocking); now apply three_only_same.
  - apply three_only_bind with (Q := fun _ => True);
      [apply three_only_cycle | trivial |].
    intros _ s1 _. destruct (negb blocking); [now apply three_only_same|].
    apply three_only_bind with (Q := fun _ => True);
      [now apply three_only_same | trivial | intros; apply IH].
Qed.

End Arity.

(** ** The cursors only move forward *)

Section Forward.
Context {T Time : Type}.
Variable strftime : string -> Time -> string.
Variable realpath : string -> string.
Implicit Types (s : state T Time) (h : nat).

Lemma forward_same s s' : handles s' = handles s -> moves_forward s s'.
Proof.
  intros Hh. unfold moves_forward, file_of. rewrite Hh.
  split; [lia|]. intros h _. repeat split; [lia | trivial].
Qed.

Lemma forward_trans s1 s2 s3 :
  moves_forward s1 s2 -> moves_forward s2 s3 -> moves_forward s1 s3.
Proof.
  intros (L1 & H1) (L2 & H2). split; [lia|].
  intros h Hh. destruct (H1 h Hh) as (N1 & K1 & P1 & C1).
  destruct (H2 h ltac:(lia)) as (N2 & K2 & P2 & C2).
  repeat split; [congruence | congruence | lia | auto].
Qed.

Lemma forward_bind {A B : Type} (m : M T Time A) (k : A -> M T Time B) s :
  moves_forward s (fst (m s)) ->
  (forall a s1, moves_forward s1 (fst (k a s1))) ->
  moves_forward s (fst (bind m k s)).
Proof.
  intros Hm Hk. unfold bind.
  destruct (m s) as [s1 [a|e|]]; cbn [fst] in *; try exact Hm.
  eapply forward_trans; [exact Hm | apply Hk].
Qed.

(** One file object replaced by a later stage of itself. *)
Lemma forward_set s s' h (f' : pyfile) :
  handles s' = set_nth h f' (handles s) ->
  f_name f' = f_name (file_of s h) ->
  f_key f' = f_key (file_of s h) ->
  f_pos (file_of s h) <= f_pos f' ->
  (f_closed (file_of s h) = true -> f_closed f' = true) ->
  moves_forward s s'.
Proof.
  intros Hh Hn Hk Hp Hc. unfold moves_forward. rewrite Hh, length_set_nth.
  split; [lia|]. intros h' Hlt.
  assert (Hf : file_of s' h' = if Nat.eq_dec h h' then f' else file_of s h').
  { unfold file_of. rewrite Hh. destruct (Nat.eq_dec h h') as [<-|Hne].
    - now apply nth_set_nth_same.
    - now apply nth_set_nth_other. }
  rewrite Hf. destruct (Nat.eq_dec h h') as [<-|Hne].
  - auto.
  - repeat split; [lia | trivial].
Qed.

Lemma forward_close s h : moves_forward s (fst (file_close h s)).
Proof.
  apply forward_set with (h := h) (f' := as_closed (file_of s h));
    try reflexivity; cbn; first [lia | auto].
Qed.

Lemma forward_readlines_loop (fuel : nat) :
  forall s h (ty : T), moves_forward s (fst (readlines_loop fuel h ty s)).
Proof.
  induction fuel as [|fuel IH]; intros s h ty; cbn [readlines_loop].
  - now apply forward_same.
  - unfold file_readlines.
    destruct (f_closed (file_of s h)) eqn:Hc; [now apply forward_same|].
    set (lines := take_hint _ _).
    set (s1 := set_handles _ s).
    assert (H1 : moves_forward s s1).
    { apply forward_set with (h := h)
        (f' := with_pos (file_of s h)
                 (f_pos (file_of s h)
                  + Z.of_nat (List.length (List.concat lines))));
        try reflexivity; cbn; first [lia | auto]. }
    destruct lines as [|l ls]; [exact H1|].
    change (callback ?args s1) with (fst (callback args s1), @Ok unit tt).
    cbv beta iota.
    eapply forward_trans; [exact H1|].
    eapply forward_trans; [|apply IH]. now apply forward_same.
Qed.

Lemma forward_readlines s h (ty : T) :
  moves_forward s (fst (readlines h ty s)).
Proof.
  unfold readlines.
  pose proof (forward_readlines_loop (S (List.length (unread s h))) s h ty) as H.
  destruct (readlines_loop _ h ty s) as [s' [[]|e|]]; exact H.
Qed.

Lemma forward_unwatch s h fid : moves_forward s (fst (unwatch h fid s)).
Proof.
  unfold unwatch.
  apply forward_bind; [now apply forward_same|].
  intros _ s1. unfold with_file.
  destruct (f_closed (file_of s1 h)); [now apply forward_same|].
  match goal with
  | |- context [match ?body s1 with _ => _ end] =>
      assert (Hbody : moves_forward s1 (fst (body s1)))
  end.
  { apply forward_bind.
    - unfold files_map_item. destruct (dict_get fid (files_map s1));
        now apply forward_same.
    - intros info s2. apply forward_bind; [apply forward_readlines|].
      intros v s3. apply forward_bind.
      + unfold files_map_del. destruct (dict_get fid (files_map s3));
          now apply forward_same.
      + intros _ s4. destruct v as [[|l ls]|]; now apply forward_same. }
  match goal with
  | |- context [match ?body s1 with _ => _ end] =>
      destruct (body s1) as [s5 [a|e|]]
  end; cbn [fst] in *; try exact Hbody;
    (eapply forward_trans; [exact Hbody | apply forward_close]).
Qed.

Lemma forward_watch s fname (ty : T) : moves_forward s (fst (watch fname ty s)).
Proof.
  destruct (os_open_cases (fs s) fname) as [(k & Hopen & Hk)|(e & Hopen)].
  - rewrite (watch_opens s fname k ty Hk Hopen). cbn [fst].
    unfold moves_forward, file_of. cbn [handles after_watch].
    rewrite length_app. split; [lia|]. intros h Hh.
    rewrite app_nth1 by exact Hh. repeat split; [lia | trivial].
  - rewrite (watch_open_fails s fname e ty Hopen). now apply forward_same.
Qed.

Lemma forward_call_watch s (args : list (pyarg T)) :
  moves_forward s (fst (call_watch args s)).
Proof.
  unfold call_watch.
  destruct args as [|[fname| |] [|[| |ty] [|]]];
    try (now apply forward_same).
  apply forward_watch.
Qed.

Lemma forward_check_existent (items : list (string * (nat * T))) :
  forall s, moves_forward s (fst (check_existent items s)).
Proof.
  induction items as [|[fid [h ty]] items IH]; intros s; cbn [check_existent].
  - now apply forward_same.
  - apply forward_bind; [|intros; apply IH].
    unfold stat.
    destruct (os_stat (fs s) (f_name (file_of s h))) as [st|[| e | e | | |]|];
      try (now apply forward_same).
    + destruct (negb (String.eqb fid (get_file_id st)));
        [|now apply forward_same].
      apply forward_bind; [apply forward_unwatch
                          | intros; apply forward_call_watch].
    + destruct (errno_eqb e ENOENT);
        [apply forward_unwatch | now apply forward_same].
    + destruct (errno_eqb e ENOENT);
        [apply forward_unwatch | now apply forward_same].
Qed.

Lemma forward_add_new (ls : list (string * string * T)) :
  forall s, moves_forward s (fst (add_new ls s)).
Proof.
  induction ls as [|[[fid fname] ty] ls IH]; intros s; cbn [add_new].
  - now apply forward_same.
  - apply forward_bind; [|intros; apply IH].
    destruct (negb (dict_mem fid (files_map s)));
      [apply forward_call_watch | now apply forward_same].
Qed.

Lemma forward_update_files s :
  moves_forward s (fst (update_files strftime realpath s)).
Proof.
  unfold update_files. apply forward_bind.
  - rewrite scan_filelist_keeps_state. now apply forward_same.
  - intros ls s1. apply forward_bind;
      [apply forward_check_existent | intros; apply forward_add_new].
Qed.

Lemma forward_read_all (items : list (string * (nat * T))) :
  forall s, moves_forward s (fst (read_all items s)).
Proof.
  induction items as [|[fid [h ty]] items IH]; intros s; cbn [read_all].
  - now apply forward_same.
  - apply forward_bind; [apply forward_readlines | intros; apply IH].
Qed.

Lemma forward_cycle s : moves_forward s (fst (cycle strftime realpath s)).
Proof.
  unfold cycle. apply forward_bind;
    [apply forward_update_files | intros; apply forward_read_all].
Qed.

(** X14: through a turn of the loop, and so through [loop] whatever
    the environments do, a file object is never lost, never renamed or
    moved to another inode, and never opened again once closed, and its
    position never decreases: the cursor of a watched file only moves
    forward. *)
Theorem loop_moves_forward s :
  moves_forward s (fst (cycle strftime realpath s))
  /\ (forall blocking envs,
         moves_forward s (fst (loop strftime realpath blocking envs s))).
Proof.
  split; [apply forward_cycle|].
  intros blocking envs. revert s.
  induction envs as [|env envs IH]; intros s; cbn [loop].
  - apply forward_bind; [apply forward_cycle|].
    intros _ s1. destruct (negb blocking); now apply forward_same.
  - apply forward_bind; [apply forward_cycle|].
    intros _ s1. destruct (negb blocking); [now apply forward_same|].
    apply forward_bind; [now apply forward_same | intros; apply IH].
Qed.

End Forward.

(** ** A map that stays sound *)

Section DictFacts.
Context {V : Type}.
Implicit Types (d : list (string * V)).

Lemma dict_del_in (k : string) d (e : string * V) :
  In e (dict_del k d) -> In e d.
Proof.
  induction d as [|[k' v'] d IH]; cbn; [tauto|].
  destruct (String.eqb k k'); cbn; [tauto|]. intros [<-|Hin]; auto.
Qed.

Lemma dict_del_nodup {B : Type} (f : string * V -> B) (k : string) d :
  NoDup (map f d) -> NoDup (map f (dict_del k d)).
Proof.
  induction d as [|[k' v'] d IH]; cbn; [trivial|].
  intros Hnd. inversion Hnd as [|? ? Hnotin Hnd']; subst.
  destruct (String.eqb k k'); [exact Hnd'|].
  cbn. constructor; [|now apply IH].
  intros Hin. apply Hnotin. apply in_map_iff in Hin as (e & He & Hin).
  apply in_map_iff. exists e. split; [exact He | now apply dict_del_in in Hin].
Qed.

Lemma dict_del_key (k : string) d (e : string * V) :
  NoDup (map fst d) -> In e (dict_del k d) -> fst e <> k.
Proof.
  induction d as [|[k' v'] d IH]; cbn; [tauto|].
  intros Hnd. inversion Hnd as [|? ? Hnotin Hnd']; subst.
  destruct (String.eqb_spec k k') as [->|Hne].
  - intros Hin Heq. apply Hnotin. rewrite <- Heq. now apply in_map.
  - intros [<-|Hin]; [cbn; congruence | now apply IH].
Qed.

Lemma dict_del_keeps (k : string) d (e : string * V) :
  In e d -> fst e <> k -> In e (dict_del k d).
Proof.
  induction d as [|[k' v'] d IH]; cbn; [tauto|].
  destruct (String.eqb_spec k k') as [->|Hne].
  - intros [<-|Hin] Hk; [cbn in Hk; congruence | exact Hin].
  - intros [<-|Hin] Hk; [now left | right; now apply IH].
Qed.

Lemma dict_get_in (k : string) (v : V) d :
  NoDup (map fst d) -> In (k, v) d -> dict_get k d = Some v.
Proof.
  induction d as [|[k' v'] d IH]; cbn; [tauto|].
  intros Hnd. inversion Hnd as [|? ? Hnotin Hnd']; subst.
  destruct (String.eqb_spec k k') as [->|Hne].
  - intros [[= ->]|Hin]; [reflexivity|].
    exfalso. apply Hnotin. now apply (in_map fst) in Hin.
  - intros [[= ? ?]|Hin]; [congruence | now apply IH].
Qed.

Lemma dict_set_key_in (k a : string) (v : V) d :
  In a (map fst (dict_set k v d)) -> a = k \/ In a (map fst d).
Proof.
  induction d as [|[k' v'] d IH]; cbn.
  - intros [<-|[]]. now left.
  - destruct (String.eqb_spec k k') as [->|Hne]; cbn.
    + intros [<-|Hin]; [right; now left | right; now right].
    + intros [<-|Hin]; [right; now left|].
      destruct (IH Hin) as [?|?]; [now left | right; now right].
Qed.

Lemma dict_set_keys (k : string) (v : V) d :
  NoDup (map fst d) -> NoDup (map fst (dict_set k v d)).
Proof.
  induction d as [|[k' v'] d IH]; cbn.
  - intros _. constructor; [intros []|constructor].
  - intros Hnd. inversion Hnd as [|? ? Hnotin Hnd']; subst.
    destruct (String.eqb_spec k k') as [->|Hne]; cbn; [exact Hnd|].
    constructor; [|now apply IH].
    intros Hin. apply dict_set_key_in in Hin as [Heq|Hin]; [congruence|].
    now apply Hnotin.
Qed.

Lemma dict_set_values {B : Type} (f : V -> B) (k : string) (v : V) d :
  NoDup (map (fun e => f (snd e)) d) ->
  (forall e, In e d -> f (snd e) <> f v) ->
  NoDup (map (fun e => f (snd e)) (dict_set k v d)).
Proof.
  induction d as [|[k' v'] d IH]; cbn.
  - intros _ _. constructor; [intros []|constructor].
  - intros Hnd Hnew. inversion Hnd as [|? ? Hnotin Hnd']; subst.
    destruct (String.eqb k k'); cbn.
    + constructor; [|exact Hnd'].
      intros Hin. apply in_map_iff in Hin as (e & He & Hin).
      apply (Hnew e); [now right | exact He].
    + constructor; [|apply IH; [exact Hnd' | intros e He; apply Hnew; now right]].
      intros Hin. apply in_map_iff in Hin as ([a b] & He & Hin). cbn in He.
      apply in_dict_set in Hin as [->|Hin].
      * apply (Hnew (k', v')); [now left | cbn; congruence].
      * apply Hnotin. apply in_map_iff. exists (a, b). split; [exact He | exact Hin].
Qed.

Lemma nodup_map_inj {A B : Type} (f : A -> B) (l : list A) (a b : A) :
  NoDup (map f l) -> In a l -> In b l -> f a = f b -> a = b.
Proof.
  induction l as [|x l IH]; cbn; [tauto|].
  intros Hnd. inversion Hnd as [|? ? Hnotin Hnd']; subst.
  intros [<-|Ha] [<-|Hb] Heq; try reflexivity.
  - exfalso. apply Hnotin. rewrite Heq. now apply in_map.
  - exfalso. apply Hnotin. rewrite <- Heq. now apply in_map.
  - now apply IH.
Qed.

End DictFacts.

Section Sound.
Context {T Time : Type}.
Variable strftime : string -> Time -> string.
Variable realpath : string -> string.
Implicit Types (s : state T Time) (h : nat).

Lemma sound_frame s s' :
  sound s ->
  files_map s' = files_map s ->
  (forall e, In e (files_map s) ->
             f_closed (file_of s' (entry_file e)) = false
             /\ 0 <= f_pos (file_of s' (entry_file e))) ->
  sound s'.
Proof.
  intros (Hk & Hh & _) Hmap Hfiles. unfold sound. rewrite Hmap.
  repeat split; try assumption; now apply Hfiles.
Qed.

Lemma unwatch_sound s fid h (ty : T) :
  sound s ->
  In (fid, (h, ty)) (files_map s) ->
  exists evs,
    unwatch h fid s = (after_unwatch s h fid evs, Ok tt)
    /\ sound (after_unwatch s h fid evs).
Proof.
  intros (Hk & Hh & Hfiles) Hin.
  destruct (Hfiles _ Hin) as (Hopen & Hpos). cbn [entry_file fst snd] in *.
  destruct (unwatch_flushes s h fid ty (dict_get_in _ _ _ Hk Hin) Hopen Hpos)
    as (batches & Hrun & _).
  eexists. split; [exact Hrun|].
  unfold sound. cbn [files_map after_unwatch].
  split; [now apply dict_del_nodup|]. split; [now apply dict_del_nodup|].
  intros e He.
  assert (Hne : entry_file e <> h).
  { intros Heq.
    apply (dict_del_key fid (files_map s) e Hk He).
    assert (e = (fid, (h, ty))) as ->; [|reflexivity].
    apply (nodup_map_inj entry_file (files_map s)); try assumption.
    now apply dict_del_in in He. }
  unfold file_of. cbn [handles after_unwatch].
  rewrite nth_set_nth_other by congruence.
  apply Hfiles. now apply dict_del_in in He.
Qed.

Lemma watch_sound s fname (ty : T) :
  sound s ->
  sound (fst (watch fname ty s)) /\ benign (snd (watch fname ty s)).
Proof.
  intros (Hk & Hh & Hfiles).
  destruct (os_open_cases (fs s) fname) as [(k & Hopen & Hlook)|(e & Hopen)].
  - rewrite (watch_opens s fname k ty Hlook Hopen). cbn [fst snd].
    split; [|exact I].
    assert (Hin_store : forall e, In e (files_map s) ->
                                  (entry_file e < List.length (handles s))%nat).
    { intros e He. apply open_file_in_store. now apply Hfiles. }
    unfold sound. cbn [files_map after_watch].
    split; [now apply dict_set_keys|]. split.
    + apply (dict_set_values (fun v : nat * T => fst v)); [exact Hh|].
      intros e He. cbn [fst]. specialize (Hin_store e He).
      unfold entry_file in Hin_store. lia.
    + intros [a [b c]] He. cbn [entry_file fst snd].
      apply in_dict_set in He as [[= -> ->]|He].
      * unfold file_of. cbn [handles after_watch]. rewrite nth_middle.
        cbn. split; [reflexivity | lia].
      * specialize (Hin_store _ He). cbn [entry_file fst snd] in Hin_store.
        unfold file_of. cbn [handles after_watch].
        rewrite app_nth1 by exact Hin_store.
        apply (Hfiles _ He).
  - rewrite (watch_open_fails s fname e ty Hopen). cbn [fst snd].
    split; [exact (conj Hk (conj Hh Hfiles))|].
    destruct (errno_eqb e ENOENT); exact I.
Qed.

Lemma call_watch_sound s (args : list (pyarg T)) :
  sound s ->
  sound (fst (call_watch args s)) /\ benign (snd (call_watch args s)).
Proof.
  intros Hs. unfold call_watch.
  destruct args as [|[fname| |] [|[| |ty] [|]]];
    try (split; [exact Hs | exact I]).
  now apply watch_sound.
Qed.

Lemma sound_bind {A B : Type} (m : M T Time A) (k : A -> M T Time B) s
    (Q : state T Time -> Prop) :
  sound (fst (m s)) /\ benign (snd (m s)) ->
  (forall a, snd (m s) = Ok a -> Q (fst (m s))) ->
  (forall a s1, sound s1 -> Q s1 ->
                sound (fst (k a s1)) /\ benign (snd (k a s1))) ->
  sound (fst (bind m k s)) /\ benign (snd (bind m k s)).
Proof.
  intros (Hs & Hb) Hq Hk. unfold bind.
  destruct (m s) as [s1 [a|e|]]; cbn [fst snd] in *;
    try (split; assumption).
  apply Hk; [exact Hs|]. now apply (Hq a).
Qed.

Lemma check_existent_sound (items : list (string * (nat * T))) :
  forall s,
    sound s ->
    NoDup (map fst items) ->
    (forall e, In e items -> In e (files_map s)) ->
    sound (fst (check_existent items s))
    /\ benign (snd (check_existent items s)).
Proof.
  induction items as [|[fid [h ty]] items IH]; intros s Hs Hnd Hsub;
    cbn [check_existent].
  - split; [exact Hs | exact I].
  - inversion Hnd as [|? ? Hfresh Hnd']; subst.
    assert (Hhead : In (fid, (h, ty)) (files_map s)) by (apply Hsub; now left).
    assert (Hlater : forall e, In e items ->
                               In e (dict_del fid (files_map s))).
    { intros e He. apply dict_del_keeps; [apply Hsub; now right|].
      intros Heq. apply Hfresh. rewrite <- Heq. now apply in_map. }
    destruct (unwatch_sound s fid h ty Hs Hhead) as (evs & Hun & Hsound).
    apply sound_bind
      with (Q := fun s1 => forall e, In e items -> In e (files_map s1)).
    + unfold stat.
      destruct (fs_lookup (fs s) (f_name (file_of s h))) as [e|k] eqn:Hlook.
      * rewrite (os_stat_missing _ _ _ Hlook).
        destruct (errno_eqb e ENOENT).
        -- rewrite Hun. split; [exact Hsound | exact I].
        -- split; [exact Hs | exact I].
      * destruct (os_stat_found _ _ _ Hlook) as (st & Hst & _). rewrite Hst.
        destruct (negb (String.eqb fid (get_file_id st))).
        -- unfold bind. rewrite Hun. now apply call_watch_sound.
        -- split; [exact Hs | exact I].
    + intros _ _. unfold stat.
      destruct (fs_lookup (fs s) (f_name (file_of s h))) as [e|k] eqn:Hlook.
      * rewrite (os_stat_missing _ _ _ Hlook).
        destruct (errno_eqb e ENOENT).
        -- rewrite Hun. exact Hlater.
        -- intros e' He'. apply Hsub. now right.
      * destruct (os_stat_found _ _ _ Hlook) as (st & Hst & _). rewrite Hst.
        destruct (negb (String.eqb fid (get_file_id st))).
        -- unfold bind. rewrite Hun. cbn [call_watch raise fst]. exact Hlater.
        -- intros e' He'. apply Hsub. now right.
    + intros _ s1 Hs1 Hsub1. now apply IH.
Qed.

Lemma add_new_sound (ls : list (string * string * T)) :
  forall s,
    sound s -> sound (fst (add_new ls s)) /\ benign (snd (add_new ls s)).
Proof.
  induction ls as [|[[fid fname] ty] ls IH]; intros s Hs; cbn [add_new].
  - split; [exact Hs | exact I].
  - apply sound_bind with (Q := fun _ => True); [|trivial|intros; now apply IH].
    destruct (negb (dict_mem fid (files_map s)));
      [now apply call_watch_sound | split; [exact Hs | exact I]].
Qed.

Lemma resolve_name_benign name s : benign (snd (resolve_name strftime name s)).
Proof.
  unfold resolve_name.
  destruct (contains "{" (list_ascii_of_string name)); [|exact I].
  destruct (re_match template_re (list_ascii_of_string name)); exact I.
Qed.

Lemma scan_filelist_benign (entries : list (string * T)) :
  forall ls s, benign (snd (scan_filelist strftime realpath entries ls s)).
Proof.
  induction entries as [|[name ty] entries IH]; intros ls s;
    cbn [scan_filelist]; [exact I|].
  unfold bind.
  pose proof (resolve_name_benign name s) as Hb.
  pose proof (resolve_name_keeps_state strftime name s) as Hkeep.
  destruct (resolve_name strftime name s) as [s0 [p|e|]];
    cbn [fst snd] in *; try exact Hb. subst s0.
  unfold stat.
  destruct (fs_lookup (fs s) (realpath p)) as [e|k] eqn:Hlook.
  - rewrite (os_stat_missing _ _ _ Hlook).
    destruct (negb (errno_eqb e ENOENT)); [exact I | apply IH].
  - destruct (os_stat_found _ _ _ Hlook) as (st & Hst & _). rewrite Hst.
    destruct (negb (st_isreg st)); apply IH.
Qed.

Lemma update_files_sound s :
  sound s ->
  sound (fst (update_files strftime realpath s))
  /\ benign (snd (update_files strftime realpath s)).
Proof.
  intros Hs. unfold update_files.
  apply sound_bind with (Q := fun _ => True); [|trivial|].
  - rewrite scan_filelist_keeps_state. split; [exact Hs|].
    apply scan_filelist_benign.
  - intros ls s1 Hs1 _.
    apply sound_bind with (Q := fun _ => True); [|trivial|].
    + apply check_existent_sound; [exact Hs1 | apply Hs1 | trivial].
    + intros _ s2 Hs2 _. now apply add_new_sound.
Qed.

Lemma read_all_sound (items : list (string * (nat * T))) :
  forall s,
    sound s ->
    (forall e, In e items -> In e (files_map s)) ->
    exists s', read_all items s = (s', Ok tt) /\ sound s'.
Proof.
  induction items as [|[fid [h ty]] items IH]; intros s Hs Hsub.
  - exists s. split; [reflexivity | exact Hs].
  - pose proof Hs as (_ & _ & Hfiles).
    destruct (Hfiles (fid, (h, ty)) (Hsub _ (or_introl eq_refl)))
      as (Hopen & Hpos). cbn [entry_file fst snd] in *.
    destruct (readlines_reads s h ty Hopen Hpos) as (batches & Hrun & _).
    set (s1 := after_read s h _) in Hrun.
    assert (Hs1 : sound s1).
    { apply (sound_frame s); [exact Hs | reflexivity|].
      intros e He. destruct (Nat.eq_dec h (entry_file e)) as [<-|Hne].
      - unfold s1. rewrite file_of_after_read_same by exact Hopen.
        cbn. split; [exact Hopen | lia].
      - unfold s1. rewrite file_of_after_read_other by exact Hne.
        now apply Hfiles. }
    destruct (IH s1 Hs1) as (s' & Hrest & Hs').
    { intros e He. apply Hsub. now right. }
    exists s'. split; [|exact Hs'].
    cbn [read_all]. unfold bind. rewrite Hrun. exact Hrest.
Qed.

Lemma cycle_sound s :
  sound s ->
  sound (fst (cycle strftime realpath s))
  /\ benign (snd (cycle strftime realpath s)).
Proof.
  intros Hs. unfold cycle.
  apply sound_bind with (Q := fun _ => True);
    [now apply update_files_sound | trivial |].
  intros _ s1 Hs1 _.
  destruct (read_all_sound (files_map s1) s1 Hs1 (fun e H => H))
    as (s' & Hrun & Hs').
  rewrite Hrun. split; [exact Hs' | exact I].
Qed.

Lemma sound_value_bind {A B : Type} (m : M T Time A) (k : A -> M T Time B)
    (Q : A -> Prop) s :
  sound (fst (m s)) ->
  (forall a, snd (m s) = Ok a -> Q a) ->
  (forall a s1, sound s1 -> Q a -> sound (fst (k a s1))) ->
  sound (fst (bind m k s)).
Proof.
  intros Hs Hq Hk. unfold bind.
  destruct (m s) as [s1 [a|e|]]; cbn [fst snd] in *; try exact Hs.
  apply Hk; [exact Hs | now apply Hq].
Qed.

Lemma file_seek_sound s h (pos : Z) :
  sound s -> 0 <= pos -> sound (fst (file_seek h pos s)).
Proof.
  intros Hs Hpos. unfold file_seek.
  destruct (f_closed (file_of s h)) eqn:Hc; [exact Hs|]. cbn [fst].
  pose proof (open_file_in_store s h Hc) as Hin.
  apply (sound_frame s); [exact Hs | reflexivity|].
  intros e He. destruct (Nat.eq_dec h (entry_file e)) as [<-|Hne].
  - rewrite file_of_set_same by exact Hin. cbn. split; assumption.
  - rewrite file_of_set_other by exact Hne. now apply Hs.
Qed.

Lemma init_files_sound (tail_lines : Z) (items : list (string * (nat * T))) :
  forall s, sound s -> sound (fst (init_files tail_lines items s)).
Proof.
  induction items as [|[fid [h ty]] items IH]; intros s Hs; cbn [init_files].
  - exact Hs.
  - apply sound_value_bind with (Q := fun _ => True);
      [|trivial|intros; now apply IH].
    apply sound_value_bind with (Q := fun st => 0 <= st_size st).
    + exact Hs.
    + unfold stat, os_stat. cbn [snd].
      destruct (fs_lookup (fs s) (f_name (file_of s h))); [discriminate|].
      intros st [= <-]. cbn. lia.
    + intros st s1 Hs1 Hsize.
      apply sound_value_bind with (Q := fun _ => True);
        [now apply file_seek_sound | trivial |].
      intros _ s2 Hs2 _.
      destruct (negb (tail_lines =? 0)); [|exact Hs2].
      destruct (startup_tail (f_name (file_of s h)) tail_lines s2)
        as [s3 r] eqn:Etail.
      destruct (startup_tail_frame _ _ _ _ _ Etail) as (_ & Hh & Hm).
      cbn [fst]. apply (sound_frame s2); [exact Hs2 | exact Hm|].
      intros e He. unfold file_of. rewrite Hh. now apply Hs2.
Qed.

Lemma loop_unfold (blocking : bool) (envs : list (filesystem * Time)) s :
  loop strftime realpath blocking envs s
  = match cycle strftime realpath s with
    | (s1, Ok _) =>
        if negb blocking then (s1, Ok tt)
        else match envs with
             | [] => (s1, Diverge)
             | env :: rest =>
                 loop strftime realpath blocking rest (fst (sleep env s1))
             end
    | (s1, Raise e) => (s1, Raise e)
    | (s1, Diverge) => (s1, Diverge)
    end.
Proof.
  destruct envs; cbn [loop]; unfold bind;
    destruct (cycle strftime realpath s) as [s1 [[]|e|]]; try reflexivity;
    destruct (negb blocking); reflexivity.
Qed.

Lemma sleep_sound (env : filesystem * Time) s :
  sound s -> sound (fst (sleep env s)).
Proof. intros Hs. exact Hs. Qed.

Lemma constructor_sound (filelist0 : list (string * T)) (tail_lines : Z)
      (sizehint0 : Z) s0 :
  sound (fst (__init__ strftime realpath filelist0 tail_lines sizehint0 s0)).
Proof.
  unfold __init__.
  apply sound_value_bind with (Q := fun _ => True); [|trivial|].
  { cbn. split; [constructor|]. split; [constructor|]. intros e []. }
  intros _ s1 Hs1 _.
  apply sound_value_bind with (Q := fun _ => True);
    [now apply update_files_sound | trivial |].
  intros _ s2 Hs2 _. now apply init_files_sound.
Qed.

(** X15: the map of a watcher is sound from its construction on, and
    every turn of the loop keeps it so, whatever the environment does
    to the files: each identity has one entry, each entry its own file
    object, open and at a position that is not negative.  A turn on a
    sound map ends with a value or with an exception of [os.stat], of
    [open], of the pattern of line 151 or of the call of line 179; it
    never raises [ValueError] for a closed file or [KeyError] for a
    missing entry, and its [while] loops end. *)
Theorem map_stays_sound :
  (forall filelist0 tail_lines sizehint0 s0,
      sound (fst (__init__ strftime realpath filelist0 tail_lines
                           sizehint0 s0)))
  /\ (forall s,
         sound s ->
         sound (fst (cycle strftime realpath s))
         /\ benign (snd (cycle strftime realpath s)))
  /\ (forall envs blocking s,
         sound s ->
         sound (fst (loop strftime realpath blocking envs s))
         /\ (benign (snd (loop strftime realpath blocking envs s))
             \/ (blocking = true
                 /\ snd (loop strftime realpath blocking envs s) = Diverge))).
Proof.
  split; [|split].
  - intros filelist0 tail_lines sizehint0 s0. apply constructor_sound.
  - intros s Hs. now apply cycle_sound.
  - induction envs as [|env envs IH]; intros blocking s Hs;
      rewrite loop_unfold;
      destruct (cycle_sound s Hs) as (Hs1 & Hb1);
      destruct (cycle strftime realpath s) as [s1 [[]|err|]];
      cbn [fst snd] in *; try (split; [exact Hs1 | now left]).
    + destruct blocking; cbn [negb fst snd];
        split; try exact Hs1; [right; now split | now left].
    + destruct blocking; cbn [negb fst snd];
        [|split; [exact Hs1 | now left]].
      apply IH. exact Hs1.
Qed.

End Sound.

Lemma map_stays_sound_witness :
  sound started
  /\ sound (fst (cycle day_strftime same_path woke_rotated))
  /\ benign (snd (cycle day_strftime same_path woke_rotated))
  /\ sound (fst (loop day_strftime same_path true [(grown_disk, 1%nat)]
                      started)).
Proof.
  pose proof (@map_stays_sound unit nat day_strftime same_path)
    as (Hinit & Hcycle & Hloop).
  pose proof (Hinit [("/log"%string, tt)] 0 1048576 (boot log_disk 0%nat))
    as Hstart.
  change (sound started) in Hstart.
  pose proof (sleep_sound (rotated_disk, 1%nat) started Hstart) as Hwoke.
  change (sound woke_rotated) in Hwoke.
  split; [exact Hstart|].
  split; [exact (proj1 (Hcycle woke_rotated Hwoke))|].
  split; [exact (proj2 (Hcycle woke_rotated Hwoke))|].
  exact (proj1 (Hloop [(grown_disk, 1%nat)] true started Hstart)).
Defined.

(** ** A turn reads every watched file to its end *)

Section Drain.
Context {T Time : Type}.
Variable strftime : string -> Time -> string.
Variable realpath : string -> string.
Implicit Types (s : state T Time) (h : nat).

Lemma read_all_drains (items : list (string * (nat * T))) :
  forall s,
    sound s ->
    (forall e, In e items -> In e (files_map s)) ->
    exists s',
      read_all items s = (s', Ok tt)
      /\ sound s'
      /\ files_map s' = files_map s
      /\ fs s' = fs s
      /\ (forall h, unread s h = [] -> f_closed (file_of s h) = false ->
                    0 <= f_pos (file_of s h) -> unread s' h = [])
      /\ (forall e, In e items -> unread s' (entry_file e) = []).
Proof.
  induction items as [|[fid [h ty]] items IH]; intros s Hs Hsub.
  - exists s. split; [reflexivity|]. split; [exact Hs|].
    split; [reflexivity|]. split; [reflexivity|].
    split; [intros h Hnone _ _; exact Hnone | intros e []].
  - pose proof Hs as (_ & _ & Hfiles).
    destruct (Hfiles (fid, (h, ty)) (Hsub _ (or_introl eq_refl)))
      as (Hopen & Hpos). cbn [entry_file fst snd] in *.
    destruct (readlines_reads s h ty Hopen Hpos) as (batches & Hrun & _).
    set (evs := map _ batches) in Hrun.
    set (s1 := after_read s h evs) in Hrun.
    assert (Hfile1 : forall h', file_of s1 h'
                                = if Nat.eq_dec h h'
                                  then with_pos (file_of s h)
                                         (f_pos (file_of s h)
                                          + Z.of_nat (List.length (unread s h)))
                                  else file_of s h').
    { intros h'. destruct (Nat.eq_dec h h') as [<-|Hne].
      - now apply file_of_after_read_same.
      - now apply file_of_after_read_other. }
    assert (Hs1 : sound s1).
    { apply (sound_frame s); [exact Hs | reflexivity|].
      intros e He. rewrite Hfile1.
      destruct (Nat.eq_dec h (entry_file e)) as [Heq|Hne].
      - cbn. split; [exact Hopen | lia].
      - now apply Hfiles. }
    assert (Hdrained1 : unread s1 h = []) by (now apply unread_after_read).
    assert (Hopen1 : f_closed (file_of s1 h) = false
                     /\ 0 <= f_pos (file_of s1 h)).
    { rewrite Hfile1. destruct (Nat.eq_dec h h); [|congruence].
      cbn. split; [exact Hopen | lia]. }
    destruct (IH s1 Hs1) as (s' & Hrest & Hs' & Hmap & Hfs & Hkeep & Hdr).
    { intros e He. apply Hsub. now right. }
    exists s'. split; [cbn [read_all]; unfold bind; rewrite Hrun; exact Hrest|].
    split; [exact Hs'|]. split; [exact Hmap|]. split; [exact Hfs|]. split.
    + intros h' Hnone Hopen' Hpos'.
      destruct (Nat.eq_dec h h') as [<-|Hne].
      * now apply Hkeep.
      * apply Hkeep.
        -- unfold unread. rewrite Hfile1.
           destruct (Nat.eq_dec h h'); [congruence | exact Hnone].
        -- rewrite Hfile1. destruct (Nat.eq_dec h h'); [congruence | exact Hopen'].
        -- rewrite Hfile1. destruct (Nat.eq_dec h h'); [congruence | exact Hpos'].
    + intros e [<-|He]; [|now apply Hdr].
      cbn [entry_file fst snd]. now apply Hkeep.
Qed.


End Drain.


(** ** The map is keyed by inode, and a turn leaves the watcher at rest *)

Lemma key_id_inj (k1 k2 : file_key) : key_id k1 = key_id k2 -> k1 = k2.
Proof.
  unfold key_id. intros Heq.
  destruct (split_at_g _ _ _ _ (hex_without_g _) (hex_without_g _) Heq)
    as [Hdev Hino].
  destruct k1 as [d1 i1], k2 as [d2 i2]. cbn [fst snd] in *. f_equal.
  - rewrite <- (hex_read_back d1), Hdev. apply hex_read_back.
  - rewrite <- (hex_read_back i1), Hino. apply hex_read_back.
Qed.

Lemma dict_set_in {V : Type} (k : string) (v : V) (d : list (string * V))
      (e : string * V) :
  In e (dict_set k v d) -> e = (k, v) \/ In e d.
Proof.
  induction d as [|[k' v'] d IH]; cbn.
  - intros [<-|[]]. now left.
  - destruct (String.eqb_spec k k') as [->|Hne]; cbn.
    + intros [<-|Hin]; [now left | right; now right].
    + intros [<-|Hin]; [right; now left|].
      destruct (IH Hin) as [->|?]; [now left | right; now right].
Qed.

Lemma dict_mem_set {V : Type} (k a : string) (v : V) (d : list (string * V)) :
  dict_mem a d = true -> dict_mem a (dict_set k v d) = true.
Proof.
  unfold dict_mem. induction d as [|[k' v'] d IH]; cbn; [discriminate|].
  destruct (String.eqb_spec k k') as [->|Hne]; cbn.
  - destruct (String.eqb a k'); trivial.
  - destruct (String.eqb a k'); [trivial | exact IH].
Qed.

Lemma dict_mem_set_same {V : Type} (k : string) (v : V)
      (d : list (string * V)) :
  dict_mem k (dict_set k v d) = true.
Proof.
  unfold dict_mem. induction d as [|[k' v'] d IH]; cbn.
  - now rewrite String.eqb_refl.
  - destruct (String.eqb_spec k k') as [->|Hne]; cbn.
    + now rewrite String.eqb_refl.
    + destruct (String.eqb_spec k k'); [congruence | exact IH].
Qed.

Lemma os_open_found_error (fs0 : filesystem) (path : string) (k : file_key)
      (e : errno) :
  fs_lookup fs0 path = inr k ->
  os_open fs0 path = Raise (IOError e) ->
  e <> ENOENT.
Proof.
  unfold os_open. intros ->.
  destruct (negb (i_readable (fs_inode fs0 k))); [intros [= <-]; discriminate|].
  destruct (i_kind (fs_inode fs0 k)); intros [= <-] || discriminate.
  discriminate.
Qed.

Section Settle.
Context {T Time : Type}.
Variable strftime : string -> Time -> string.
Variable realpath : string -> string.
Implicit Types (s : state T Time) (h : nat).

Lemma keyed_entry_forward s s' (e : string * (nat * T)) :
  moves_forward s s' -> keyed_entry s e -> keyed_entry s' e.
Proof.
  intros (Hlen & Hfiles) (Hin & Hkey).
  destruct (Hfiles _ Hin) as (_ & Hk & _).
  split; [lia | congruence].
Qed.

Lemma grows_within s s' :
  fs s' = fs s -> clock s' = clock s -> filelist s' = filelist s ->
  moves_forward s s' ->
  (forall e, In e (files_map s') -> In e (files_map s)) ->
  grows s s'.
Proof.
  intros Hfs Hclock Hlist Hfw Hsub. repeat (split; [assumption|]).
  intros e He. left. now apply Hsub.
Qed.

Lemma grows_same s s' :
  fs s' = fs s -> clock s' = clock s -> filelist s' = filelist s ->
  handles s' = handles s -> files_map s' = files_map s ->
  grows s s'.
Proof.
  intros Hfs Hclock Hlist Hh Hmap.
  apply grows_within; try assumption; [now apply forward_same|].
  rewrite Hmap. trivial.
Qed.

Lemma grows_trans s1 s2 s3 : grows s1 s2 -> grows s2 s3 -> grows s1 s3.
Proof.
  intros (F1 & C1 & L1 & M1 & E1) (F2 & C2 & L2 & M2 & E2).
  split; [congruence|]. split; [congruence|]. split; [congruence|].
  split; [eapply forward_trans; eassumption|].
  intros e He. destruct (E2 e He) as [Hin|Hk]; [|now right].
  destruct (E1 e Hin) as [Hin1|Hk]; [now left|].
  right. eapply keyed_entry_forward; eassumption.
Qed.

Lemma grows_bind {A B : Type} (m : M T Time A) (k : A -> M T Time B) s :
  grows s (fst (m s)) ->
  (forall a s1, grows s1 (fst (k a s1))) ->
  grows s (fst (bind m k s)).
Proof.
  intros Hm Hk. unfold bind.
  destruct (m s) as [s1 [a|e|]]; cbn [fst] in *; try exact Hm.
  eapply grows_trans; [exact Hm | apply Hk].
Qed.

Lemma keyed_grows s s' : keyed s -> grows s s' -> keyed s'.
Proof.
  intros Hk (_ & _ & _ & Hfw & Hent) e He.
  destruct (Hent e He) as [Hin|Hnew]; [|exact Hnew].
  eapply keyed_entry_forward; [exact Hfw | now apply Hk].
Qed.

Lemma grows_close s h : grows s (fst (file_close h s)).
Proof.
  apply grows_within; try reflexivity; [apply forward_close | trivial].
Qed.

Lemma grows_readlines_loop (fuel : nat) :
  forall s h (ty : T), grows s (fst (readlines_loop fuel h ty s)).
Proof.
  induction fuel as [|fuel IH]; intros s h ty.
  - now apply grows_same.
  - pose proof (forward_readlines_loop (S fuel) s h ty) as Hfw.
    cbn [readlines_loop] in *. unfold file_readlines in *.
    destruct (f_closed (file_of s h)) eqn:Hc; [now apply grows_same|].
    set (lines := take_hint _ _) in *.
    set (s1 := set_handles _ s) in *.
    destruct lines as [|l ls].
    + apply grows_within; try reflexivity; [exact Hfw | trivial].
    + change (callback ?args s1) with (fst (callback args s1), @Ok unit tt)
        in *.
      cbv beta iota in *.
      set (s2 := fst (callback _ s1)) in *.
      pose proof (IH s2 h ty) as (F & C & L & _ & E).
      split; [exact F|]. split; [exact C|]. split; [exact L|].
      split; [exact Hfw|]. exact E.
Qed.

Lemma grows_readlines s h (ty : T) : grows s (fst (readlines h ty s)).
Proof.
  unfold readlines.
  pose proof (grows_readlines_loop (S (List.length (unread s h))) s h ty) as H.
  destruct (readlines_loop _ h ty s) as [s' [[]|e|]]; exact H.
Qed.

Lemma grows_unwatch s h fid : grows s (fst (unwatch h fid s)).
Proof.
  unfold unwatch.
  apply grows_bind; [now apply grows_same|].
  intros _ s1. unfold with_file.
  destruct (f_closed (file_of s1 h)); [now apply grows_same|].
  match goal with
  | |- context [match ?body s1 with _ => _ end] =>
      assert (Hbody : grows s1 (fst (body s1)))
  end.
  { apply grows_bind.
    - unfold files_map_item. destruct (dict_get fid (files_map s1));
        now apply grows_same.
    - intros info s2. apply grows_bind; [apply grows_readlines|].
      intros v s3. apply grows_bind.
      + unfold files_map_del. destruct (dict_get fid (files_map s3));
          [|now apply grows_same].
        apply grows_within; try reflexivity; [now apply forward_same|].
        intros e He. now apply dict_del_in in He.
      + intros _ s4. destruct v as [[|l ls]|]; now apply grows_same. }
  match goal with
  | |- context [match ?body s1 with _ => _ end] =>
      destruct (body s1) as [s5 [a|e|]]
  end; cbn [fst] in *; try exact Hbody;
    (eapply grows_trans; [exact Hbody | apply grows_close]).
Qed.

Lemma grows_watch s fname (ty : T) : grows s (fst (watch fname ty s)).
Proof.
  pose proof (forward_watch s fname ty) as Hfw.
  destruct (os_open_cases (fs s) fname) as [(k & Hopen & Hk)|(e & Hopen)].
  - rewrite (watch_opens s fname k ty Hk Hopen) in *. cbn [fst] in *.
    split; [reflexivity|]. split; [reflexivity|]. split; [reflexivity|].
    split; [exact Hfw|].
    intros e He. cbn [files_map after_watch] in He.
    apply dict_set_in in He as [->|Hin]; [right | now left].
    unfold keyed_entry, entry_file, file_of. cbn [fst snd handles after_watch].
    rewrite length_app, app_nth2, Nat.sub_diag by lia. cbn.
    split; [lia | reflexivity].
  - rewrite (watch_open_fails s fname e ty Hopen). now apply grows_same.
Qed.

Lemma grows_call_watch s (args : list (pyarg T)) :
  grows s (fst (call_watch args s)).
Proof.
  unfold call_watch.
  destruct args as [|[fname| |] [|[| |ty] [|]]];
    try (now apply grows_same).
  apply grows_watch.
Qed.

Lemma grows_check_existent (items : list (string * (nat * T))) :
  forall s, grows s (fst (check_existent items s)).
Proof.
  induction items as [|[fid [h ty]] items IH]; intros s; cbn [check_existent].
  - now apply grows_same.
  - apply grows_bind; [|intros; apply IH].
    unfold stat.
    destruct (os_stat (fs s) (f_name (file_of s h))) as [st|[| e | e | | |]|];
      try (now apply grows_same).
    + destruct (negb (String.eqb fid (get_file_id st)));
        [|now apply grows_same].
      apply grows_bind; [apply grows_unwatch
                        | intros; apply grows_call_watch].
    + destruct (errno_eqb e ENOENT);
        [apply grows_unwatch | now apply grows_same].
    + destruct (errno_eqb e ENOENT);
        [apply grows_unwatch | now apply grows_same].
Qed.

Lemma grows_add_new (ls : list (string * string * T)) :
  forall s, grows s (fst (add_new ls s)).
Proof.
  induction ls as [|[[fid fname] ty] ls IH]; intros s; cbn [add_new].
  - now apply grows_same.
  - apply grows_bind; [|intros; apply IH].
    destruct (negb (dict_mem fid (files_map s)));
      [apply grows_call_watch | now apply grows_same].
Qed.

Lemma grows_update_files s :
  grows s (fst (update_files strftime realpath s)).
Proof.
  unfold update_files. apply grows_bind.
  - rewrite scan_filelist_keeps_state. now apply grows_same.
  - intros ls s1. apply grows_bind;
      [apply grows_check_existent | intros; apply grows_add_new].
Qed.

Lemma grows_read_all (items : list (string * (nat * T))) :
  forall s, grows s (fst (read_all items s)).
Proof.
  induction items as [|[fid [h ty]] items IH]; intros s; cbn [read_all].
  - now apply grows_same.
  - apply grows_bind; [apply grows_readlines | intros; apply IH].
Qed.

Lemma grows_cycle s : grows s (fst (cycle strftime realpath s)).
Proof.
  unfold cycle. apply grows_bind;
    [apply grows_update_files | intros; apply grows_read_all].
Qed.

Lemma keyed_frame s s' :
  keyed s ->
  files_map s' = files_map s ->
  List.length (handles s') = List.length (handles s) ->
  (forall h, f_key (file_of s' h) = f_key (file_of s h)) ->
  keyed s'.
Proof.
  intros Hk Hmap Hlen Hkey e He. rewrite Hmap in He.
  destruct (Hk e He) as (Hin & Hid). split; [lia | now rewrite Hkey].
Qed.

Lemma keyed_bind {A B : Type} (m : M T Time A) (k : A -> M T Time B) s :
  keyed (fst (m s)) ->
  (forall a s1, keyed s1 -> keyed (fst (k a s1))) ->
  keyed (fst (bind m k s)).
Proof.
  intros Hm Hk. unfold bind.
  destruct (m s) as [s1 [a|e|]]; cbn [fst] in *; try exact Hm.
  now apply Hk.
Qed.

Lemma file_seek_keyed s h (pos : Z) : keyed s -> keyed (fst (file_seek h pos s)).
Proof.
  intros Hk. unfold file_seek.
  destruct (f_closed (file_of s h)) eqn:Hc; [exact Hk|]. cbn [fst].
  pose proof (open_file_in_store s h Hc) as Hin.
  apply (keyed_frame s); [exact Hk | reflexivity | apply length_set_nth|].
  intros h'. destruct (Nat.eq_dec h h') as [<-|Hne].
  - rewrite file_of_set_same by exact Hin. reflexivity.
  - rewrite file_of_set_other by exact Hne. reflexivity.
Qed.

Lemma init_files_keyed (tail_lines : Z) (items : list (string * (nat * T))) :
  forall s, keyed s -> keyed (fst (init_files tail_lines items s)).
Proof.
  induction items as [|[fid [h ty]] items IH]; intros s Hs; cbn [init_files].
  - exact Hs.
  - apply keyed_bind; [|intros; now apply IH].
    apply keyed_bind; [exact Hs|].
    intros st s1 Hs1.
    apply keyed_bind; [now apply file_seek_keyed|].
    intros _ s2 Hs2.
    destruct (negb (tail_lines =? 0)); [|exact Hs2].
    destruct (startup_tail (f_name (file_of s h)) tail_lines s2)
      as [s3 r] eqn:Etail.
    destruct (startup_tail_frame _ _ _ _ _ Etail) as (_ & Hh & Hm).
    cbn [fst]. apply (keyed_frame s2); [exact Hs2 | exact Hm | now rewrite Hh|].
    intros h'. unfold file_of. now rewrite Hh.
Qed.

Lemma constructor_keyed (filelist0 : list (string * T)) (tail_lines : Z)
      (sizehint0 : Z) s0 :
  keyed (fst (__init__ strftime realpath filelist0 tail_lines sizehint0 s0)).
Proof.
  unfold __init__.
  apply keyed_bind; [intros e []|].
  intros _ s1 Hs1.
  apply keyed_bind;
    [exact (keyed_grows _ _ Hs1 (grows_update_files s1))|].
  intros _ s2 Hs2. now apply init_files_keyed.
Qed.

Lemma cycle_keyed s : keyed s -> keyed (fst (cycle strftime realpath s)).
Proof. intros Hk. exact (keyed_grows _ _ Hk (grows_cycle s)). Qed.

(** X17: the map is keyed by inode.  From the constructor on, and
    through every turn of the loop whatever the environment does, each
    entry of the map is filed under the identity [get_file_id] gives to
    the inode that its file object reads: the key of an entry never
    names another file than the one being read. *)
Theorem entries_keyed_by_inode :
  (forall filelist0 tail_lines sizehint0 s0,
      keyed (fst (__init__ strftime realpath filelist0 tail_lines
                           sizehint0 s0)))
  /\ (forall s, keyed s -> keyed (fst (cycle strftime realpath s)))
  /\ (forall envs blocking s,
         keyed s -> keyed (fst (loop strftime realpath blocking envs s))).
Proof.
  split; [|split].
  - intros. apply constructor_keyed.
  - intros s Hk. now apply cycle_keyed.
  - induction envs as [|env envs IH]; intros blocking s Hk;
      rewrite loop_unfold;
      pose proof (cycle_keyed s Hk) as Hk1;
      destruct (cycle strftime realpath s) as [s1 [[]|err|]];
      cbn [fst snd] in *; try exact Hk1.
    + destruct blocking; exact Hk1.
    + destruct blocking; cbn [negb fst]; [|exact Hk1].
      apply IH. exact Hk1.
Qed.

End Settle.

Lemma entries_keyed_by_inode_witness :
  keyed started
  /\ keyed (fst (cycle day_strftime same_path woke_rotated))
  /\ keyed (fst (loop day_strftime same_path true [(grown_disk, 1%nat)]
                      started)).
Proof.
  pose proof (@entries_keyed_by_inode unit nat day_strftime same_path)
    as (Hinit & Hcycle & Hloop).
  pose proof (Hinit [("/log"%string, tt)] 0 1048576 (boot log_disk 0%nat))
    as Hstart.
  change (keyed started) in Hstart.
  assert (Hwoke : keyed woke_rotated) by exact Hstart.
  split; [exact Hstart|].
  split; [exact (Hcycle woke_rotated Hwoke)|].
  exact (Hloop [(grown_disk, 1%nat)] true started Hstart).
Defined.

Section Rest.
Context {T Time : Type}.
Variable strftime : string -> Time -> string.
Variable realpath : string -> string.
Implicit Types (s : state T Time) (h : nat).

(** What a scan that returns has found out about every entry of the
    file list. *)
Lemma scan_filelist_settles (entries : list (string * T)) :
  forall ls s ls',
    scan_filelist strftime realpath entries ls s = (s, Ok ls') ->
    Forall (candidate_ok (fs s)) ls ->
    incl ls ls'
    /\ Forall (candidate_ok (fs s)) ls'
    /\ forall entry,
        In entry entries ->
        exists p,
          resolve_name strftime (fst entry) s = (s, Ok p)
          /\ match fs_lookup (fs s) (realpath p) with
             | inr k => i_kind (fs_inode (fs s) k) <> Regular
                        \/ In (key_id k) (map (fun c => fst (fst c)) ls')
             | inl e => e = ENOENT
             end.
Proof.
  induction entries as [|[name ty] entries IH]; intros ls s ls' Hrun Hls.
  - cbn in Hrun. injection Hrun as <-.
    split; [apply incl_refl|]. split; [exact Hls | intros e []].
  - pose proof (resolve_name_keeps_state strftime name s) as Hst.
    destruct (resolve_name strftime name s) as [s1 [p|e|]] eqn:Hres;
      cbn [fst] in Hst; subst s1;
      try (cbn [scan_filelist] in Hrun; unfold bind in Hrun;
           rewrite Hres in Hrun; discriminate).
    destruct (fs_lookup (fs s) (realpath p)) as [e|k] eqn:Hlook.
    + rewrite (scan_filelist_stat_fails strftime realpath s name ty p e
                 entries ls Hres Hlook) in Hrun.
      destruct (errno_eqb e ENOENT) eqn:He; [|discriminate].
      apply errno_eqb_eq in He.
      destruct (IH _ _ _ Hrun Hls) as (Hinc & Hc & Hent).
      split; [exact Hinc|]. split; [exact Hc|].
      intros entry [<-|Hin]; [|now apply Hent].
      exists p. cbn [fst]. split; [exact Hres|]. now rewrite Hlook.
    + rewrite (scan_filelist_found strftime realpath s name ty p k
                 entries ls Hres Hlook) in Hrun.
      destruct (i_kind (fs_inode (fs s) k)) eqn:Hkind.
      1: { destruct (IH _ _ _ Hrun) as (Hinc & Hc & Hent).
           { apply Forall_app. split; [exact Hls|].
             constructor; [|constructor]. exists k. cbn [fst snd]. auto. }
           split; [intros c Hc0; apply Hinc, in_or_app; now left|].
           split; [exact Hc|].
           intros entry [<-|Hin]; [|now apply Hent].
           exists p. cbn [fst]. split; [exact Hres|]. rewrite Hlook. right.
           apply in_map_iff. exists (key_id k, realpath p, ty).
           split; [reflexivity|]. apply Hinc, in_or_app. right. now left. }
      all: destruct (IH _ _ _ Hrun Hls) as (Hinc & Hc & Hent);
        (split; [exact Hinc|]); (split; [exact Hc|]);
        intros entry [<-|Hin]; [|now apply Hent];
        exists p; cbn [fst]; (split; [exact Hres|]); rewrite Hlook; left;
        congruence.
Qed.

(** What a second loop that returns has done: it has only dropped
    entries, and every entry it went over and left in the map is read
    under a name that still leads to its inode. *)
Lemma check_existent_settles (items : list (string * (nat * T))) :
  forall s s2,
    sound s -> keyed s ->
    NoDup (map fst items) ->
    (forall e, In e items -> In e (files_map s)) ->
    check_existent items s = (s2, Ok tt) ->
    (forall e, In e (files_map s2) -> In e (files_map s))
    /\ (forall e, In e items -> In e (files_map s2) ->
                  fs_lookup (fs s2) (f_name (file_of s2 (entry_file e)))
                  = inr (f_key (file_of s2 (entry_file e)))).
Proof.
  induction items as [|[fid [h ty]] items IH]; intros s s2 Hs Hk Hnd Hsub Hrun.
  - cbn in Hrun. injection Hrun as <-. split; [trivial | intros e []].
  - inversion Hnd as [|? ? Hnotin Hnd']; subst.
    pose proof (Hsub _ (or_introl eq_refl)) as Hhead.
    pose proof Hs as (Hkeys & _ & Hfiles).
    destruct (Hfiles _ Hhead) as (Hopen & Hpos).
    destruct (Hk _ Hhead) as (Hin & Hid). cbn [entry_file fst snd] in *.
    cbn [check_existent] in Hrun. unfold bind, stat in Hrun.
    destruct (fs_lookup (fs s) (f_name (file_of s h))) as [e|k] eqn:Hlook.
    + rewrite (os_stat_missing _ _ _ Hlook) in Hrun.
      destruct (errno_eqb e ENOENT) eqn:He; [|discriminate].
      destruct (unwatch_sound s fid h ty Hs Hhead) as (evs & Hun & Hs1).
      rewrite Hun in Hrun.
      assert (Hk1 : keyed (after_unwatch s h fid evs)).
      { apply (keyed_grows s); [exact Hk|].
        pose proof (grows_unwatch s h fid) as G. now rewrite Hun in G. }
      destruct (IH _ s2 Hs1 Hk1 Hnd') as (Hsub2 & Hplace); [|exact Hrun|].
      { intros e0 He0. cbn [files_map after_unwatch].
        apply dict_del_keeps; [apply Hsub; now right|].
        intros Heq. apply Hnotin. rewrite <- Heq. now apply in_map. }
      split.
      * intros e0 He0. apply Hsub2 in He0. cbn [files_map after_unwatch] in He0.
        now apply dict_del_in in He0.
      * intros e0 [<-|Hin0] He0; [|now apply Hplace].
        exfalso. apply Hsub2 in He0. cbn [files_map after_unwatch] in He0.
        now apply (dict_del_key fid _ _ Hkeys) in He0.
    + destruct (os_stat_found (fs s) _ k Hlook) as (st & Hst & Hfid & _).
      rewrite Hst, Hfid in Hrun.
      destruct (String.eqb_spec fid (key_id k)) as [Heq|Hne];
        cbn [negb] in Hrun.
      * assert (Hkk : k = f_key (file_of s h))
          by (apply key_id_inj; congruence).
        destruct (IH s s2 Hs Hk Hnd') as (Hsub2 & Hplace); [|exact Hrun|].
        { intros; apply Hsub; now right. }
        split; [exact Hsub2|].
        intros e0 [<-|Hin0] He0; [|now apply Hplace]. cbn [entry_file fst snd].
        pose proof (grows_check_existent items s) as G.
        rewrite Hrun in G. cbn [fst] in G.
        destruct G as (Hfs & _ & _ & (_ & Hfw) & _).
        destruct (Hfw h Hin) as (Hn & Hkey & _).
        rewrite Hfs, Hn, Hkey, Hlook. now rewrite Hkk.
      * exfalso.
        destruct (unwatch h fid s) as [s1 [[]|e1|]];
          unfold call_watch, raise in Hrun; discriminate.
Qed.

(** What a third loop that returns has done: every candidate is in
    the map, and the identities that were there still are. *)
Lemma add_new_settles (ls : list (string * string * T)) :
  forall s s',
    Forall (candidate_ok (fs s)) ls ->
    add_new ls s = (s', Ok tt) ->
    (forall key, dict_mem key (files_map s) = true ->
                 dict_mem key (files_map s') = true)
    /\ Forall (fun c => dict_mem (fst (fst c)) (files_map s') = true) ls.
Proof.
  induction ls as [|[[fid fname] ty] ls IH]; intros s s' Hc Hrun.
  - cbn in Hrun. injection Hrun as <-. split; [trivial | constructor].
  - inversion Hc as [|? ? (k & Hlook & Hreg & Hfid) Hrest]; subst.
    cbn [fst snd] in *. subst fid.
    cbn [add_new] in Hrun. unfold bind in Hrun.
    destruct (dict_mem (key_id k) (files_map s)) eqn:Hmem; cbn [negb] in Hrun.
    + destruct (IH s s' Hrest Hrun) as (Hmono & Hall).
      split; [exact Hmono|]. constructor; [now apply Hmono | exact Hall].
    + cbn [call_watch] in Hrun.
      destruct (os_open_cases (fs s) fname) as [(k' & Hopen & Hk')|(e & Hopen)].
      * assert (k' = k) as -> by congruence.
        rewrite (watch_opens s fname k ty Hlook Hopen) in Hrun.
        destruct (IH (after_watch s fname k ty) s' Hrest Hrun)
          as (Hmono & Hall).
        split.
        -- intros key Hkey. apply Hmono. cbn [files_map after_watch].
           now apply dict_mem_set.
        -- constructor; [|exact Hall]. cbn [fst]. apply Hmono.
           cbn [files_map after_watch]. apply dict_mem_set_same.
      * rewrite (watch_open_fails s fname e ty Hopen) in Hrun.
        pose proof (os_open_found_error _ _ _ _ Hlook Hopen) as Hne.
        apply errno_eqb_neq in Hne. rewrite Hne in Hrun. discriminate.
Qed.

Lemma resolve_name_clock (name : string) s s' (p : string) :
  clock s' = clock s ->
  resolve_name strftime name s = (s, Ok p) ->
  resolve_name strftime name s' = (s', Ok p).
Proof.
  unfold resolve_name. intros ->.
  destruct (contains "{" (list_ascii_of_string name)).
  - destruct (re_match template_re (list_ascii_of_string name));
      [|discriminate].
    intros [= <-]. reflexivity.
  - intros [= <-]. reflexivity.
Qed.

(** When [update_files] returns, the watch set is at rest. *)
Lemma update_files_settles s s' :
  sound s -> keyed s ->
  update_files strftime realpath s = (s', Ok tt) ->
  quiet strftime realpath s'.
Proof.
  intros Hs Hk Hrun.
  pose proof (update_files_sound strftime realpath s Hs) as (Hs' & _).
  pose proof (keyed_grows _ _ Hk (grows_update_files strftime realpath s))
    as Hk'.
  pose proof (grows_update_files strftime realpath s)
    as (Hfs & Hclock & Hlist & _ & _).
  rewrite Hrun in Hs', Hk', Hfs, Hclock, Hlist. cbn [fst] in *.
  unfold update_files, bind in Hrun.
  pose proof (scan_filelist_keeps_state strftime realpath (filelist s) [] s)
    as Hst.
  destruct (scan_filelist strftime realpath (filelist s) [] s)
    as [s0 [ls|e|]] eqn:Hscan; cbn [fst] in Hst; subst s0; try discriminate.
  destruct (scan_filelist_settles (filelist s) [] s ls Hscan (Forall_nil _))
    as (_ & Hcand & Hent).
  destruct (check_existent (files_map s) s) as [s2 [[]|e|]] eqn:Hcheck;
    try discriminate.
  pose proof Hs as (Hkeys & _).
  destruct (check_existent_settles _ s s2 Hs Hk Hkeys (fun e H => H) Hcheck)
    as (Hsub & Hplace).
  pose proof (check_existent_sound (files_map s) s Hs Hkeys (fun e H => H))
    as (Hs2 & _).
  rewrite Hcheck in Hs2. cbn [fst] in Hs2.
  pose proof (grows_check_existent (files_map s) s) as (Hfs2 & _).
  rewrite Hcheck in Hfs2. cbn [fst] in Hfs2.
  assert (Hplace2 : map_in_place s2).
  { intros fid h ty Hin.
    split; [apply (proj2 (proj2 Hs2) _ Hin)|].
    apply (Hplace (fid, (h, ty))); [now apply Hsub | exact Hin]. }
  destruct (add_new_keeps_in_place ls s2 Hplace2) as (Hplace' & _).
  rewrite Hrun in Hplace'. cbn [fst] in Hplace'.
  destruct (add_new_settles ls s2 s') as (_ & Hmem);
    [now rewrite Hfs2 | exact Hrun |].
  split; [exact (proj1 Hs')|]. split.
  - apply Forall_forall. intros [fid [h ty]] Hin.
    destruct (proj2 (proj2 Hs') _ Hin) as (Hopen & Hpos).
    destruct (Hplace' fid h ty Hin) as (_ & Hlook).
    destruct (Hk' _ Hin) as (_ & Hid).
    unfold watched_ok. cbn [fst snd entry_file] in *.
    split; [exact Hopen|]. split; [exact Hpos|]. split; [exact Hlook|].
    exact Hid.
  - rewrite Hlist. apply Forall_forall. intros entry Hin.
    destruct (Hent entry Hin) as (p & Hres & Hcase).
    exists p. split; [exact (resolve_name_clock _ s s' p Hclock Hres)|].
    rewrite Hfs. destruct (fs_lookup (fs s) (realpath p)) as [e|k];
      [exact Hcase|].
    destruct Hcase as [Hnr|Hin']; [now left | right].
    apply in_map_iff in Hin' as (c & Hc & Hinc). rewrite <- Hc.
    rewrite Forall_forall in Hmem. now apply Hmem.
Qed.

(** A watch set at rest stays at rest while the file objects of its
    map are only read. *)
Lemma quiet_moves s s' :
  quiet strftime realpath s ->
  sound s' -> grows s s' -> files_map s' = files_map s ->
  quiet strftime realpath s'.
Proof.
  intros (Hnd & Hw & Hset) Hs' (Hfs & Hclock & Hlist & (_ & Hfw) & _) Hmap.
  split; [exact (proj1 Hs')|]. split.
  - rewrite Hmap. apply Forall_forall. intros e Hin.
    rewrite Forall_forall in Hw.
    destruct (Hw e Hin) as (Hopen & Hpos & Hlook & Hid).
    pose proof (open_file_in_store s _ Hopen) as Hstore.
    destruct (Hfw _ Hstore) as (Hn & Hkey & _).
    assert (Hin' : In e (files_map s')) by now rewrite Hmap.
    destruct (proj2 (proj2 Hs') e Hin') as (Hopen' & Hpos').
    unfold watched_ok, entry_file in *. cbv zeta. rewrite Hfs, Hn, Hkey.
    split; [exact Hopen'|]. split; [exact Hpos'|]. split; [exact Hlook|].
    exact Hid.
  - rewrite Hlist. apply Forall_forall. intros entry Hin.
    rewrite Forall_forall in Hset.
    destruct (Hset entry Hin) as (p & Hres & Hcase).
    exists p. split; [exact (resolve_name_clock _ s s' p Hclock Hres)|].
    rewrite Hfs, Hmap. exact Hcase.
Qed.

Lemma read_all_nothing (items : list (string * (nat * T))) s :
  (forall e, In e items ->
             f_closed (file_of s (entry_file e)) = false
             /\ unread s (entry_file e) = []) ->
  read_all items s = (s, Ok tt).
Proof.
  induction items as [|[fid [h ty]] items IH]; intros Hall; cbn [read_all].
  - reflexivity.
  - destruct (Hall _ (or_introl eq_refl)) as (Hopen & Hnone).
    cbn [entry_file fst snd] in *. unfold bind.
    rewrite (readlines_nothing s h ty Hopen Hnone).
    apply IH. intros e He. apply Hall. now right.
Qed.

(** X18: a turn leaves the watcher at rest.  On a sound map keyed by
    inode, when [update_files] returns every entry of the map is read
    under a name that still leads to its inode and every regular file
    of the file list is watched, so that a second [update_files] in the
    same environment changes nothing; and when the whole turn returns,
    a second turn in the same environment changes nothing and calls
    nothing. *)
Theorem turn_leaves_watcher_at_rest s s' :
  sound s -> keyed s ->
  (update_files strftime realpath s = (s', Ok tt) ->
   quiet strftime realpath s'
   /\ update_files strftime realpath s' = (s', Ok tt))
  /\ (cycle strftime realpath s = (s', Ok tt) ->
      quiet strftime realpath s'
      /\ cycle strftime realpath s' = (s', Ok tt)).
Proof.
  intros Hs Hk. split.
  - intros Hrun.
    pose proof (update_files_settles s s' Hs Hk Hrun) as Hq.
    split; [exact Hq | now apply update_files_quiet].
  - intros Hrun. unfold cycle, bind in Hrun.
    pose proof (update_files_sound strftime realpath s Hs) as (Hs1 & _).
    destruct (update_files strftime realpath s) as [s1 [[]|e|]] eqn:Hup;
      try discriminate.
    cbn [fst] in Hs1.
    pose proof (update_files_settles s s1 Hs Hk Hup) as Hq1.
    destruct (read_all_drains (files_map s1) s1 Hs1 (fun e H => H))
      as (s2 & Hread & Hs2 & Hmap & _ & _ & Hdr).
    rewrite Hread in Hrun. injection Hrun as <-.
    pose proof (grows_read_all (files_map s1) s1) as G.
    rewrite Hread in G. cbn [fst] in G.
    pose proof (quiet_moves s1 s2 Hq1 Hs2 G Hmap) as Hq2.
    split; [exact Hq2|].
    unfold cycle, bind. rewrite (update_files_quiet strftime realpath s2 Hq2).
    apply read_all_nothing. intros e He.
    split; [now apply Hs2|]. apply Hdr. now rewrite <- Hmap.
Qed.

End Rest.

Lemma turn_leaves_watcher_at_rest_witness :
  quiet day_strftime same_path (fst (cycle day_strftime same_path woke_grown))
  /\ cycle day_strftime same_path
           (fst (cycle day_strftime same_path woke_grown))
     = (fst (cycle day_strftime same_path woke_grown), Ok tt).
Proof.
  apply (proj2 (turn_leaves_watcher_at_rest day_strftime same_path woke_grown
                  (fst (cycle day_strftime same_path woke_grown))
                  (sleep_sound (grown_disk, 1%nat) started
                     (constructor_sound day_strftime same_path
                        [("/log"%string, tt)] 0 1048576
                        (boot log_disk 0%nat)))
                  (constructor_keyed day_strftime same_path
                     [("/log"%string, tt)] 0 1048576
                     (boot log_disk 0%nat)))).
  vm_compute. reflexivity.
Defined.
